(** * Deterministic workflow engine: payload codecs, failure mapping,
      completion serializer, activation scheduler and cancellation.

    A shallow embedding of the TypeScript sources and the properties
    that the specification states about them. *)

From Stdlib Require Import ZArith List String Ascii Bool Lia.
From Stdlib Require Import Permutation Sorted DecimalString.
From stdpp Require Import base option gmap strings list.

Local Open Scope string_scope.
Set Warnings "-register-all".

(* ===================================================================== *)
(** * Part I -- the model                                                 *)
(* ===================================================================== *)

(** ** Exceptions and the error monad *)

(** Modelled from the spec: the error classes of the [errors] modules,
    which are not among the sources.  The specification tells value errors
    ("malformed/unsupported payload or missing metadata") from configuration
    errors ("converter misconfigured") and from programming errors; the
    classes are the ones that the sources name after [throw new], next to
    the built-in [Error], [TypeError] and [SyntaxError]. *)
Inductive ErrorClass : Type :=
| Error_
| TypeError
| SyntaxError
| ValueError
| DataConverterError
| UnsupportedTypeError
| IllegalStateError
| CancellationError.

Record Exn : Type := Throw { exn_class : ErrorClass; exn_message : string }.

Inductive Result (E A : Type) : Type :=
| Ok (a : A)
| Err (e : E).
Arguments Ok {E A} a.
Arguments Err {E A} e.

Definition bind {E A B} (r : Result E A) (k : A -> Result E B) : Result E B :=
  match r with
  | Ok a => k a
  | Err e => Err e
  end.

Declare Scope result_scope.
Delimit Scope result_scope with result.
Notation "'let*' x ':=' r 'in' k" := (bind r (fun x => k))
  (at level 10, x name, r at level 100, k at level 200) : result_scope.
Local Open Scope result_scope.

(** [Array.prototype.map] with a callback that may throw: the first throw
    aborts the whole map. *)
Fixpoint mapM {E A B} (f : A -> Result E B) (l : list A) : Result E (list B) :=
  match l with
  | [] => Ok []
  | x :: xs =>
      let* y := f x in
      let* ys := mapM f xs in
      Ok (y :: ys)
  end.

Definition is_ok {E A} (r : Result E A) : bool :=
  match r with Ok _ => true | Err _ => false end.

(** ** JavaScript values *)

Abbreviation bytes := (list Byte.byte).

(** The values that cross the codec pipeline.  [VMessage] is a protobufjs
    message instance: the only kind of value for which [isProtobufMessage]
    holds (it needs a [$type] carrying functions). *)
Inductive JsValue : Type :=
| VUndefined
| VNull
| VBool (b : bool)
| VNumber (n : Z)
| VBigInt (n : Z)
| VString (s : string)
| VUint8Array (b : bytes)
| VArray (l : list JsValue)
| VObject (fields : list (string * JsValue))
| VMessage (typeName : string) (fields : list (string * JsValue)).

(** ToBoolean, as used by [if (x)], [!x] and [x ? a : b]. *)
Definition truthy (v : JsValue) : bool :=
  match v with
  | VUndefined | VNull => false
  | VBool b => b
  | VNumber n | VBigInt n => negb (n =? 0)%Z
  | VString s => negb (String.eqb s "")
  | VUint8Array _ | VArray _ | VObject _ | VMessage _ _ => true
  end.

Definition isProtobufMessage (v : JsValue) : bool :=
  match v with VMessage _ _ => true | _ => false end.

(** ** Payloads *)

Record Payload : Type := mkPayload {
  metadata : option (gmap string bytes);
  data : option bytes;
}.

(** A protobuf message type ([protobufjs.Type]) or message class, by what
    the converters do with it: [messageType.decode(data)] and
    [fromProto3JSON(messageType, json)]. *)
Record ProtoType : Type := mkProtoType {
  pt_decode : bytes -> Result Exn JsValue;
  pt_fromJSON : JsValue -> Result Exn JsValue;
}.

(** The primitives of the platform and of the [./types] and [../errors]
    modules that the sources import: text encoding, JSON, the metadata keys
    and the encoding names. *)
Class Platform : Type := {
  (** [u8]: [TextEncoder.encode]. *)
  u8 : string -> bytes;
  (** [str]: [TextDecoder.decode]. *)
  str : bytes -> string;
  JSON_stringify : JsValue -> Result Exn string;
  JSON_parse : string -> Result Exn JsValue;
  (** [String(v)] and template interpolation. *)
  String_of : JsValue -> string;
  METADATA_ENCODING_KEY : string;
  METADATA_MESSAGE_TYPE_KEY : string;
  METADATA_ENCODING_NULL : string;
  METADATA_ENCODING_RAW : string;
  METADATA_ENCODING_JSON : string;
  METADATA_ENCODING_PROTOBUF_JSON : string;
  METADATA_ENCODING_PROTOBUF : string;
  (** [encodingKeys.X], the encoded form of [encodingTypes.X]. *)
  KEY_ENCODING_NULL : bytes;
  KEY_ENCODING_RAW : bytes;
  KEY_ENCODING_JSON : bytes;
  (** protobufjs encoders: [$type.encode(value).finish()],
      [toProto3JSON(value)]. *)
  proto_encode : string -> list (string * JsValue) -> bytes;
  toProto3JSON : string -> list (string * JsValue) -> JsValue;
  (** [String.prototype.split(/\r?\n/)] and [Array.prototype.join('\n')]. *)
  split_lines : string -> list string;
  join_lines : list string -> string;
  (** [CUTTOFF_STACK_PATTERNS]: each regular expression as its [test]. *)
  CUTTOFF_STACK_PATTERNS : list (string -> bool);
}.

(** [str(metadata[key])]: a missing key makes [TextDecoder.decode] run on
    [undefined], which decodes the empty input. *)
Definition str_lookup `{Platform} (md : gmap string bytes) (key : string) : string :=
  match md !! key with
  | Some b => str b
  | None => str []
  end.

(** ** data-converter.ts: [DataConverter] *)

Module Converter.

(** The abstract class: two abstract methods. *)
Record DataConverter : Type := mkDataConverter {
  toPayload : JsValue -> Result Exn Payload;
  fromPayload : Payload -> Result Exn JsValue;
}.

(** [toPayloads(...values)]. *)
Definition toPayloads (dc : DataConverter) (values : list JsValue)
  : Result Exn (option (list Payload)) :=
  match values with
  | [] => Ok None
  | _ => let* ps := mapM (toPayload dc) values in Ok (Some ps)
  end.

(** [fromPayloads(index, payloads)]; [None] stands for [undefined] and
    [null].  [index] is an array position. *)
Definition fromPayloads (dc : DataConverter) (index : nat)
    (payloads : option (list Payload)) : Result Exn JsValue :=
  match payloads with
  | None => Ok VUndefined
  | Some ps =>
      if (length ps <=? index)%nat then Ok VUndefined
      else match ps !! index with
           | Some p => fromPayload dc p
           | None => Ok VUndefined
           end
  end.

(** [arrayFromPayloads(converter, content)]. *)
Definition arrayFromPayloads (dc : DataConverter) (content : option (list Payload))
  : Result Exn (list JsValue) :=
  match content with
  | None => Ok []
  | Some ps => mapM (fromPayload dc) ps
  end.

(** [mapToPayloads(converter, source)]: entries keep their order. *)
Definition mapToPayloads (dc : DataConverter) (source : list (string * JsValue))
  : Result Exn (list (string * Payload)) :=
  mapM (fun kv => let* p := toPayload dc (snd kv) in Ok (fst kv, p)) source.

(** ** data-converters.ts: the codecs *)

Record DataConverterWithEncoding : Type := mkCodec {
  encodingType : string;
  codec : DataConverter;
}.

Section Codecs.
Context `{Platform}.

Definition UndefinedDataConverter : DataConverterWithEncoding :=
  {| encodingType := METADATA_ENCODING_NULL;
     codec := {|
       toPayload v :=
         match v with
         | VUndefined =>
             Ok {| metadata := Some {[ METADATA_ENCODING_KEY := KEY_ENCODING_NULL ]};
                   data := None |}
         | _ => Err (Throw UnsupportedTypeError "")
         end;
       fromPayload _ := Ok VUndefined |} |}.

Definition JsonDataConverter : DataConverterWithEncoding :=
  {| encodingType := METADATA_ENCODING_JSON;
     codec := {|
       toPayload v :=
         match v with
         | VUndefined => Err (Throw UnsupportedTypeError "")
         | _ =>
             let* s := JSON_stringify v in
             Ok {| metadata := Some {[ METADATA_ENCODING_KEY := KEY_ENCODING_JSON ]};
                   data := Some (u8 s) |}
         end;
       fromPayload content :=
         match data content with
         | None => Err (Throw ValueError "Got payload with no data")
         | Some d => JSON_parse (str d)
         end |} |}.

Definition BinaryDataConverter : DataConverterWithEncoding :=
  {| encodingType := METADATA_ENCODING_RAW;
     codec := {|
       toPayload v :=
         match v with
         | VUint8Array b =>
             Ok {| metadata := Some {[ METADATA_ENCODING_KEY := KEY_ENCODING_RAW ]};
                   data := Some b |}
         | _ => Err (Throw UnsupportedTypeError "")
         end;
       fromPayload content :=
         match data content with
         | Some d => Ok (VUint8Array d)
         | None => Ok VUndefined
         end |} |}.

(** What [Root.lookupType] hands back.  protobufjs keeps what it finds
    under a path only when that is a [Type]; but for some paths (the
    empty one and ["."]) it hands the namespace itself back before it
    looks for anything.  Such an object has no [decode], and
    [fromProto3JSON] does with it what [fromJSON] says. *)
Inductive Reflected : Type :=
| ReflectedType (t : ProtoType)
| NotAType (fromJSON : JsValue -> Result Exn JsValue).

(** [protobufjs.Root], the type registry, by the one method that the
    converters call.  How a path is resolved is the library's business:
    [lookupType] hands a reflection object back or throws. *)
Record Root : Type := mkRoot {
  lookupType : string -> Result Exn Reflected;
}.

(** [messageType.decode(data)]. *)
Definition decode (messageType : Reflected) (data : bytes) : Result Exn JsValue :=
  match messageType with
  | ReflectedType t => pt_decode t data
  | NotAType _ => Err (Throw TypeError "messageType.decode is not a function")
  end.

(** [protoJsonSerializer.fromProto3JSON(messageType, json)]. *)
Definition fromProto3JSON (messageType : Reflected) (json : JsValue)
  : Result Exn JsValue :=
  match messageType with
  | ReflectedType t => pt_fromJSON t json
  | NotAType fromJSON => fromJSON json
  end.

(** The members that a plain object inherits from [Object.prototype]. *)
Definition Object_prototype_names : list string :=
  [ "constructor"; "__defineGetter__"; "__defineSetter__"; "hasOwnProperty";
    "__lookupGetter__"; "__lookupSetter__"; "isPrototypeOf";
    "propertyIsEnumerable"; "toString"; "valueOf"; "__proto__";
    "toLocaleString" ].

(** [protobufClasses], a plain object of message classes by class name:
    the members of its own. *)
Definition Classes : Type := gmap string ProtoType.

(** What [protobufClasses[name]] finds: a class of the object's own, or a
    member inherited from [Object.prototype], which is truthy and has
    neither [decode] nor [encode]. *)
Inductive Member : Type :=
| OwnClass (messageClass : ProtoType)
| Inherited.

(** [protobufClasses[name]]; [name in protobufClasses] holds when it finds
    something. *)
Definition get_member (protobufClasses : Classes) (name : string) : option Member :=
  match protobufClasses !! name with
  | Some messageClass => Some (OwnClass messageClass)
  | None =>
      if bool_decide (name ∈ Object_prototype_names) then Some Inherited else None
  end.

(** [String.prototype.includes]. *)
Fixpoint includes (needle hay : string) : bool :=
  String.prefix needle hay ||
  match hay with
  | EmptyString => false
  | String _ rest => includes needle rest
  end.

(** [ProtobufDataConverter.validatePayload].  [root] is [None] when the
    constructor received no (or a falsy) [root]. *)
Definition validatePayload (root : option Root) (content : Payload)
  : Result Exn (Reflected * bytes) :=
  match data content with
  | None => Err (Throw ValueError "Got payload with no data")
  | Some d =>
      match metadata content with
      | None =>
          Err (Throw ValueError
                 ("Got protobuf payload without metadata." +:+ METADATA_MESSAGE_TYPE_KEY))
      | Some md =>
          if negb (bool_decide (is_Some (md !! METADATA_MESSAGE_TYPE_KEY))) then
            Err (Throw ValueError
                   ("Got protobuf payload without metadata." +:+ METADATA_MESSAGE_TYPE_KEY))
          else
            match root with
            | None =>
                Err (Throw DataConverterError
                       "Unable to deserialize protobuf message without `root` being provided")
            | Some r =>
                let messageTypeName := str_lookup md METADATA_MESSAGE_TYPE_KEY in
                match lookupType r messageTypeName with
                | Ok messageType => Ok (messageType, d)
                | Err e =>
                    if includes "no such type" (exn_message e) then
                      Err (Throw DataConverterError
                             ("Got a `" +:+ messageTypeName +:+
                              "` protobuf message but cannot find corresponding message class in `root`"))
                    else Err e
                end
            end
      end
  end.

(** [ProtobufDataConverter.constructPayload]. *)
Definition constructPayload (encodingType : string) (messageTypeName : string)
    (message : bytes) : Payload :=
  {| metadata := Some (<[ METADATA_MESSAGE_TYPE_KEY := u8 messageTypeName ]>
                         {[ METADATA_ENCODING_KEY := u8 encodingType ]});
     data := Some message |}.

Definition ProtobufBinaryDataConverter (root : option Root) : DataConverterWithEncoding :=
  {| encodingType := METADATA_ENCODING_PROTOBUF;
     codec := {|
       toPayload v :=
         match v with
         | VMessage typeName fields =>
             Ok (constructPayload METADATA_ENCODING_PROTOBUF typeName
                   (proto_encode typeName fields))
         | _ => Err (Throw UnsupportedTypeError "")
         end;
       fromPayload content :=
         let* md := validatePayload root content in
         decode (fst md) (snd md) |} |}.

Definition ProtobufJsonDataConverter (root : option Root) : DataConverterWithEncoding :=
  {| encodingType := METADATA_ENCODING_PROTOBUF_JSON;
     codec := {|
       toPayload v :=
         match v with
         | VMessage typeName fields =>
             let* s := JSON_stringify (toProto3JSON typeName fields) in
             Ok (constructPayload METADATA_ENCODING_PROTOBUF_JSON typeName (u8 s))
         | _ => Err (Throw UnsupportedTypeError "")
         end;
       fromPayload content :=
         let* md := validatePayload root content in
         let* j := JSON_parse (str (snd md)) in
         fromProto3JSON (fst md) j |} |}.

(** The older [ProtobufPayloadConverter.fromDataSync], which looks the
    message class up in a plain object of classes. *)
Definition fromDataSync (protobufClasses : option Classes) (content : Payload)
  : Result Exn JsValue :=
  match data content with
  | None => Err (Throw ValueError "Got payload with no data")
  | Some d =>
      match metadata content with
      | None =>
          Err (Throw ValueError
                 ("Got protobuf payload without metadata." +:+ METADATA_MESSAGE_TYPE_KEY))
      | Some md =>
          if negb (bool_decide (is_Some (md !! METADATA_MESSAGE_TYPE_KEY))) then
            Err (Throw ValueError
                   ("Got protobuf payload without metadata." +:+ METADATA_MESSAGE_TYPE_KEY))
          else
            match protobufClasses with
            | None =>
                Err (Throw DataConverterError
                       "Unable to deserialize protobuf message without protobufClasses provided to DefaultDataConverter")
            | Some classes =>
                let messageClassName := str_lookup md METADATA_MESSAGE_TYPE_KEY in
                match get_member classes messageClassName with
                | None =>
                    Err (Throw DataConverterError
                           ("Got a `" +:+ messageClassName +:+
                            "` protobuf message but cannot find corresponding message class in protobufClasses"))
                | Some (OwnClass messageClass) => pt_decode messageClass d
                | Some Inherited =>
                    Err (Throw TypeError "messageClass.decode is not a function")
                end
            end
      end
  end.

End Codecs.

(** ** data-converter.ts: [CompositeDataConverter] *)

Record CompositeDataConverter : Type := mkComposite {
  converters : list DataConverterWithEncoding;
  converterByEncoding : gmap string DataConverterWithEncoding;
}.

(** The constructor: [converterByEncoding.set] for each converter in turn,
    so a later converter replaces an earlier one of the same name. *)
Definition new_CompositeDataConverter (cs : list DataConverterWithEncoding)
  : CompositeDataConverter :=
  {| converters := cs;
     converterByEncoding :=
       fold_left (fun m c => <[ encodingType c := c ]> m) cs ∅ |}.

Section Composite.
Context `{Platform}.

(** The [for ... try ... catch] loop of [toPayload]. *)
Fixpoint toPayload_loop (cs : list DataConverterWithEncoding) (value : JsValue)
  : Result Exn Payload :=
  match cs with
  | [] => Err (Throw ValueError ("Cannot serialize " +:+ String_of value))
  | converter :: rest =>
      match toPayload (codec converter) value with
      | Ok result => Ok result
      | Err e =>
          match exn_class e with
          | UnsupportedTypeError => toPayload_loop rest value
          | _ => Err e
          end
      end
  end.

Definition composite_toPayload (c : CompositeDataConverter) (value : JsValue)
  : Result Exn Payload :=
  toPayload_loop (converters c) value.

Definition composite_fromPayload (c : CompositeDataConverter) (payload : Payload)
  : Result Exn JsValue :=
  match metadata payload with
  | None => Err (Throw ValueError "Missing payload metadata")
  | Some md =>
      let encoding := str_lookup md METADATA_ENCODING_KEY in
      match converterByEncoding c !! encoding with
      | None => Err (Throw ValueError ("Unknown encoding: " +:+ encoding))
      | Some converter => fromPayload (codec converter) payload
      end
  end.

(** A composite converter seen as a [DataConverter]. *)
Definition as_DataConverter (c : CompositeDataConverter) : DataConverter :=
  {| toPayload := composite_toPayload c;
     fromPayload := composite_fromPayload c |}.

(** [DefaultDataConverter]: the order used by the other SDKs. *)
Definition default_chain (root : option Root) : list DataConverterWithEncoding :=
  [ UndefinedDataConverter;
    BinaryDataConverter;
    ProtobufJsonDataConverter root;
    ProtobufBinaryDataConverter root;
    JsonDataConverter ].

Definition DefaultDataConverter (root : option Root) : CompositeDataConverter :=
  new_CompositeDataConverter (default_chain root).

Definition defaultDataConverter : DataConverter :=
  as_DataConverter (DefaultDataConverter None).

End Composite.

End Converter.

(** ** failure.ts: the failure taxonomy and its wire form *)

Module FailureConv.
Import Converter.

Definition FAILURE_SOURCE : string := "TypeScriptSDK".

(** [TimeoutType] and [RetryState] are numeric enums. *)
Definition TIMEOUT_TYPE_UNSPECIFIED : Z := 0.
Definition RETRY_STATE_UNSPECIFIED : Z := 0.

Record WorkflowExecution : Type := mkWorkflowExecution {
  workflowId : option string;
  runId : option string;
}.

(** [temporal.api.common.v1.IPayloads]. *)
Record Payloads : Type := mkPayloads { payloads : option (list Payload) }.

Record NamedType : Type := mkNamedType { name : option string }.

Record ApplicationFailureInfo : Type := mkApplicationFailureInfo {
  afi_type : option string;
  afi_nonRetryable : option bool;
  afi_details : option Payloads;
}.

Record ServerFailureInfo : Type := mkServerFailureInfo {
  sfi_nonRetryable : option bool;
}.

Record TimeoutFailureInfo : Type := mkTimeoutFailureInfo {
  tfi_timeoutType : option Z;
  tfi_lastHeartbeatDetails : option Payloads;
}.

Record CanceledFailureInfo : Type := mkCanceledFailureInfo {
  cfi_details : option Payloads;
}.

Record ResetWorkflowFailureInfo : Type := mkResetWorkflowFailureInfo {
  rfi_lastHeartbeatDetails : option Payloads;
}.

Record ActivityFailureInfo : Type := mkActivityFailureInfo {
  act_activityType : option NamedType;
  act_activityId : option string;
  act_retryState : option Z;
  act_identity : option string;
}.

Record ChildWorkflowExecutionFailureInfo : Type := mkChildWorkflowExecutionFailureInfo {
  cw_namespace : option string;
  cw_workflowExecution : option WorkflowExecution;
  cw_workflowType : option NamedType;
  cw_retryState : option Z;
}.

(** [temporal.api.failure.v1.IFailure] as a JavaScript object: every info
    field is optional, and nothing in the object's shape keeps two of them
    from being set together. *)
Inductive Failure : Type := mkFailure {
  message : option string;
  stackTrace : option string;
  source : option string;
  cause : option Failure;
  applicationFailureInfo : option ApplicationFailureInfo;
  serverFailureInfo : option ServerFailureInfo;
  timeoutFailureInfo : option TimeoutFailureInfo;
  terminatedFailureInfo : option unit;
  canceledFailureInfo : option CanceledFailureInfo;
  resetWorkflowFailureInfo : option ResetWorkflowFailureInfo;
  activityFailureInfo : option ActivityFailureInfo;
  childWorkflowExecutionFailureInfo : option ChildWorkflowExecutionFailureInfo;
}.

(** The [base] object of [errorToFailure]: no info field. *)
Definition base_failure (msg stack src : option string) (c : option Failure) : Failure :=
  {| message := msg; stackTrace := stack; source := src; cause := c;
     applicationFailureInfo := None; serverFailureInfo := None;
     timeoutFailureInfo := None; terminatedFailureInfo := None;
     canceledFailureInfo := None; resetWorkflowFailureInfo := None;
     activityFailureInfo := None; childWorkflowExecutionFailureInfo := None |}.

Section Errors.
Context `{Platform}.
(** The objects kept in [TemporalFailure.failure]: the failure message
    that an error was built from. *)
Context {AttachedFailure : Type}.

(** The two properties that are assigned after construction. *)
Record ErrorProps : Type := mkErrorProps {
  stack : option string;
  failure : option AttachedFailure;
}.

(** Error objects, each as the arguments its class constructor stored.
    [PlainError] is an [Error] outside the taxonomy.  [ActivityFailure] and
    [ChildWorkflowFailure] take no message: their constructors fix it.
    [TimeoutFailure] takes no cause.  [details] is [None] for [null] and
    [undefined]. *)
Inductive JsError : Type :=
| PlainError (cls : ErrorClass) (msg : string) (stk : option string)
| TemporalFailure (msg : string) (cause : option JsError) (props : ErrorProps)
| ServerFailure (msg : string) (nonRetryable : bool) (cause : option JsError)
    (props : ErrorProps)
| ApplicationFailure (msg : string) (type : option string) (nonRetryable : bool)
    (details : option (list JsValue)) (cause : option JsError) (props : ErrorProps)
| CancelledFailure (msg : string) (details : option (list JsValue))
    (cause : option JsError) (props : ErrorProps)
| TerminatedFailure (msg : string) (cause : option JsError) (props : ErrorProps)
| TimeoutFailure (msg : string) (lastHeartbeatDetails : JsValue) (timeoutType : Z)
    (props : ErrorProps)
| ActivityFailure (activityType : string) (activityId : option string)
    (retryState : Z) (identity : option string) (cause : option JsError)
    (props : ErrorProps)
| ChildWorkflowFailure (namespace : option string) (execution : WorkflowExecution)
    (workflowType : string) (retryState : Z) (cause : option JsError)
    (props : ErrorProps).

(** [new X(...)]: a fresh object has the stack the engine captured and no
    attached failure. *)
Definition fresh (stk : option string) : ErrorProps :=
  {| stack := stk; failure := None |}.

(** [error.message]. *)
Definition error_message (e : JsError) : string :=
  match e with
  | PlainError _ m _ | TemporalFailure m _ _ | ServerFailure m _ _ _
  | ApplicationFailure m _ _ _ _ _ | CancelledFailure m _ _ _
  | TerminatedFailure m _ _ | TimeoutFailure m _ _ _ => m
  | ActivityFailure _ _ _ _ _ _ => "Activity execution failed"
  | ChildWorkflowFailure _ _ _ _ _ _ => "Child Workflow execution failed"
  end.

(** [error.cause], as [TemporalFailure] declares it. *)
Definition error_cause (e : JsError) : option JsError :=
  match e with
  | PlainError _ _ _ | TimeoutFailure _ _ _ _ => None
  | TemporalFailure _ c _ | ServerFailure _ _ c _ | ApplicationFailure _ _ _ _ c _
  | CancelledFailure _ _ c _ | TerminatedFailure _ c _
  | ActivityFailure _ _ _ _ c _ | ChildWorkflowFailure _ _ _ _ c _ => c
  end.

Definition error_stack (e : JsError) : option string :=
  match e with
  | PlainError _ _ s => s
  | TemporalFailure _ _ p | ServerFailure _ _ _ p | ApplicationFailure _ _ _ _ _ p
  | CancelledFailure _ _ _ p | TerminatedFailure _ _ p | TimeoutFailure _ _ _ p
  | ActivityFailure _ _ _ _ _ p | ChildWorkflowFailure _ _ _ _ _ p => stack p
  end.

Definition error_failure (e : JsError) : option AttachedFailure :=
  match e with
  | PlainError _ _ _ => None
  | TemporalFailure _ _ p | ServerFailure _ _ _ p | ApplicationFailure _ _ _ _ _ p
  | CancelledFailure _ _ _ p | TerminatedFailure _ _ p | TimeoutFailure _ _ _ p
  | ActivityFailure _ _ _ _ _ p | ChildWorkflowFailure _ _ _ _ _ p => failure p
  end.

(** [err.stack = ...; err.failure = ...]. *)
Definition set_props (e : JsError) (p : ErrorProps) : JsError :=
  match e with
  | PlainError c m _ => PlainError c m (stack p)
  | TemporalFailure m c _ => TemporalFailure m c p
  | ServerFailure m n c _ => ServerFailure m n c p
  | ApplicationFailure m t n d c _ => ApplicationFailure m t n d c p
  | CancelledFailure m d c _ => CancelledFailure m d c p
  | TerminatedFailure m c _ => TerminatedFailure m c p
  | TimeoutFailure m l t _ => TimeoutFailure m l t p
  | ActivityFailure a i r d c _ => ActivityFailure a i r d c p
  | ChildWorkflowFailure n e w r c _ => ChildWorkflowFailure n e w r c p
  end.

(** The info variants of the taxonomy. *)
Inductive Variant : Type :=
| VarNone        (* a plain error or the base class *)
| VarServer | VarApplication | VarCancelled | VarTerminated | VarTimeout
| VarActivity | VarChildWorkflow.

Definition variant (e : JsError) : Variant :=
  match e with
  | PlainError _ _ _ | TemporalFailure _ _ _ => VarNone
  | ServerFailure _ _ _ _ => VarServer
  | ApplicationFailure _ _ _ _ _ _ => VarApplication
  | CancelledFailure _ _ _ _ => VarCancelled
  | TerminatedFailure _ _ _ => VarTerminated
  | TimeoutFailure _ _ _ _ => VarTimeout
  | ActivityFailure _ _ _ _ _ _ => VarActivity
  | ChildWorkflowFailure _ _ _ _ _ _ => VarChildWorkflow
  end.

(** Whatever a [throw] or a rejection can carry. *)
Inductive Unknown : Type :=
| UValue (v : JsValue)
| UError (e : JsError).

Definition truthy_unknown (u : Unknown) : bool :=
  match u with
  | UValue v => truthy v
  | UError _ => true
  end.

(** [serializeFailure] of failure.ts and [serviceToCoreFailure] of the
    client's failure module, on the attached failure objects: the first
    re-encodes the attached failure of an error, the second builds the
    object to attach.  No property below depends on what they compute. *)
Class AttachedOps : Type := {
  serializeFailure : DataConverter -> AttachedFailure -> Result Exn Failure;
  serviceToCoreFailure : Failure -> AttachedFailure;
}.
Context `{AttachedOps}.

(** The [lineLoop] of [cutoffStackTrace]. *)
Fixpoint lineLoop (lines : list string) : list string :=
  match lines with
  | [] => []
  | line :: rest =>
      if existsb (fun pattern => pattern line) CUTTOFF_STACK_PATTERNS then []
      else line :: lineLoop rest
  end.

Definition cutoffStackTrace (stk : option string) : string :=
  join_lines (lineLoop (split_lines (default "" stk))).

(** [x?.length ? { payloads: await dataConverter.toPayloads(...x) } : undefined]. *)
Definition details_to_payloads (dc : DataConverter) (details : option (list JsValue))
  : Result Exn (option Payloads) :=
  match details with
  | Some ((_ :: _) as ds) =>
      let* ps := toPayloads dc ds in Ok (Some {| payloads := ps |})
  | _ => Ok None
  end.

(** [optionalErrorToOptionalFailure] on an optional cause, over the
    conversion [rec] of an error object. *)
Definition convert_cause (rec : JsError -> Result Exn Failure) (c : option JsError)
  : Result Exn (option Failure) :=
  match c with
  | Some ce => let* cf := rec ce in Ok (Some cf)
  | None => Ok None
  end.

(** [{ ...base, <info> }]. *)
Definition with_info (base : Failure)
    (app : option ApplicationFailureInfo) (srv : option ServerFailureInfo)
    (tmo : option TimeoutFailureInfo) (trm : option unit)
    (can : option CanceledFailureInfo) (act : option ActivityFailureInfo)
    (chw : option ChildWorkflowExecutionFailureInfo) : Failure :=
  mkFailure (message base) (stackTrace base) (source base) (cause base)
    app srv tmo trm can None act chw.

(** [errorToFailure] on an error object.  [start] is the common prefix of
    the [TemporalFailure] branch: the attached failure wins, otherwise the
    cause is converted and [base] is built. *)
Fixpoint errorToFailure_error (dc : DataConverter) (error : JsError)
  : Result Exn Failure :=
  let start (c : option JsError) (k : Failure -> Result Exn Failure) :=
    match error_failure error with
    | Some attached => serializeFailure dc attached
    | None =>
        let* cf := convert_cause (errorToFailure_error dc) c in
        k (base_failure (Some (error_message error))
             (Some (cutoffStackTrace (error_stack error))) (Some FAILURE_SOURCE) cf)
    end in
  match error with
  | PlainError _ m stk =>
      Ok (base_failure (Some m) (Some (cutoffStackTrace stk)) (Some FAILURE_SOURCE) None)
  | ActivityFailure activityType activityId retryState ident c _ =>
      start c (fun base =>
        Ok (with_info base None None None None None
              (Some {| act_activityType := Some {| name := Some activityType |};
                       act_activityId := activityId;
                       act_retryState := Some retryState;
                       act_identity := ident |})
              None))
  | ChildWorkflowFailure namespace execution workflowType retryState c _ =>
      start c (fun base =>
        Ok (with_info base None None None None None None
              (Some {| cw_namespace := namespace;
                       cw_workflowExecution := Some execution;
                       cw_workflowType := Some {| name := Some workflowType |};
                       cw_retryState := Some retryState |})))
  | ApplicationFailure _ type nonRetryable details c _ =>
      start c (fun base =>
        let* d := details_to_payloads dc details in
        Ok (with_info base
              (Some {| afi_type := type;
                       afi_nonRetryable := Some nonRetryable;
                       afi_details := d |})
              None None None None None None))
  | CancelledFailure _ details c _ =>
      start c (fun base =>
        let* d := details_to_payloads dc details in
        Ok (with_info base None None None None
              (Some {| cfi_details := d |}) None None))
  | TimeoutFailure _ lastHeartbeatDetails timeoutType _ =>
      start None (fun base =>
        let* d :=
          if truthy lastHeartbeatDetails then
            let* ps := toPayloads dc [lastHeartbeatDetails] in
            Ok (Some {| payloads := ps |})
          else Ok None in
        Ok (with_info base None None
              (Some {| tfi_timeoutType := Some timeoutType;
                       tfi_lastHeartbeatDetails := d |})
              None None None None))
  | TerminatedFailure _ c _ =>
      start c (fun base =>
        Ok (with_info base None None None (Some tt) None None None))
  | ServerFailure _ nonRetryable c _ =>
      start c (fun base =>
        Ok (with_info base None
              (Some {| sfi_nonRetryable := Some nonRetryable |})
              None None None None None))
  | TemporalFailure _ c _ => start c (fun base => Ok base)
  end.

(** [errorToFailure(err, dataConverter)] on anything caught.
    [workflowInclusiveInstanceOf] starts with [Object.getPrototypeOf(err)],
    which throws on [undefined] and [null]. *)
Definition errorToFailure (dc : DataConverter) (err : Unknown) : Result Exn Failure :=
  match err with
  | UError e => errorToFailure_error dc e
  | UValue VUndefined | UValue VNull =>
      Err (Throw TypeError "Cannot convert undefined or null to object")
  | UValue (VString s) => Ok (base_failure (Some s) None (Some FAILURE_SOURCE) None)
  | UValue v => Ok (base_failure (Some (String_of v)) None (Some FAILURE_SOURCE) None)
  end.

(** [optionalErrorToOptionalFailure]. *)
Definition optionalErrorToOptionalFailure (dc : DataConverter) (err : Unknown)
  : Result Exn (option Failure) :=
  if truthy_unknown err then let* f := errorToFailure dc err in Ok (Some f)
  else Ok None.

(** The class constructors: [super(message ?? undefined)] leaves the empty
    message when none is given. *)
Definition new_TemporalFailure (m : option string) (c : option JsError) : JsError :=
  TemporalFailure (default "" m) c (fresh None).
Definition new_ServerFailure (m : option string) (nonRetryable : bool)
    (c : option JsError) : JsError :=
  ServerFailure (default "" m) nonRetryable c (fresh None).
Definition new_ApplicationFailure (m type : option string) (nonRetryable : bool)
    (details : option (list JsValue)) (c : option JsError) : JsError :=
  ApplicationFailure (default "" m) type nonRetryable details c (fresh None).
Definition new_CancelledFailure (m : option string) (details : option (list JsValue))
    (c : option JsError) : JsError :=
  CancelledFailure (default "" m) details c (fresh None).
Definition new_TerminatedFailure (m : option string) (c : option JsError) : JsError :=
  TerminatedFailure (default "" m) c (fresh None).
Definition new_TimeoutFailure (m : option string) (lastHeartbeatDetails : JsValue)
    (timeoutType : Z) : JsError :=
  TimeoutFailure (default "" m) lastHeartbeatDetails timeoutType (fresh None).
Definition new_ActivityFailure (activityType : string) (activityId : option string)
    (retryState : Z) (identity : option string) (c : option JsError) : JsError :=
  ActivityFailure activityType activityId retryState identity c (fresh None).

(** [Boolean(x)] on an optional flag. *)
Definition Boolean_ (b : option bool) : bool := default false b.

Definition payloads_of (p : option Payloads) : option (list Payload) :=
  match p with
  | Some ps => payloads ps
  | None => None
  end.

(** The client's [failureToError] with its [failureToErrorInner] and
    [optionalFailureToOptionalError] inlined: the three are mutually
    recursive through [failure.cause].  The fall-through case calls
    [new TemporalFailure(message, undefined, cause)] on the two-parameter
    constructor, which binds its [cause] to the second argument. *)
Fixpoint failureToError (dc : DataConverter) (f : Failure) {struct f}
  : Result Exn JsError :=
  let optionalCause (_ : unit) : Result Exn (option JsError) :=
    match cause f with
    | Some cf => let* ce := failureToError dc cf in Ok (Some ce)
    | None => Ok None
    end in
  let* err :=
    match applicationFailureInfo f with
    | Some info =>
        let* details := arrayFromPayloads dc (payloads_of (afi_details info)) in
        let* c := optionalCause tt in
        Ok (new_ApplicationFailure (message f) (afi_type info)
              (Boolean_ (afi_nonRetryable info)) (Some details) c)
    | None =>
    match serverFailureInfo f with
    | Some info =>
        let* c := optionalCause tt in
        Ok (new_ServerFailure (message f) (Boolean_ (sfi_nonRetryable info)) c)
    | None =>
    match timeoutFailureInfo f with
    | Some info =>
        let* hb := fromPayloads dc 0 (payloads_of (tfi_lastHeartbeatDetails info)) in
        Ok (new_TimeoutFailure (message f) hb
              (default TIMEOUT_TYPE_UNSPECIFIED (tfi_timeoutType info)))
    | None =>
    match terminatedFailureInfo f with
    | Some _ =>
        let* c := optionalCause tt in
        Ok (new_TerminatedFailure (message f) c)
    | None =>
    match canceledFailureInfo f with
    | Some info =>
        let* details := arrayFromPayloads dc (payloads_of (cfi_details info)) in
        let* c := optionalCause tt in
        Ok (new_CancelledFailure (message f) (Some details) c)
    | None =>
    match resetWorkflowFailureInfo f with
    | Some info =>
        let* details :=
          arrayFromPayloads dc (payloads_of (rfi_lastHeartbeatDetails info)) in
        let* c := optionalCause tt in
        Ok (new_ApplicationFailure (message f) (Some "ResetWorkflow") false
              (Some details) c)
    | None =>
    match activityFailureInfo f with
    | Some info =>
        match act_activityType info with
        | Some {| name := Some activityTypeName |} =>
            if String.eqb activityTypeName "" then
              Err (Throw TypeError "Missing activityType on activityFailureInfo")
            else
              let* c := optionalCause tt in
              Ok (new_ActivityFailure activityTypeName (act_activityId info)
                    (default RETRY_STATE_UNSPECIFIED (act_retryState info))
                    (act_identity info) c)
        | _ => Err (Throw TypeError "Missing activityType on activityFailureInfo")
        end
    | None =>
        let* c := optionalCause tt in
        Ok (new_TemporalFailure (message f) None)
    end end end end end end end in
  Ok (set_props err {| stack := Some (default "" (stackTrace f));
                       failure := Some (serviceToCoreFailure f) |}).

(** The length of a cause chain, following [cause] as [rootCause] does. *)
Fixpoint chain_depth (e : JsError) : nat :=
  match e with
  | PlainError _ _ _ | TimeoutFailure _ _ _ _ => 1
  | TemporalFailure _ c _ | ServerFailure _ _ c _ | ApplicationFailure _ _ _ _ c _
  | CancelledFailure _ _ c _ | TerminatedFailure _ c _
  | ActivityFailure _ _ _ _ c _ | ChildWorkflowFailure _ _ _ _ c _ =>
      match c with
      | Some ce => S (chain_depth ce)
      | None => 1
      end
  end.

End Errors.

End FailureConv.

(** ** serializer.ts: [WorkflowIOSerializer.serializeCompletion] *)

Module Serializer.
Import Converter FailureConv.

(** The commands of a completion.  [A] is what a payload-bearing field
    holds and [F] what a failure-bearing field holds: values and caught
    errors when the workflow hands the completion over, payloads and
    failure messages once it is serialized. *)
Section Commands.
Context {A F : Type}.

Record ScheduleActivity : Type := mkScheduleActivity {
  sa_activityId : string;
  sa_headerFields : option (list (string * A));
  sa_arguments : option (list A);
}.

(** [response] is [None] when the object has no such key. *)
Record QuerySuccess : Type := mkQuerySuccess { response : option A }.

Record RespondToQuery : Type := mkRespondToQuery {
  rq_queryId : string;
  rq_succeeded : option QuerySuccess;
  rq_failed : F;
}.

Record CompleteWorkflowExecution : Type := mkCompleteWorkflowExecution {
  result : option A;
}.

Record FailWorkflowExecution : Type := mkFailWorkflowExecution { fw_failure : F }.

Record ContinueAsNewWorkflowExecution : Type := mkContinueAsNew {
  can_arguments : option (list A);
  can_memo : option (list (string * A));
  can_header : option (list (string * A));
  can_searchAttributes : option (list (string * A));
}.

Record StartChildWorkflowExecution : Type := mkStartChild {
  sc_input : option (list A);
  sc_memo : option (list (string * A));
  sc_header : option (list (string * A));
  sc_searchAttributes : option (list (string * A));
}.

Record SignalExternalWorkflowExecution : Type := mkSignalExternal {
  se_args : option (list A);
}.

(** The commands that carry neither payloads nor failures. *)
Inductive PlainCommand : Type :=
| StartTimer (timerId : string) (startToFireTimeout : Z)
| CancelTimer (timerId : string)
| RequestCancelActivity (activityId : string).

Record Command : Type := mkCommand {
  scheduleActivity : option ScheduleActivity;
  respondToQuery : option RespondToQuery;
  completeWorkflowExecution : option CompleteWorkflowExecution;
  failWorkflowExecution : option FailWorkflowExecution;
  continueAsNewWorkflowExecution : option ContinueAsNewWorkflowExecution;
  startChildWorkflowExecution : option StartChildWorkflowExecution;
  signalExternalWorkflowExecution : option SignalExternalWorkflowExecution;
  plainCommand : option PlainCommand;
}.

(** [commands] is [None] when absent; an entry is [None] when it is
    [null] or [undefined]. *)
Record Success : Type := mkSuccess { commands : option (list (option Command)) }.

Record Completion : Type := mkCompletion {
  runId : string;
  successful : option Success;
  failed : F;
}.

End Commands.
Arguments ScheduleActivity : clear implicits.
Arguments QuerySuccess : clear implicits.
Arguments RespondToQuery : clear implicits.
Arguments CompleteWorkflowExecution : clear implicits.
Arguments FailWorkflowExecution : clear implicits.
Arguments ContinueAsNewWorkflowExecution : clear implicits.
Arguments StartChildWorkflowExecution : clear implicits.
Arguments SignalExternalWorkflowExecution : clear implicits.
Arguments Command : clear implicits.
Arguments Success : clear implicits.
Arguments Completion : clear implicits.

Section Serialize.
Context `{Platform} `{AttachedOps}.
Abbreviation JsError := (JsError (AttachedFailure := AttachedFailure)).
Abbreviation Unknown := (Unknown (AttachedFailure := AttachedFailure)).
Variable dataConverter : DataConverter.

(** What a failure-bearing field holds after [serializeFailure]: the
    failure message, or the falsy value that was left in place. *)
Definition FailureSlot : Type := (Unknown + Failure)%type.

(** [serializeField]: the field is converted whenever its key is present,
    whatever its value. *)
Definition serializeField (field : option JsValue) : Result Exn (option Payload) :=
  match field with
  | None => Ok None
  | Some v => let* p := toPayload dataConverter v in Ok (Some p)
  end.

(** [serializeArray]: an absent array is skipped. *)
Definition serializeArray (field : option (list JsValue))
  : Result Exn (option (list Payload)) :=
  match field with
  | None => Ok None
  | Some elems => let* ps := mapM (toPayload dataConverter) elems in Ok (Some ps)
  end.

(** [serializeMap]. *)
Definition serializeMap (field : option (list (string * JsValue)))
  : Result Exn (option (list (string * Payload))) :=
  match field with
  | None => Ok None
  | Some m => let* ps := mapToPayloads dataConverter m in Ok (Some ps)
  end.

(** [serializeFailure]: a falsy field is skipped. *)
Definition serializeFailureField (field : Unknown) : Result Exn FailureSlot :=
  if truthy_unknown field then
    let* f := errorToFailure dataConverter field in Ok (inr f)
  else Ok (inl field).

(** [if (!obj) return]: the task of a field of a sub-object that may be
    absent. *)
Definition on_present {O B C} (obj : option O) (get : O -> B)
    (task : B -> Result Exn C) : Result Exn (option C) :=
  match obj with
  | None => Ok None
  | Some o => let* c := task (get o) in Ok (Some c)
  end.

Definition outcome {B} (r : Result Exn B) : Result Exn unit :=
  match r with
  | Ok _ => Ok tt
  | Err e => Err e
  end.

Definition task {O B C} (obj : option O) (get : O -> B)
    (run : B -> Result Exn C) : Result Exn unit :=
  outcome (on_present obj get run).

(** The fifteen promises that [serializeCompletion] creates for one
    command, in the order of the array literal, each as its outcome. *)
Definition command_tasks (command : Command JsValue Unknown) : list (Result Exn unit) :=
  [ task (scheduleActivity command) sa_headerFields serializeMap;
    task (scheduleActivity command) sa_arguments serializeArray;
    task (mbind rq_succeeded (respondToQuery command)) response serializeField;
    task (respondToQuery command) rq_failed serializeFailureField;
    task (completeWorkflowExecution command) result serializeField;
    task (failWorkflowExecution command) fw_failure serializeFailureField;
    task (continueAsNewWorkflowExecution command) can_arguments serializeArray;
    task (continueAsNewWorkflowExecution command) can_memo serializeMap;
    task (continueAsNewWorkflowExecution command) can_header serializeMap;
    task (continueAsNewWorkflowExecution command) can_searchAttributes serializeMap;
    task (startChildWorkflowExecution command) sc_input serializeArray;
    task (startChildWorkflowExecution command) sc_memo serializeMap;
    task (startChildWorkflowExecution command) sc_header serializeMap;
    task (startChildWorkflowExecution command) sc_searchAttributes serializeMap;
    task (signalExternalWorkflowExecution command) se_args serializeArray ].

(** [completion.successful?.commands?.flatMap(...) ?? []]. *)
Definition commands_of (completion : Completion JsValue Unknown)
  : list (option (Command JsValue Unknown)) :=
  match successful completion with
  | Some s => default [] (commands s)
  | None => []
  end.

(** The whole array handed to [Promise.all]. *)
Definition completion_tasks (completion : Completion JsValue Unknown)
  : list (Result Exn unit) :=
  flat_map (fun command =>
              match command with
              | Some c => command_tasks c
              | None => []
              end) (commands_of completion)
  ++ [ outcome (serializeFailureField (failed completion)) ].

(** The fields of one command after every one of its tasks has run. *)
Definition serializeCommand (command : Command JsValue Unknown)
  : Result Exn (Command Payload FailureSlot) :=
  let* sa :=
    on_present (scheduleActivity command) id (fun sa =>
      let* h := serializeMap (sa_headerFields sa) in
      let* a := serializeArray (sa_arguments sa) in
      Ok (mkScheduleActivity (sa_activityId sa) h a)) in
  let* rq :=
    on_present (respondToQuery command) id (fun rq =>
      let* s := on_present (rq_succeeded rq) response
                  (fun r => let* p := serializeField r in Ok (mkQuerySuccess p)) in
      let* f := serializeFailureField (rq_failed rq) in
      Ok (mkRespondToQuery (rq_queryId rq) s f)) in
  let* cw :=
    on_present (completeWorkflowExecution command) result
      (fun r => let* p := serializeField r in Ok (mkCompleteWorkflowExecution p)) in
  let* fw :=
    on_present (failWorkflowExecution command) fw_failure
      (fun u => let* f := serializeFailureField u in Ok (mkFailWorkflowExecution f)) in
  let* can :=
    on_present (continueAsNewWorkflowExecution command) id (fun c =>
      let* a := serializeArray (can_arguments c) in
      let* m := serializeMap (can_memo c) in
      let* h := serializeMap (can_header c) in
      let* s := serializeMap (can_searchAttributes c) in
      Ok (mkContinueAsNew a m h s)) in
  let* sc :=
    on_present (startChildWorkflowExecution command) id (fun c =>
      let* i := serializeArray (sc_input c) in
      let* m := serializeMap (sc_memo c) in
      let* h := serializeMap (sc_header c) in
      let* s := serializeMap (sc_searchAttributes c) in
      Ok (mkStartChild i m h s)) in
  let* se :=
    on_present (signalExternalWorkflowExecution command) se_args
      (fun a => let* ps := serializeArray a in Ok (mkSignalExternal ps)) in
  Ok (mkCommand sa rq cw fw can sc se (plainCommand command)).

(** [Promise.all]: fulfilment when every promise fulfils, otherwise the
    rejection that settles first.  The model takes the promises in the order
    of the array; the properties of [serializeCompletion] below hold for
    whichever of several rejections is reported. *)
Fixpoint Promise_all (promises : list (Result Exn unit)) : Result Exn unit :=
  match promises with
  | [] => Ok tt
  | Ok _ :: rest => Promise_all rest
  | Err e :: _ => Err e
  end.

(** The completion whose fields the tasks have replaced. *)
Definition serialized (completion : Completion JsValue Unknown)
  : Result Exn (Completion Payload FailureSlot) :=
  let* s :=
    on_present (successful completion) commands (fun cs =>
      let* cs' :=
        on_present cs id
          (mapM (fun command => on_present command id serializeCommand)) in
      Ok (mkSuccess cs')) in
  let* f := serializeFailureField (failed completion) in
  Ok (mkCompletion (runId completion) s f).

(** [serializeCompletion]: [await Promise.all([...]); return completion]. *)
Definition serializeCompletion (completion : Completion JsValue Unknown)
  : Result Exn (Completion Payload FailureSlot) :=
  let* _ := Promise_all (completion_tasks completion) in
  serialized completion.

End Serialize.

End Serializer.

(** ** vm.ts: [VMWorkflow] *)

Module Scheduler.
Import Converter FailureConv Serializer.

Definition non_null {T} (o : option T) : bool :=
  match o with Some _ => true | None => false end.

(** Modelled from the spec: [partition] of the worker's [utils] module,
    which is not among the sources; "partition the batch into ... ordered
    sub-batches": the elements that satisfy the predicate and those that do
    not, each in their order of arrival. *)
Definition partition {T} (arr : list T) (predicate : T -> bool) : list T * list T :=
  (List.filter predicate arr, List.filter (fun x => negb (predicate x)) arr).

Record SignalWorkflow : Type := mkSignalWorkflow {
  signalName : string;
  input : option (list Payload);
}.

Record QueryWorkflow : Type := mkQueryWorkflow {
  queryId : string;
  queryType : string;
  qw_arguments : option (list Payload);
}.

(** The jobs that are neither patch notifications, signals nor queries. *)
Inductive OtherJob : Type :=
| StartWorkflow (workflowType : string) (arguments : option (list Payload))
| FireTimer (timerId : string)
| CancelWorkflow (details : option (list Payload))
| UpdateRandomSeed (seed : Z).

(** [coresdk.workflow_activation.IWFActivationJob] as an object: the
    variant fields are independent optional properties. *)
Record WFActivationJob : Type := mkJob {
  notifyHasPatch : option string;
  signalWorkflow : option SignalWorkflow;
  queryWorkflow : option QueryWorkflow;
  otherJob : option OtherJob;
}.

Record WFActivation : Type := mkActivation {
  wa_runId : string;
  wa_isReplaying : option bool;
  jobs : option (list WFActivationJob);
}.

Section VM.
Context `{Platform} `{AttachedOps}.
Abbreviation JsError := (JsError (AttachedFailure := AttachedFailure)).
Abbreviation Unknown := (Unknown (AttachedFailure := AttachedFailure)).
Abbreviation FailureSlot := (FailureSlot (AttachedFailure := AttachedFailure)).

(** What [activate] hands back before [encodeDelimited]. *)
Inductive ActivationCompletion : Type :=
| FailedCompletion (run : string) (f : Failure)
| SerializedCompletion (c : Completion Payload FailureSlot).

(** The sandbox: the state of the isolated context and the three entry
    points of the workflow module that [activate] calls.  [Decoded] is an
    activation message after [deserializeActivation]. *)
Context {Sandbox Decoded : Type}.
Variable wm_activate : Sandbox -> Decoded -> nat -> Sandbox * Result Exn nat.
Variable wm_tryUnblockConditions : Sandbox -> Sandbox * Result Exn nat.
Variable wm_concludeActivation :
  Sandbox -> Sandbox * Result Exn (Completion JsValue Unknown).
(** [serializer.deserializeActivation(WFActivation.fromObject({ ...activation, jobs }))]. *)
Variable deserializeActivation : WFActivation -> list WFActivationJob -> Result Exn Decoded.
Variable dataConverter : DataConverter.

Record VMWorkflow : Type := mkVMWorkflow {
  context : option unit;
  isReplaying : bool;
  unhandledRejection : Unknown;
  sandbox : Sandbox;
}.

Definition setUnhandledRejection (w : VMWorkflow) (err : Unknown) : VMWorkflow :=
  {| context := context w; isReplaying := isReplaying w;
     unhandledRejection := err; sandbox := sandbox w |}.

Definition set_sandbox (w : VMWorkflow) (s : Sandbox) : VMWorkflow :=
  {| context := context w; isReplaying := isReplaying w;
     unhandledRejection := unhandledRejection w; sandbox := s |}.

(** [tryUnblockConditions]: the [for (;;)] loop, with [fuel] bounding its
    iterations; [None] when the fuel runs out. *)
Fixpoint tryUnblockConditions (fuel : nat) (s : Sandbox)
  : option (Sandbox * Result Exn unit) :=
  match fuel with
  | O => None
  | S fuel' =>
      match wm_tryUnblockConditions s with
      | (s', Err e) => Some (s', Err e)
      | (s', Ok numUnblocked) =>
          if (numUnblocked =? 0)%nat then Some (s', Ok tt)
          else tryUnblockConditions fuel' s'
      end
  end.

(** The calls of [workflowModule.activate] made so far: the jobs of each
    batch and its [batchIndex]. *)
Definition Applied : Type := list (list WFActivationJob * nat).

(** The [for (const jobs of [...])] loop of [activate]. *)
Fixpoint batch_loop (fuel : nat) (activation : WFActivation)
    (batches : list (list WFActivationJob)) (batchIndex : nat)
    (s : Sandbox) (applied : Applied)
  : option (Sandbox * Applied * Result Exn unit) :=
  match batches with
  | [] => Some (s, applied, Ok tt)
  | jobs :: rest =>
      if (length jobs =? 0)%nat then
        batch_loop fuel activation rest batchIndex s applied
      else
        match deserializeActivation activation jobs with
        | Err e => Some (s, applied, Err e)
        | Ok activationMessage =>
            let applied' := (applied ++ [(jobs, batchIndex)])%list in
            match wm_activate s activationMessage batchIndex with
            | (s1, Err e) => Some (s1, applied', Err e)
            | (s1, Ok numBlockedConditions) =>
                let unblocked :=
                  if (0 <? numBlockedConditions)%nat then tryUnblockConditions fuel s1
                  else Some (s1, Ok tt) in
                match unblocked with
                | None => None
                | Some (s2, Err e) => Some (s2, applied', Err e)
                | Some (s2, Ok _) =>
                    batch_loop fuel activation rest (S batchIndex) s2 applied'
                end
            end
        end
  end.

(** The four sub-batches, in processing order. *)
Definition batches_of (js : list WFActivationJob) : list (list WFActivationJob) :=
  let '(patches, nonPatches) := partition js (fun j => non_null (notifyHasPatch j)) in
  let '(signals, nonSignals) := partition nonPatches (fun j => non_null (signalWorkflow j)) in
  let '(queries, rest) := partition nonSignals (fun j => non_null (queryWorkflow j)) in
  [patches; signals; rest; queries].

Record Activated : Type := mkActivated {
  workflow : VMWorkflow;
  applied_batches : Applied;
  returned : Result Exn ActivationCompletion;
}.

(** [activate].  [handlerCalls] are the errors with which the external
    unhandled-rejection handler calls [setUnhandledRejection] while
    [activate] waits on its final [setTimeout]. *)
Definition activate (fuel : nat) (w : VMWorkflow) (activation : WFActivation)
    (handlerCalls : list Unknown) : option Activated :=
  match context w with
  | None =>
      Some (mkActivated w []
              (Err (Throw IllegalStateError "Workflow isolate context uninitialized")))
  | Some _ =>
      let w0 := {| context := context w;
                   isReplaying := default false (wa_isReplaying activation);
                   unhandledRejection := unhandledRejection w;
                   sandbox := sandbox w |} in
      match jobs activation with
      | None =>
          Some (mkActivated w0 []
                  (Err (Throw Error_ "Expected workflow activation jobs to be defined")))
      | Some js =>
          match batch_loop fuel activation (batches_of js) 0 (sandbox w0) [] with
          | None => None
          | Some (s1, applied, Err e) => Some (mkActivated (set_sandbox w0 s1) applied (Err e))
          | Some (s1, applied, Ok _) =>
              match wm_concludeActivation s1 with
              | (s2, Err e) => Some (mkActivated (set_sandbox w0 s2) applied (Err e))
              | (s2, Ok completion) =>
                  let w1 := fold_left setUnhandledRejection handlerCalls
                              (set_sandbox w0 s2) in
                  Some (mkActivated w1 applied
                    (if truthy_unknown (unhandledRejection w1) then
                       let* f := errorToFailure dataConverter (unhandledRejection w1) in
                       Ok (FailedCompletion (wa_runId activation) f)
                     else
                       let* serializedCompletion :=
                         serializeCompletion dataConverter completion in
                       Ok (SerializedCompletion serializedCompletion)))
              end
          end
      end
  end.

End VM.

End Scheduler.

(** ** workflow.ts: [cancel] *)

Module Cancel.
Import FailureConv.

Section Cancel.
Context {AttachedFailure : Type}.
(** Promises, cancellation scopes and the rest of the workflow's state. *)
Context {Promise Scope Rest : Type}.

Record PromiseData : Type := mkPromiseData {
  scope : Scope;
  cancellable : bool;
}.

Record Runtime : Type := mkRuntime {
  getPromiseData : Promise -> option PromiseData;
}.

Record State : Type := mkState {
  runtime : option Runtime;
  rest : Rest;
}.

(** [scope.requestCancel(err)]: what it does to the state, and what it
    throws if it throws. *)
Abbreviation JsError := (JsError (AttachedFailure := AttachedFailure)).
Abbreviation Unknown := (Unknown (AttachedFailure := AttachedFailure)).
Variable requestCancel : Scope -> JsError -> Rest -> Rest * option Unknown.

(** [e instanceof CancellationError]. *)
Definition is_CancellationError (e : Unknown) : bool :=
  match e with
  | UError (PlainError CancellationError _ _) => true
  | _ => false
  end.

Definition new_Error (msg : string) : Unknown := UError (PlainError Error_ msg None).

Definition cancel (st : State) (promise : Promise) (reason : string)
  : State * Result Unknown unit :=
  match runtime st with
  | None => (st, Err (new_Error "Uninitialized workflow"))
  | Some rt =>
      match getPromiseData rt promise with
      | None => (st, Err (new_Error "Expected to find promise scope, got undefined"))
      | Some data =>
          if negb (cancellable data) then
            (st, Err (new_Error "Promise is not cancellable"))
          else
            match requestCancel (scope data)
                    (PlainError CancellationError reason None) (rest st) with
            | (r, None) => (mkState (runtime st) r, Ok tt)
            | (r, Some e) =>
                if negb (is_CancellationError e) then (mkState (runtime st) r, Err e)
                else (mkState (runtime st) r, Ok tt)
            end
      end
  end.

End Cancel.

End Cancel.

(** ** A reference platform

    An instance of the platform primitives on which the model can be
    evaluated.  JSON covers [null], booleans, integers and strings without
    escapes; nothing is claimed about the primitives outside that fragment. *)

Module Reference.
Import Converter FailureConv.

Definition quote : ascii := ascii_of_nat 34.

Definition quoted (s : string) : string := String quote (s +:+ String quote EmptyString).

Definition needs_escape (c : ascii) : bool :=
  Ascii.eqb c quote || Ascii.eqb c "\"%char || (nat_of_ascii c <? 32)%nat.

Fixpoint plain_text (s : string) : bool :=
  match s with
  | EmptyString => true
  | String c rest => negb (needs_escape c) && plain_text rest
  end.

Definition decimal (n : Z) : string := NilZero.string_of_int (Z.to_int n).

(** The members of a typed array as JSON text: each index with its
    element. *)
Fixpoint indexed_members (i : nat) (b : bytes) : string :=
  match b with
  | [] => ""
  | x :: rest =>
      quoted (decimal (Z.of_nat i)) +:+ ":" +:+ decimal (Z.of_N (Byte.to_N x)) +:+
      match rest with
      | [] => ""
      | _ => "," +:+ indexed_members (S i) rest
      end
  end.

Definition ref_JSON_stringify (v : JsValue) : Result Exn string :=
  match v with
  | VNull => Ok "null"
  | VUint8Array b => Ok ("{" +:+ indexed_members 0 b +:+ "}")
  | VBool true => Ok "true"
  | VBool false => Ok "false"
  | VNumber n => Ok (decimal n)
  | VString s =>
      if plain_text s then Ok (quoted s)
      else Err (Throw Error_ "outside the modelled fragment")
  | VBigInt _ => Err (Throw TypeError "Do not know how to serialize a BigInt")
  | _ => Err (Throw Error_ "outside the modelled fragment")
  end.

(** The text between a leading and a trailing quote. *)
Definition unquote (s : string) : option string :=
  match s with
  | String c rest =>
      let n := String.length rest in
      if Ascii.eqb c quote && (0 <? n)%nat
         && String.eqb (substring (n - 1) 1 rest) (String quote EmptyString)
      then Some (substring 0 (n - 1) rest)
      else None
  | EmptyString => None
  end.

Fixpoint split_on (sep : ascii) (cur : string) (s : string) : list string :=
  match s with
  | EmptyString => [cur]
  | String c rest =>
      if Ascii.eqb c sep then cur :: split_on sep EmptyString rest
      else split_on sep (cur +:+ String c EmptyString) rest
  end.

(** The text between an opening and a closing brace. *)
Definition unbrace (s : string) : option string :=
  match s with
  | String c rest =>
      let n := String.length rest in
      if Ascii.eqb c "{"%char && (0 <? n)%nat
         && String.eqb (substring (n - 1) 1 rest) "}"
      then Some (substring 0 (n - 1) rest)
      else None
  | EmptyString => None
  end.

(** An object member whose value is a number. *)
Definition parse_member (s : string) : option (string * JsValue) :=
  match split_on ":"%char EmptyString s with
  | [k; v] =>
      match unquote k, NilZero.int_of_string v with
      | Some key, Some i =>
          if plain_text key then Some (key, VNumber (Z.of_int i)) else None
      | _, _ => None
      end
  | _ => None
  end.

Fixpoint parse_members (l : list string) : option (list (string * JsValue)) :=
  match l with
  | [] => Some []
  | m :: rest =>
      match parse_member m, parse_members rest with
      | Some f, Some fs => Some (f :: fs)
      | _, _ => None
      end
  end.

Definition ref_JSON_parse (s : string) : Result Exn JsValue :=
  if String.eqb s "null" then Ok VNull
  else if String.eqb s "true" then Ok (VBool true)
  else if String.eqb s "false" then Ok (VBool false)
  else if String.eqb s "{}" then Ok (VObject [])
  else match unbrace s with
       | Some body =>
           match parse_members (split_on ","%char EmptyString body) with
           | Some fields => Ok (VObject fields)
           | None => Err (Throw SyntaxError "Unexpected token in JSON")
           end
       | None =>
       match unquote s with
       | Some t =>
           if plain_text t then Ok (VString t)
           else Err (Throw SyntaxError "Unexpected token in JSON")
       | None =>
           match NilZero.int_of_string s with
           | Some i => Ok (VNumber (Z.of_int i))
           | None => Err (Throw SyntaxError "Unexpected token in JSON")
           end
       end
       end.

Definition ref_String_of (v : JsValue) : string :=
  match v with
  | VUndefined => "undefined"
  | VNull => "null"
  | VBool true => "true"
  | VBool false => "false"
  | VNumber n | VBigInt n => decimal n
  | VString s => s
  | _ => "[object Object]"
  end.

(** Splitting at line feeds, dropping a carriage return before one. *)
Fixpoint ref_split (cur : string) (s : string) : list string :=
  match s with
  | EmptyString => [cur]
  | String c rest =>
      if Ascii.eqb c "010"%char then cur :: ref_split EmptyString rest
      else if Ascii.eqb c "013"%char
                && match rest with
                   | String d _ => Ascii.eqb d "010"%char
                   | EmptyString => false
                   end
      then ref_split cur rest
      else ref_split (cur +:+ String c EmptyString) rest
  end.

Fixpoint ref_join (lines : list string) : string :=
  match lines with
  | [] => EmptyString
  | [l] => l
  | l :: rest => l +:+ String "010"%char (ref_join rest)
  end.

(** [fromProto3JSON] handed the root in the place of a type: JSON [null]
    comes back as [null] before the serializer looks at the type, and for
    anything else it reads members that the root does not have. *)
Definition root_fromJSON (json : JsValue) : Result Exn JsValue :=
  match json with
  | VNull => Ok VNull
  | _ => Err (Throw TypeError "Cannot read properties of undefined")
  end.

(** A registry after protobufjs, for a root that holds message types
    directly, none of them with nested types.  [Namespace.lookup] hands
    the namespace itself back for an empty path, starts again at the root
    at an empty segment (a leading dot makes the path absolute), takes a
    last segment that names a type, and goes into a type for the segments
    that follow it, where only an empty segment leads anywhere. *)
Fixpoint lookup (types : gmap string ProtoType) (path : list string)
  : option Reflected :=
  match path with
  | [] => Some (NotAType root_fromJSON)
  | segment :: rest =>
      if String.eqb segment "" then lookup types rest
      else
        match types !! segment with
        | Some t =>
            match rest with
            | [] => Some (ReflectedType t)
            | next :: rest' =>
                if String.eqb next "" then lookup types rest' else None
            end
        | None => None
        end
  end.

(** [Namespace.lookupType]: [lookup] filtered by [Type], and
    [Error('no such type: ' + path)] when it finds nothing. *)
Definition protobufjs_Root (types : gmap string ProtoType) : Root :=
  {| lookupType path :=
       let found :=
         if String.eqb path "" then Some (NotAType root_fromJSON)
         else if String.eqb path "." then Some (NotAType root_fromJSON)
         else lookup types (split_on "."%char EmptyString path) in
       match found with
       | Some t => Ok t
       | None => Err (Throw Error_ ("no such type: " +:+ path))
       end |}.

#[local] Instance platform : Platform := {|
  u8 := list_byte_of_string;
  str := string_of_list_byte;
  JSON_stringify := ref_JSON_stringify;
  JSON_parse := ref_JSON_parse;
  String_of := ref_String_of;
  METADATA_ENCODING_KEY := "encoding";
  METADATA_MESSAGE_TYPE_KEY := "messageType";
  METADATA_ENCODING_NULL := "binary/null";
  METADATA_ENCODING_RAW := "binary/plain";
  METADATA_ENCODING_JSON := "json/plain";
  METADATA_ENCODING_PROTOBUF_JSON := "json/protobuf";
  METADATA_ENCODING_PROTOBUF := "binary/protobuf";
  KEY_ENCODING_NULL := list_byte_of_string "binary/null";
  KEY_ENCODING_RAW := list_byte_of_string "binary/plain";
  KEY_ENCODING_JSON := list_byte_of_string "json/plain";
  proto_encode _ _ := [];
  toProto3JSON _ _ := VNull;
  split_lines := ref_split EmptyString;
  join_lines := ref_join;
  CUTTOFF_STACK_PATTERNS :=
    [ includes "at Activity.execute ("; includes "at Activator." ];
|}.

(** The attached failures of the reference platform carry nothing. *)
#[local] Instance attached : AttachedOps (AttachedFailure := unit) := {|
  serializeFailure _ _ := Ok (base_failure None None None None);
  serviceToCoreFailure _ := tt;
|}.

End Reference.


(* ===================================================================== *)
(** * Part I, continued -- the rest of the cited modules                  *)
(* ===================================================================== *)

(** ** failure.ts: the rest of the common failure module *)

Module FailureCommon.
Import Converter FailureConv.

(** A property that holds a value, [null], or nothing at all. *)
Inductive Nullable (A : Type) : Type :=
| IsUndefined
| IsNull
| IsValue (a : A).
Arguments IsUndefined {A}.
Arguments IsNull {A}.
Arguments IsValue {A} a.

(** A detail list and a heartbeat value after [deserializeFailure]: the
    [payloads] property holds the decoded values.  The detail list tells
    [null] from [undefined], which the constructor of [CancelledFailure]
    tells apart. *)
Record DecodedList : Type := mkDecodedList { decoded_list : Nullable (list JsValue) }.
Record DecodedValue : Type := mkDecodedValue { decoded_value : option JsValue }.

Record DApplicationFailureInfo : Type := mkDApplicationFailureInfo {
  dafi_type : option string;
  dafi_nonRetryable : option bool;
  dafi_details : option DecodedList;
}.

Record DTimeoutFailureInfo : Type := mkDTimeoutFailureInfo {
  dtfi_timeoutType : option Z;
  dtfi_lastHeartbeatDetails : option DecodedValue;
}.

Record DCanceledFailureInfo : Type := mkDCanceledFailureInfo {
  dcfi_details : option DecodedList;
}.

Record DResetWorkflowFailureInfo : Type := mkDResetWorkflowFailureInfo {
  drfi_lastHeartbeatDetails : option DecodedList;
}.

(** [DeserializedFailure]: a failure message in decoded form. *)
Inductive DeserializedFailure : Type := mkDeserializedFailure {
  d_message : option string;
  d_stackTrace : option string;
  d_source : option string;
  d_cause : option DeserializedFailure;
  d_applicationFailureInfo : option DApplicationFailureInfo;
  d_serverFailureInfo : option ServerFailureInfo;
  d_timeoutFailureInfo : option DTimeoutFailureInfo;
  d_terminatedFailureInfo : option unit;
  d_canceledFailureInfo : option DCanceledFailureInfo;
  d_resetWorkflowFailureInfo : option DResetWorkflowFailureInfo;
  d_activityFailureInfo : option ActivityFailureInfo;
  d_childWorkflowExecutionFailureInfo : option ChildWorkflowExecutionFailureInfo;
}.

(** In this module the failure attached to an error is the decoded
    failure that [failureToError] built it from. *)
Abbreviation JsError := (JsError (AttachedFailure := DeserializedFailure)).
Abbreviation Unknown := (Unknown (AttachedFailure := DeserializedFailure)).

Section Common.
Context `{Platform}.

(** [error.name] of a plain error, by its class. *)
Variable error_name : ErrorClass -> string.

(** [ensureTemporalFailure].  [workflowInclusiveInstanceOf] throws on
    [undefined] and [null], as in [errorToFailure]. *)
Definition ensureTemporalFailure (err : Unknown) : Result Exn JsError :=
  match err with
  | UValue VUndefined | UValue VNull =>
      Err (Throw TypeError "Cannot convert undefined or null to object")
  | UError (PlainError cls m stk) =>
      Ok (ApplicationFailure m (Some (error_name cls)) false None None
            {| stack := stk; failure := None |})
  | UError e => Ok e
  | UValue v =>
      Ok (ApplicationFailure (String_of v) None false None None
            {| stack := Some ""; failure := None |})
  end.

(** [rootCause] on an error object. *)
Fixpoint rootCause_error (e : JsError) : string :=
  match e with
  | PlainError _ m _ => m
  | TimeoutFailure m _ _ _ => m
  | TemporalFailure _ c _ | ServerFailure _ _ c _ | ApplicationFailure _ _ _ _ c _
  | CancelledFailure _ _ c _ | TerminatedFailure _ c _
  | ActivityFailure _ _ _ _ c _ | ChildWorkflowFailure _ _ _ _ c _ =>
      match c with
      | Some ce => rootCause_error ce
      | None => error_message e
      end
  end.

(** [rootCause]: the message at the end of the cause chain of an error, a
    string itself, [undefined] for anything else that has a prototype. *)
Definition rootCause (err : Unknown) : Result Exn (option string) :=
  match err with
  | UValue VUndefined | UValue VNull =>
      Err (Throw TypeError "Cannot convert undefined or null to object")
  | UError e => Ok (Some (rootCause_error e))
  | UValue (VString s) => Ok (Some s)
  | UValue _ => Ok None
  end.

(** [details?.payloads] where [null] and [undefined] are kept as they
    are and need not be told apart. *)
Definition decoded_list_of (d : option DecodedList) : option (list JsValue) :=
  match d with
  | Some {| decoded_list := IsValue vs |} => Some vs
  | _ => None
  end.

(** [details?.payloads] as an argument: [undefined] without [details]. *)
Definition payloads_argument (d : option DecodedList) : Nullable (list JsValue) :=
  match d with
  | Some l => decoded_list l
  | None => IsUndefined
  end.

Definition decoded_value_of (d : option DecodedValue) : option JsValue :=
  match d with
  | Some v => decoded_value v
  | None => None
  end.

(** [deserializeFailure]: the cause first, then the four payload-bearing
    fields.  The application details are decoded whenever [details] is
    there; the other three only when their [payloads] are there, and a
    detail list without [payloads] is one that leaves the property out. *)
Fixpoint deserializeFailure (f : Failure) (dc : DataConverter) {struct f}
  : Result Exn DeserializedFailure :=
  let* c :=
    match cause f with
    | Some cf => let* cd := deserializeFailure cf dc in Ok (Some cd)
    | None => Ok None
    end in
  let* app :=
    match applicationFailureInfo f with
    | Some info =>
        let* d :=
          match afi_details info with
          | Some details =>
              let* vs := arrayFromPayloads dc (payloads details) in
              Ok (Some {| decoded_list := IsValue vs |})
          | None => Ok None
          end in
        Ok (Some (mkDApplicationFailureInfo (afi_type info) (afi_nonRetryable info) d))
    | None => Ok None
    end in
  let* tmo :=
    match timeoutFailureInfo f with
    | Some info =>
        let* d :=
          match tfi_lastHeartbeatDetails info with
          | Some {| payloads := Some ps |} =>
              let* v := fromPayloads dc 0 (Some ps) in
              Ok (Some {| decoded_value := Some v |})
          | Some {| payloads := None |} => Ok (Some {| decoded_value := None |})
          | None => Ok None
          end in
        Ok (Some (mkDTimeoutFailureInfo (tfi_timeoutType info) d))
    | None => Ok None
    end in
  let decode_list (d : option Payloads) : Result Exn (option DecodedList) :=
    match d with
    | Some {| payloads := Some ps |} =>
        let* vs := arrayFromPayloads dc (Some ps) in
        Ok (Some {| decoded_list := IsValue vs |})
    | Some {| payloads := None |} => Ok (Some {| decoded_list := IsUndefined |})
    | None => Ok None
    end in
  let* can :=
    match canceledFailureInfo f with
    | Some info =>
        let* d := decode_list (cfi_details info) in
        Ok (Some (mkDCanceledFailureInfo d))
    | None => Ok None
    end in
  let* rst :=
    match resetWorkflowFailureInfo f with
    | Some info =>
        let* d := decode_list (rfi_lastHeartbeatDetails info) in
        Ok (Some (mkDResetWorkflowFailureInfo d))
    | None => Ok None
    end in
  Ok (mkDeserializedFailure (message f) (stackTrace f) (source f) c
        app (serverFailureInfo f) tmo (terminatedFailureInfo f) can rst
        (activityFailureInfo f) (childWorkflowExecutionFailureInfo f)).

(** [new CancelledFailure(message, details, cause)]: the parameter
    [details] has the default [[]], which an [undefined] argument takes
    and [null] does not. *)
Definition construct_CancelledFailure (m : option string)
    (details : Nullable (list JsValue)) (c : option JsError) : JsError :=
  CancelledFailure (default "" m)
    match details with
    | IsUndefined => Some []
    | IsNull => None
    | IsValue vs => Some vs
    end
    c (fresh None).

Definition new_ChildWorkflowFailure (namespace : option string)
    (execution : WorkflowExecution) (workflowType : string) (retryState : Z)
    (c : option JsError) : JsError :=
  ChildWorkflowFailure namespace execution workflowType retryState c (fresh None).

(** [failureToError] of the common module with its [failureToErrorInner]
    and [optionalFailureToOptionalError] inlined.  The error keeps the
    decoded failure it was built from. *)
Fixpoint failureToError (f : DeserializedFailure) {struct f} : Result Exn JsError :=
  let optionalCause (_ : unit) : Result Exn (option JsError) :=
    match d_cause f with
    | Some cf => let* ce := failureToError cf in Ok (Some ce)
    | None => Ok None
    end in
  let* err :=
    match d_applicationFailureInfo f with
    | Some info =>
        let* c := optionalCause tt in
        Ok (new_ApplicationFailure (d_message f) (dafi_type info)
              (Boolean_ (dafi_nonRetryable info))
              (decoded_list_of (dafi_details info)) c)
    | None =>
    match d_serverFailureInfo f with
    | Some info =>
        let* c := optionalCause tt in
        Ok (new_ServerFailure (d_message f) (Boolean_ (sfi_nonRetryable info)) c)
    | None =>
    match d_timeoutFailureInfo f with
    | Some info =>
        Ok (new_TimeoutFailure (d_message f)
              (default VUndefined (decoded_value_of (dtfi_lastHeartbeatDetails info)))
              (default TIMEOUT_TYPE_UNSPECIFIED (dtfi_timeoutType info)))
    | None =>
    match d_terminatedFailureInfo f with
    | Some _ =>
        let* c := optionalCause tt in
        Ok (new_TerminatedFailure (d_message f) c)
    | None =>
    match d_canceledFailureInfo f with
    | Some info =>
        let* c := optionalCause tt in
        Ok (construct_CancelledFailure (d_message f)
              (payloads_argument (dcfi_details info)) c)
    | None =>
    match d_resetWorkflowFailureInfo f with
    | Some info =>
        let* c := optionalCause tt in
        Ok (new_ApplicationFailure (d_message f) (Some "ResetWorkflow") false
              (decoded_list_of (drfi_lastHeartbeatDetails info)) c)
    | None =>
    match d_childWorkflowExecutionFailureInfo f with
    | Some info =>
        match cw_workflowType info, cw_workflowExecution info with
        | Some {| name := Some workflowTypeName |}, Some workflowExecution =>
            if String.eqb workflowTypeName "" then
              Err (Throw TypeError
                     "Missing attributes on childWorkflowExecutionFailureInfo")
            else
              let* c := optionalCause tt in
              Ok (new_ChildWorkflowFailure (cw_namespace info) workflowExecution
                    workflowTypeName
                    (default RETRY_STATE_UNSPECIFIED (cw_retryState info)) c)
        | _, _ =>
            Err (Throw TypeError
                   "Missing attributes on childWorkflowExecutionFailureInfo")
        end
    | None =>
    match d_activityFailureInfo f with
    | Some info =>
        match act_activityType info with
        | Some {| name := Some activityTypeName |} =>
            if String.eqb activityTypeName "" then
              Err (Throw TypeError "Missing activityType?.name on activityFailureInfo")
            else
              let* c := optionalCause tt in
              Ok (new_ActivityFailure activityTypeName (act_activityId info)
                    (default RETRY_STATE_UNSPECIFIED (act_retryState info))
                    (act_identity info) c)
        | _ => Err (Throw TypeError "Missing activityType?.name on activityFailureInfo")
        end
    | None =>
        let* c := optionalCause tt in
        Ok (new_TemporalFailure (d_message f) c)
    end end end end end end end end in
  Ok (set_props err {| stack := Some (default "" (d_stackTrace f));
                       failure := Some f |}).

(** [optionalProtoFailureToOptionalError]. *)
Definition optionalProtoFailureToOptionalError (f : option Failure)
    (dc : DataConverter) : Result Exn (option JsError) :=
  match f with
  | Some pf =>
      let* d := deserializeFailure pf dc in
      let* e := failureToError d in
      Ok (Some e)
  | None => Ok None
  end.

End Common.

End FailureCommon.

(** ** The client's failure module: [serviceToCoreFailure] *)

Module ClientFailure.
Import Converter FailureConv.

Record CoreTimeoutFailureInfo : Type := mkCoreTimeoutFailureInfo {
  core_timeoutType : option Z;
  core_timeout_lastHeartbeatDetails : option (list Payload);
}.

Record CoreCancelledFailureInfo : Type := mkCoreCancelledFailureInfo {
  core_cancelled_details : option (list Payload);
}.

Record CoreActivityFailureInfo : Type := mkCoreActivityFailureInfo {
  core_activityType : option string;
  core_activityId : option string;
  core_activity_retryState : option Z;
  core_identity : option string;
}.

Record CoreApplicationFailureInfo : Type := mkCoreApplicationFailureInfo {
  core_application_details : option (list Payload);
  core_type : option string;
  core_nonRetryable : option bool;
}.

Record CoreResetWorkflowFailureInfo : Type := mkCoreResetWorkflowFailureInfo {
  core_reset_lastHeartbeatDetails : option (list Payload);
}.

Record CoreChildWorkflowExecutionFailureInfo : Type :=
  mkCoreChildWorkflowExecutionFailureInfo {
  core_workflowType : option string;
  core_namespace : option string;
  core_workflowExecution : option WorkflowExecution;
  core_child_retryState : option Z;
}.

(** [coresdk.failures.IFailure]. *)
Inductive CoreFailure : Type := mkCoreFailure {
  core_message : option string;
  core_stackTrace : option string;
  core_source : option string;
  core_cause : option CoreFailure;
  core_serverFailureInfo : option ServerFailureInfo;
  core_timeoutFailureInfo : option CoreTimeoutFailureInfo;
  core_cancelledFailureInfo : option CoreCancelledFailureInfo;
  core_activityFailureInfo : option CoreActivityFailureInfo;
  core_terminatedFailureInfo : option unit;
  core_applicationFailureInfo : option CoreApplicationFailureInfo;
  core_resetWorkflowFailureInfo : option CoreResetWorkflowFailureInfo;
  core_childWorkflowExecutionFailureInfo :
    option CoreChildWorkflowExecutionFailureInfo;
}.

Definition type_name (t : option NamedType) : option string :=
  match t with
  | Some n => name n
  | None => None
  end.

(** [serviceToCoreFailure] on a failure that is there. *)
Fixpoint serviceToCoreFailure (f : Failure) : CoreFailure :=
  let base srv tmo can act trm app rst chw :=
    mkCoreFailure (message f) (stackTrace f) (source f)
      (match cause f with
       | Some cf => Some (serviceToCoreFailure cf)
       | None => None
       end)
      srv tmo can act trm app rst chw in
  match serverFailureInfo f with
  | Some info => base (Some info) None None None None None None None
  | None =>
  match timeoutFailureInfo f with
  | Some info =>
      base None
        (Some {| core_timeoutType := tfi_timeoutType info;
                 core_timeout_lastHeartbeatDetails :=
                   payloads_of (tfi_lastHeartbeatDetails info) |})
        None None None None None None
  | None =>
  match canceledFailureInfo f with
  | Some info =>
      base None None
        (Some {| core_cancelled_details := payloads_of (cfi_details info) |})
        None None None None None
  | None =>
  match activityFailureInfo f with
  | Some info =>
      base None None None
        (Some {| core_activityType := type_name (act_activityType info);
                 core_activityId := act_activityId info;
                 core_activity_retryState := act_retryState info;
                 core_identity := act_identity info |})
        None None None None
  | None =>
  match terminatedFailureInfo f with
  | Some info => base None None None None (Some info) None None None
  | None =>
  match applicationFailureInfo f with
  | Some info =>
      base None None None None None
        (Some {| core_application_details := payloads_of (afi_details info);
                 core_type := afi_type info;
                 core_nonRetryable := afi_nonRetryable info |})
        None None
  | None =>
  match resetWorkflowFailureInfo f with
  | Some info =>
      base None None None None None None
        (Some {| core_reset_lastHeartbeatDetails :=
                   payloads_of (rfi_lastHeartbeatDetails info) |})
        None
  | None =>
  match childWorkflowExecutionFailureInfo f with
  | Some info =>
      base None None None None None None None
        (Some {| core_workflowType := type_name (cw_workflowType info);
                 core_namespace := cw_namespace info;
                 core_workflowExecution := cw_workflowExecution info;
                 core_child_retryState := cw_retryState info |})
  | None => base None None None None None None None None
  end end end end end end end end.

(** [serviceToCoreFailure(failure)]: [undefined] and [null] are passed
    through. *)
Definition optionalServiceToCoreFailure (f : option Failure) : option CoreFailure :=
  match f with
  | Some pf => Some (serviceToCoreFailure pf)
  | None => None
  end.

(** The client's conversion with the attached failures it really builds;
    [serializeFailure] of the common module stays a parameter. *)
Definition client_ops
    (serializeFailure : DataConverter -> CoreFailure -> Result Exn Failure)
  : AttachedOps (AttachedFailure := CoreFailure) :=
  {| FailureConv.serializeFailure := serializeFailure;
     FailureConv.serviceToCoreFailure := serviceToCoreFailure |}.

End ClientFailure.

(** ** vm.ts: the life cycle of a workflow and of its creator *)

Module Lifecycle.
Import Converter FailureConv Serializer Scheduler.

Section Lifecycle.
Context {AttachedFailure : Type} {Sandbox : Type}.
Abbreviation Unknown := (Unknown (AttachedFailure := AttachedFailure)).
Abbreviation VMWorkflow :=
  (VMWorkflow (AttachedFailure := AttachedFailure) (Sandbox := Sandbox)).

(** [workflowModule.dispose()] and [workflowModule.initRuntime(options)]
    on the sandbox, and [script.runInContext(context)], which builds the
    sandbox of a new context or throws. *)
Context {Script Options : Type}.
Variable wm_dispose : Sandbox -> Sandbox * Result Exn unit.
Variable wm_initRuntime : Sandbox -> Options -> Sandbox * Result Exn unit.
Variable runInContext : Script -> Result Exn Sandbox.

(** [dispose]: the context is deleted once the workflow module has
    disposed of its own state. *)
Definition dispose (w : VMWorkflow) : VMWorkflow * Result Exn unit :=
  match wm_dispose (sandbox w) with
  | (s, Ok _) =>
      ({| context := None; isReplaying := isReplaying w;
          unhandledRejection := unhandledRejection w; sandbox := s |}, Ok tt)
  | (s, Err e) => (set_sandbox w s, Err e)
  end.

Record VMWorkflowCreator : Type := mkCreator { script : option Script }.

(** [destroy]: [delete this.script]. *)
Definition destroy (c : VMWorkflowCreator) : VMWorkflowCreator :=
  {| script := None |}.

(** [getContext]. *)
Definition getContext (c : VMWorkflowCreator) : Result Exn Sandbox :=
  match script c with
  | None => Err (Throw IllegalStateError "Isolate context provider was destroyed")
  | Some s => runInContext s
  end.

(** [createWorkflow(options)]; [info_isReplaying] is [options.info.isReplaying]. *)
Definition createWorkflow (c : VMWorkflowCreator) (options : Options)
    (info_isReplaying : bool) : Result Exn VMWorkflow :=
  let* context := getContext c in
  match wm_initRuntime context options with
  | (s, Ok _) =>
      Ok {| context := Some tt; isReplaying := info_isReplaying;
            unhandledRejection := UValue VUndefined; sandbox := s |}
  | (_, Err e) => Err e
  end.

(** The [console.log] that [injectConsole] puts into the context: it
    reads [info.isReplaying], which [activate] writes, and prints its
    arguments after the workflow's type and id, or nothing. *)
Definition console_log (workflowType workflowId : string) (w : VMWorkflow)
    (args : list JsValue) : option (string * list JsValue) :=
  if isReplaying w then None
  else Some ("[" +:+ workflowType +:+ "(" +:+ workflowId +:+ ")]", args).

End Lifecycle.

End Lifecycle.

(** ** The older payload converters *)

Module PayloadConverters.
Import Converter.

(** [PayloadConverter]: [toDataSync] returns [undefined] for a value it
    cannot convert. *)
Record PayloadConverter : Type := mkPayloadConverter {
  pc_encodingType : string;
  toDataSync : JsValue -> Result Exn (option Payload);
  pc_fromDataSync : Payload -> Result Exn JsValue;
}.

Section Converters.
Context `{Platform}.

Definition UndefinedPayloadConverter : PayloadConverter :=
  {| pc_encodingType := METADATA_ENCODING_NULL;
     toDataSync v :=
       match v with
       | VUndefined =>
           Ok (Some {| metadata := Some {[ METADATA_ENCODING_KEY := KEY_ENCODING_NULL ]};
                       data := None |})
       | _ => Ok None
       end;
     pc_fromDataSync _ := Ok VUndefined |}.

Definition JsonPayloadConverter : PayloadConverter :=
  {| pc_encodingType := METADATA_ENCODING_JSON;
     toDataSync v :=
       match v with
       | VUndefined => Ok None
       | _ =>
           let* s := JSON_stringify v in
           Ok (Some {| metadata := Some {[ METADATA_ENCODING_KEY := KEY_ENCODING_JSON ]};
                       data := Some (u8 s) |})
       end;
     pc_fromDataSync content :=
       match data content with
       | None => Err (Throw ValueError "Got payload with no data")
       | Some d => JSON_parse (str d)
       end |}.

Definition BinaryPayloadConverter : PayloadConverter :=
  {| pc_encodingType := METADATA_ENCODING_RAW;
     toDataSync v :=
       match v with
       | VUint8Array b =>
           Ok (Some {| metadata := Some {[ METADATA_ENCODING_KEY := KEY_ENCODING_RAW ]};
                       data := Some b |})
       | _ => Ok None
       end;
     pc_fromDataSync content :=
       match data content with
       | Some d => Ok (VUint8Array d)
       | None => Ok VUndefined
       end |}.

(** [value.constructor.name] of a truthy value whose [typeof] is
    ['object']. *)
Definition constructor_name (v : JsValue) : option string :=
  match v with
  | VUint8Array _ => Some "Uint8Array"
  | VArray _ => Some "Array"
  | VObject _ => Some "Object"
  | VMessage typeName _ => Some typeName
  | _ => None
  end.

(** [encodingKeys.METADATA_ENCODING_PROTOBUF]. *)
Variable KEY_ENCODING_PROTOBUF : bytes.

(** [ProtobufPayloadConverter]: a value is taken for a message when the
    name of its constructor is [in] [protobufClasses], as a member of its
    own or an inherited one; the constructor of anything but a message has
    no [encode]. *)
Definition ProtobufPayloadConverter (protobufClasses : option Classes)
  : PayloadConverter :=
  {| pc_encodingType := METADATA_ENCODING_PROTOBUF;
     toDataSync v :=
       match protobufClasses, constructor_name v with
       | Some classes, Some cname =>
           if bool_decide (is_Some (get_member classes cname)) then
             match v with
             | VMessage typeName fields =>
                 Ok (Some {| metadata :=
                               Some (<[ METADATA_MESSAGE_TYPE_KEY := u8 typeName ]>
                                       {[ METADATA_ENCODING_KEY :=
                                            KEY_ENCODING_PROTOBUF ]});
                             data := Some (proto_encode typeName fields) |})
             | _ => Err (Throw TypeError "value.constructor.encode is not a function")
             end
           else Ok None
       | _, _ => Ok None
       end;
     pc_fromDataSync := fromDataSync protobufClasses |}.

End Converters.

End PayloadConverters.

(** ** workflow.ts: [uuid4] *)

Module Uuid.

(** Strings are lists of characters here. *)
Definition hex_digit (d : Z) : ascii :=
  match d with
  | 0 => "0" | 1 => "1" | 2 => "2" | 3 => "3" | 4 => "4" | 5 => "5" | 6 => "6"
  | 7 => "7" | 8 => "8" | 9 => "9" | 10 => "a" | 11 => "b" | 12 => "c"
  | 13 => "d" | 14 => "e" | _ => "f"
  end%Z%char.

(** The digits of [n.toString(16)] for an integer [n >= 0], most
    significant first; [fuel] bounds their number. *)
Fixpoint toString16_digits (fuel : nat) (n : Z) : list ascii :=
  match fuel with
  | O => []
  | S fuel' =>
      if (n <? 16)%Z then [hex_digit n]
      else (toString16_digits fuel' (n / 16) ++ [hex_digit (n mod 16)])%list
  end.

Definition toString16 (n : Z) : list ascii :=
  toString16_digits (S (Z.to_nat (Z.log2 n))) n.

(** [String.prototype.padStart]. *)
Definition padStart (s : list ascii) (p : nat) (c : ascii) : list ascii :=
  (replicate (p - length s) c ++ s)%list.

(** [ho]: the hexadecimal text of [n], padded with zeroes to length [p]. *)
Definition ho (n : Z) (p : nat) : list ascii := padStart (toString16 n) p "0"%char.

(** A [DataView] over a buffer, as its bytes; numbers are read and written
    big-endian.  Every offset that [uuid4] uses lies within its buffer. *)
Definition DataView : Type := list Z.

Definition getUint8 (view : DataView) (byteOffset : nat) : Z :=
  default 0%Z (view !! byteOffset).

Definition setUint8 (view : DataView) (byteOffset : nat) (value : Z) : DataView :=
  <[ byteOffset := (value mod 256)%Z ]> view.

Definition getUint16 (view : DataView) (byteOffset : nat) : Z :=
  (getUint8 view byteOffset * 256 + getUint8 view (byteOffset + 1))%Z.

Definition getUint32 (view : DataView) (byteOffset : nat) : Z :=
  (getUint16 view byteOffset * 65536 + getUint16 view (byteOffset + 2))%Z.

Definition setUint32 (view : DataView) (byteOffset : nat) (value : Z) : DataView :=
  setUint8
    (setUint8
       (setUint8
          (setUint8 view byteOffset (value / 16777216))
          (byteOffset + 1) (value / 65536))
       (byteOffset + 2) (value / 256))
    (byteOffset + 3) value.

(** [uuid4]; [r0] to [r3] are the four values of
    [(Math.random() * 0x100000000) >>> 0], in the order of the calls. *)
Definition uuid4 (r0 r1 r2 r3 : Z) : list ascii :=
  let view : DataView := replicate 16 0%Z in
  let view := setUint32 view 0 r0 in
  let view := setUint32 view 4 r1 in
  let view := setUint32 view 8 r2 in
  let view := setUint32 view 12 r3 in
  let view := setUint8 view 6 (Z.lor (Z.land (getUint8 view 6) 15) 64) in
  let view := setUint8 view 8 (Z.lor (Z.land (getUint8 view 8) 63) 128) in
  (ho (getUint32 view 0) 8 ++ "-"%char ::
   ho (getUint16 view 4) 4 ++ "-"%char ::
   ho (getUint16 view 6) 4 ++ "-"%char ::
   ho (getUint16 view 8) 4 ++ "-"%char ::
   ho (getUint32 view 10) 8 ++ ho (getUint16 view 14) 4)%list.

End Uuid.

(** ** serializer.ts: [deserializeActivation] *)

Module Deserializer.
Import Converter FailureConv FailureCommon Serializer.

(** The jobs of an activation.  [A] is what a payload-bearing field holds
    and [F] what a failure-bearing field holds: payloads and failure
    messages as the activation arrives, values and decoded failures once
    it is deserialized. *)
Section Jobs.
Context {A F : Type}.

Record StartWorkflow : Type := mkStartWorkflow {
  sw_workflowType : string;
  sw_arguments : option (list A);
  sw_headers : option (list (string * A));
}.

Record QueryWorkflow : Type := mkQueryWorkflow {
  qw_queryType : string;
  qw_arguments : option (list A);
}.

Record CancelWorkflow : Type := mkCancelWorkflow {
  cnw_details : option (list A);
}.

Record SignalWorkflow : Type := mkSignalWorkflow {
  sg_signalName : string;
  sg_input : option (list A);
}.

Record Completed : Type := mkCompleted { completed_result : option A }.

(** An object with a [failure] property. *)
Record FailureParent : Type := mkFailureParent { fp_failure : option F }.

Record ActivityResult : Type := mkActivityResult {
  ar_completed : option Completed;
  ar_failed : option FailureParent;
  ar_cancelled : option FailureParent;
}.

Record ResolveActivity : Type := mkResolveActivity {
  ra_seq : Z;
  ra_result : option ActivityResult;
}.

Record ChildWorkflowResult : Type := mkChildWorkflowResult {
  cr_completed : option Completed;
  cr_failed : option FailureParent;
  cr_cancelled : option FailureParent;
}.

Record ResolveChildWorkflowExecution : Type := mkResolveChildWorkflowExecution {
  rc_seq : Z;
  rc_result : option ChildWorkflowResult;
}.

Record ResolveChildWorkflowExecutionStart : Type :=
  mkResolveChildWorkflowExecutionStart {
  rs_seq : Z;
  rs_cancelled : option FailureParent;
}.

(** The jobs that carry neither payloads nor failures. *)
Inductive PlainJob : Type :=
| FireTimer (timerId : string)
| UpdateRandomSeed (seed : Z)
| NotifyHasPatch (patchId : string).

Record Job : Type := mkJob {
  startWorkflow : option StartWorkflow;
  queryWorkflow : option QueryWorkflow;
  cancelWorkflow : option CancelWorkflow;
  signalWorkflow : option SignalWorkflow;
  resolveActivity : option ResolveActivity;
  resolveChildWorkflowExecution : option ResolveChildWorkflowExecution;
  resolveChildWorkflowExecutionStart : option ResolveChildWorkflowExecutionStart;
  resolveSignalExternalWorkflow : option FailureParent;
  resolveRequestCancelExternalWorkflow : option FailureParent;
  plainJob : option PlainJob;
}.

Record Activation : Type := mkActivation {
  act_runId : string;
  act_isReplaying : option bool;
  act_jobs : list Job;
}.

End Jobs.
Arguments StartWorkflow : clear implicits.
Arguments QueryWorkflow : clear implicits.
Arguments CancelWorkflow : clear implicits.
Arguments SignalWorkflow : clear implicits.
Arguments Completed : clear implicits.
Arguments FailureParent : clear implicits.
Arguments ActivityResult : clear implicits.
Arguments ResolveActivity : clear implicits.
Arguments ChildWorkflowResult : clear implicits.
Arguments ResolveChildWorkflowExecution : clear implicits.
Arguments ResolveChildWorkflowExecutionStart : clear implicits.
Arguments Job : clear implicits.
Arguments Activation : clear implicits.

Section Deserialize.
Variable dataConverter : DataConverter.

(** [deserializeField]: an absent field is skipped. *)
Definition deserializeField (field : option Payload) : Result Exn (option JsValue) :=
  match field with
  | None => Ok None
  | Some p => let* v := fromPayload dataConverter p in Ok (Some v)
  end.

(** [deserializeArray]. *)
Definition deserializeArray (field : option (list Payload))
  : Result Exn (option (list JsValue)) :=
  match field with
  | None => Ok None
  | Some ps => let* vs := mapM (fromPayload dataConverter) ps in Ok (Some vs)
  end.

(** [deserializeMap] returns one promise per entry of the map, each of
    which replaces its own entry. *)
Definition deserializeMap_tasks (field : option (list (string * Payload)))
  : list (Result Exn unit) :=
  match field with
  | None => []
  | Some m => map (fun kv => outcome (fromPayload dataConverter (snd kv))) m
  end.

(** The map after every one of these promises has fulfilled. *)
Definition deserializeMap (field : option (list (string * Payload)))
  : Result Exn (option (list (string * JsValue))) :=
  match field with
  | None => Ok None
  | Some m =>
      let* vs := mapM (fun kv => let* v := fromPayload dataConverter (snd kv) in
                                 Ok (fst kv, v)) m in
      Ok (Some vs)
  end.

(** [deserializeFailure] of the serializer: an absent failure is skipped. *)
Definition deserializeFailureField (field : option Failure)
  : Result Exn (option DeserializedFailure) :=
  match field with
  | None => Ok None
  | Some f => let* d := deserializeFailure f dataConverter in Ok (Some d)
  end.

Definition activity_result (job : Job Payload Failure)
  : option (ActivityResult Payload Failure) :=
  mbind ra_result (resolveActivity job).

Definition child_result (job : Job Payload Failure)
  : option (ChildWorkflowResult Payload Failure) :=
  mbind rc_result (resolveChildWorkflowExecution job).

(** The promises that [deserializeActivation] creates for one job, in the
    order of the array literal, each as its outcome. *)
Definition job_tasks (job : Job Payload Failure) : list (Result Exn unit) :=
  ([ task (startWorkflow job) sw_arguments deserializeArray ] ++
   deserializeMap_tasks (mbind sw_headers (startWorkflow job)) ++
   [ task (queryWorkflow job) qw_arguments deserializeArray;
     task (cancelWorkflow job) cnw_details deserializeArray;
     task (signalWorkflow job) sg_input deserializeArray;
     task (mbind ar_completed (activity_result job)) completed_result deserializeField;
     task (mbind cr_completed (child_result job)) completed_result deserializeField;
     task (mbind ar_failed (activity_result job)) fp_failure deserializeFailureField;
     task (mbind ar_cancelled (activity_result job)) fp_failure deserializeFailureField;
     task (mbind rs_cancelled (resolveChildWorkflowExecutionStart job)) fp_failure
       deserializeFailureField;
     task (resolveSignalExternalWorkflow job) fp_failure deserializeFailureField;
     task (mbind cr_failed (child_result job)) fp_failure deserializeFailureField;
     task (mbind cr_cancelled (child_result job)) fp_failure deserializeFailureField;
     task (resolveRequestCancelExternalWorkflow job) fp_failure
       deserializeFailureField ])%list.

(** The whole array handed to [Promise.all]. *)
Definition activation_tasks (activation : Activation Payload Failure)
  : list (Result Exn unit) :=
  flat_map job_tasks (act_jobs activation).

Definition decode_completed (c : option (Completed Payload))
  : Result Exn (option (Completed JsValue)) :=
  on_present c completed_result
    (fun r => let* v := deserializeField r in Ok (mkCompleted v)).

Definition decode_parent (p : option (FailureParent Failure))
  : Result Exn (option (FailureParent DeserializedFailure)) :=
  on_present p fp_failure
    (fun f => let* d := deserializeFailureField f in Ok (mkFailureParent d)).

(** The fields of one job after every one of its promises has fulfilled. *)
Definition deserializeJob (job : Job Payload Failure)
  : Result Exn (Job JsValue DeserializedFailure) :=
  let* sw :=
    on_present (startWorkflow job) id (fun sw =>
      let* a := deserializeArray (sw_arguments sw) in
      let* h := deserializeMap (sw_headers sw) in
      Ok (mkStartWorkflow (sw_workflowType sw) a h)) in
  let* qw :=
    on_present (queryWorkflow job) id (fun qw =>
      let* a := deserializeArray (qw_arguments qw) in
      Ok (mkQueryWorkflow (qw_queryType qw) a)) in
  let* cw :=
    on_present (cancelWorkflow job) cnw_details
      (fun d => let* vs := deserializeArray d in Ok (mkCancelWorkflow vs)) in
  let* sg :=
    on_present (signalWorkflow job) id (fun sg =>
      let* i := deserializeArray (sg_input sg) in
      Ok (mkSignalWorkflow (sg_signalName sg) i)) in
  let* ra :=
    on_present (resolveActivity job) id (fun ra =>
      let* r :=
        on_present (ra_result ra) id (fun res =>
          let* c := decode_completed (ar_completed res) in
          let* f := decode_parent (ar_failed res) in
          let* cn := decode_parent (ar_cancelled res) in
          Ok (mkActivityResult c f cn)) in
      Ok (mkResolveActivity (ra_seq ra) r)) in
  let* rc :=
    on_present (resolveChildWorkflowExecution job) id (fun rc =>
      let* r :=
        on_present (rc_result rc) id (fun res =>
          let* c := decode_completed (cr_completed res) in
          let* f := decode_parent (cr_failed res) in
          let* cn := decode_parent (cr_cancelled res) in
          Ok (mkChildWorkflowResult c f cn)) in
      Ok (mkResolveChildWorkflowExecution (rc_seq rc) r)) in
  let* rs :=
    on_present (resolveChildWorkflowExecutionStart job) id (fun rs =>
      let* cn := decode_parent (rs_cancelled rs) in
      Ok (mkResolveChildWorkflowExecutionStart (rs_seq rs) cn)) in
  let* se := decode_parent (resolveSignalExternalWorkflow job) in
  let* rr := decode_parent (resolveRequestCancelExternalWorkflow job) in
  Ok (mkJob sw qw cw sg ra rc rs se rr (plainJob job)).

(** The activation whose fields the promises have replaced. *)
Definition deserialized (activation : Activation Payload Failure)
  : Result Exn (Activation JsValue DeserializedFailure) :=
  let* js := mapM deserializeJob (act_jobs activation) in
  Ok (mkActivation (act_runId activation) (act_isReplaying activation) js).

(** [deserializeActivation]: [await Promise.all([...]); return activation]. *)
Definition deserializeActivation (activation : Activation Payload Failure)
  : Result Exn (Activation JsValue DeserializedFailure) :=
  let* _ := Promise_all (activation_tasks activation) in
  deserialized activation.

End Deserialize.

End Deserializer.

(** ** create-project: [isFolderEmpty] *)

Module CreateProject.

Definition validFiles : list string :=
  [ ".DS_Store"; ".git"; ".gitattributes"; ".gitignore"; ".gitlab-ci.yml"; ".hg";
    ".hgcheck"; ".hgignore"; ".idea"; ".npmignore"; ".travis.yml"; "LICENSE";
    "Thumbs.db"; "docs"; "mkdocs.yml"; "npm-debug.log"; "yarn-debug.log";
    "yarn-error.log" ].

(** [/\.iml$/.test(file)]. *)
Definition is_iml (file : string) : bool :=
  bool_decide (list_ascii_of_string ".iml" `suffix_of` list_ascii_of_string file).

Section IsFolderEmpty.
(** [chalk.green], [chalk.blue], and [fs.lstatSync(...).isDirectory()],
    which is [None] when [lstatSync] throws. *)
Variable green blue : string -> string.
Variable isDirectory : string -> option bool.

(** [isFolderEmpty(root, name)] on the entries that [fs.readdirSync(root)]
    lists: what it returns and the lines it prints. *)
Definition isFolderEmpty (entries : list string) (name : string)
  : bool * list string :=
  let conflicts :=
    List.filter (fun file => negb (existsb (String.eqb file) validFiles) &&
                             negb (is_iml file)) entries in
  if (0 <? length conflicts)%nat then
    (false,
     [ "The directory " +:+ green name +:+ " contains files that could conflict:";
       "" ] ++
     map (fun file =>
            match isDirectory file with
            | Some true => "  " +:+ blue file +:+ "/"
            | _ => "  " +:+ file
            end) conflicts ++
     [ "";
       "Either try using a new directory name, or remove the files listed above.";
       "" ])%list
  else (true, []).

End IsFolderEmpty.

End CreateProject.

(** ** failure.ts: [convertFailuresToErrors] *)

Module Convert.
Import Converter FailureConv FailureCommon Serializer Deserializer.

(** A job after [convertFailuresToErrors].  The [failure] of a sub-object
    holds an error; [resolveSignalExternalWorkflow] is itself replaced by
    the error made from its [failure]. *)
Record ConvertedJob : Type := mkConvertedJob {
  cj_startWorkflow : option (StartWorkflow JsValue);
  cj_queryWorkflow : option (QueryWorkflow JsValue);
  cj_cancelWorkflow : option (CancelWorkflow JsValue);
  cj_signalWorkflow : option (SignalWorkflow JsValue);
  cj_resolveActivity : option (ResolveActivity JsValue JsError);
  cj_resolveChildWorkflowExecution :
    option (ResolveChildWorkflowExecution JsValue JsError);
  cj_resolveChildWorkflowExecutionStart :
    option (ResolveChildWorkflowExecutionStart JsError);
  cj_resolveSignalExternalWorkflow : option JsError;
  cj_resolveRequestCancelExternalWorkflow : option (FailureParent JsError);
  cj_plainJob : option PlainJob;
}.

Section Convert.
Context `{Platform}.

(** [optionalFailureToOptionalError] of the common module. *)
Definition optionalFailureToOptionalError (f : option DeserializedFailure)
  : Result Exn (option JsError) :=
  match f with
  | Some d => let* e := failureToError d in Ok (Some e)
  | None => Ok None
  end.

(** [parent.failure = optionalFailureToOptionalError(parent.failure)] on a
    sub-object that is there. *)
Definition convert_parent (p : option (FailureParent DeserializedFailure))
  : Result Exn (option (FailureParent JsError)) :=
  on_present p fp_failure
    (fun f => let* e := optionalFailureToOptionalError f in Ok (mkFailureParent e)).

(** The body of the [forEach]: the seven conversions in the order of the
    source. *)
Definition convertJob (job : Job JsValue DeserializedFailure)
  : Result Exn ConvertedJob :=
  let activity := mbind ra_result (resolveActivity job) in
  let child := mbind rc_result (resolveChildWorkflowExecution job) in
  let* af := convert_parent (mbind ar_failed activity) in
  let* ac := convert_parent (mbind ar_cancelled activity) in
  let* sc := convert_parent (mbind rs_cancelled (resolveChildWorkflowExecutionStart job)) in
  let* se :=
    match resolveSignalExternalWorkflow job with
    | Some p => optionalFailureToOptionalError (fp_failure p)
    | None => Ok None
    end in
  let* cf := convert_parent (mbind cr_failed child) in
  let* cc := convert_parent (mbind cr_cancelled child) in
  let* rr := convert_parent (resolveRequestCancelExternalWorkflow job) in
  Ok (mkConvertedJob (startWorkflow job) (queryWorkflow job) (cancelWorkflow job)
        (signalWorkflow job)
        (option_map (fun ra =>
           mkResolveActivity (ra_seq ra)
             (option_map (fun res => mkActivityResult (ar_completed res) af ac)
                (ra_result ra)))
           (resolveActivity job))
        (option_map (fun rc =>
           mkResolveChildWorkflowExecution (rc_seq rc)
             (option_map (fun res => mkChildWorkflowResult (cr_completed res) cf cc)
                (rc_result rc)))
           (resolveChildWorkflowExecution job))
        (option_map (fun rs => mkResolveChildWorkflowExecutionStart (rs_seq rs) sc)
           (resolveChildWorkflowExecutionStart job))
        se rr (plainJob job)).

(** [convertFailuresToErrors]: the jobs one after the other; an error
    stops the [forEach]. *)
Definition convertFailuresToErrors (activation : Activation JsValue DeserializedFailure)
  : Result Exn (list ConvertedJob) :=
  mapM convertJob (act_jobs activation).

End Convert.

End Convert.

(** ** Predicates used to state the properties *)

Module Spec.
Import Converter FailureConv.

Section ConverterSpec.
Context `{Platform}.

(** A codec does not support [v]: it throws [UnsupportedTypeError]. *)
Definition unsupported (v : JsValue) (c : DataConverterWithEncoding) : Prop :=
  exists e, toPayload (codec c) v = Err e /\ exn_class e = UnsupportedTypeError.

(** The claim of the specification about [toPayload], in its words: the
    payload of the first codec that accepts the value, and a [ValueError]
    when no codec accepts it. *)
Fixpoint first_accepted (cs : list DataConverterWithEncoding) (v : JsValue)
  : option Payload :=
  match cs with
  | [] => None
  | c :: rest =>
      match toPayload (codec c) v with
      | Ok p => Some p
      | Err _ => first_accepted rest v
      end
  end.

Definition toPayload_as_specified (cs : list DataConverterWithEncoding) (v : JsValue)
  : Prop :=
  match first_accepted cs v with
  | Some p => composite_toPayload (new_CompositeDataConverter cs) v = Ok p
  | None => exists msg,
      composite_toPayload (new_CompositeDataConverter cs) v = Err (Throw ValueError msg)
  end.

(** The constants of the missing [./types] module as the codecs need them:
    each encoding key decodes to the name of its encoding, and the five
    encodings have different names. *)
Definition encoding_constants_ok : Prop :=
  str KEY_ENCODING_NULL = METADATA_ENCODING_NULL /\
  str KEY_ENCODING_RAW = METADATA_ENCODING_RAW /\
  str KEY_ENCODING_JSON = METADATA_ENCODING_JSON /\
  NoDup [ METADATA_ENCODING_NULL; METADATA_ENCODING_RAW;
          METADATA_ENCODING_PROTOBUF_JSON; METADATA_ENCODING_PROTOBUF;
          METADATA_ENCODING_JSON ].

(** A JSON-serializable structure: neither [undefined], a binary buffer
    nor a protobuf message, and a value that JSON text gives back. *)
Definition json_serializable (v : JsValue) : Prop :=
  v <> VUndefined /\ (forall b, v <> VUint8Array b) /\ isProtobufMessage v = false /\
  exists s, JSON_stringify v = Ok s /\ JSON_parse (str (u8 s)) = Ok v.

(** The kinds of value whose equality is well defined. *)
Definition round_trip_kind (v : JsValue) : Prop :=
  v = VUndefined \/ (exists b, v = VUint8Array b) \/ json_serializable v.

(** A structured payload that is well formed: it has data and declares a
    message type. *)
Definition declares_type (p : Payload) (typeName : string) : Prop :=
  is_Some (data p) /\
  exists md, metadata p = Some md /\ is_Some (md !! METADATA_MESSAGE_TYPE_KEY) /\
    str_lookup md METADATA_MESSAGE_TYPE_KEY = typeName.

(** The registry is missing, or its lookup finds no message type under
    that name. *)
Definition unregistered (root : option Root) (typeName : string) : Prop :=
  match root with
  | None => True
  | Some r => forall t, lookupType r typeName <> Ok (ReflectedType t)
  end.

(** The object of message classes is missing, or has no class of that
    name. *)
Definition unregistered_class (protobufClasses : option Classes)
    (typeName : string) : Prop :=
  match protobufClasses with
  | None => True
  | Some classes => classes !! typeName = None
  end.

(** The claim of the specification about the round trip, in its words: a
    value that some codec of the chain accepts, and whose kind has a well
    defined equality, encodes to a payload that decodes to that value. *)
Definition accepted_by_some (cs : list DataConverterWithEncoding) (v : JsValue)
  : Prop :=
  exists c p, c ∈ cs /\ toPayload (codec c) v = Ok p.

Definition round_trips (cs : list DataConverterWithEncoding) (v : JsValue) : Prop :=
  exists p,
    toPayload (as_DataConverter (new_CompositeDataConverter cs)) v = Ok p /\
    fromPayload (as_DataConverter (new_CompositeDataConverter cs)) p = Ok v.

Definition round_trip_as_specified (cs : list DataConverterWithEncoding)
    (v : JsValue) : Prop :=
  accepted_by_some cs v -> round_trip_kind v -> round_trips cs v.

(** The codec made for a kind of value: the undefined codec for
    [undefined], the binary codec for a binary buffer, the JSON codec for
    the rest. *)
Definition codec_of_kind (v : JsValue) : DataConverterWithEncoding :=
  match v with
  | VUndefined => UndefinedDataConverter
  | VUint8Array _ => BinaryDataConverter
  | _ => JsonDataConverter
  end.

End ConverterSpec.

Section SchedulerSpec.
Import Scheduler.

(** The processing rank of a job: patch notifications, then signals, then
    everything else, then queries. *)
Definition job_rank (j : WFActivationJob) : nat :=
  if non_null (notifyHasPatch j) then 0
  else if non_null (signalWorkflow j) then 1
  else if non_null (queryWorkflow j) then 3
  else 2.

(** The jobs of one rank, in their order of arrival. *)
Definition sub_batch (k : nat) (js : list WFActivationJob) : list WFActivationJob :=
  List.filter (fun j => job_rank j =? k)%nat js.

Definition ordered_batches (js : list WFActivationJob) : list (list WFActivationJob) :=
  [sub_batch 0 js; sub_batch 1 js; sub_batch 2 js; sub_batch 3 js].

(** The non-empty batches with consecutive batch indices from [i]. *)
Fixpoint numbered (i : nat) (bs : list (list WFActivationJob))
  : list (list WFActivationJob * nat) :=
  match bs with
  | [] => []
  | b :: rest =>
      if (length b =? 0)%nat then numbered i rest
      else (b, i) :: numbered (S i) rest
  end.

Section SandboxSpec.
Context {Sandbox Decoded : Type}.
Variable wm_activate : Sandbox -> Decoded -> nat -> Sandbox * Result Exn nat.
Variable wm_tryUnblockConditions : Sandbox -> Sandbox * Result Exn nat.
Variable deserializeActivation : WFActivation -> list WFActivationJob -> Result Exn Decoded.

(** One batch fed to the sandbox: the batch is decoded, the sandbox is
    activated with the decoded jobs and the index of the batch, and the
    blocked conditions, when the sandbox reports some, are tried again. *)
Definition feed (fuel : nat) (activation : WFActivation) (s : Sandbox)
    (batch : list WFActivationJob * nat) : option (Sandbox * Result Exn unit) :=
  match deserializeActivation activation batch.1 with
  | Err e => Some (s, Err e)
  | Ok decoded =>
      match wm_activate s decoded batch.2 with
      | (s1, Err e) => Some (s1, Err e)
      | (s1, Ok numBlockedConditions) =>
          if (0 <? numBlockedConditions)%nat
          then tryUnblockConditions wm_tryUnblockConditions fuel s1
          else Some (s1, Ok tt)
      end
  end.

(** The batches fed to the sandbox one after the other, each on the state
    that the one before left, up to the first that fails. *)
Fixpoint feed_all (fuel : nat) (activation : WFActivation) (s : Sandbox)
    (batches : list (list WFActivationJob * nat))
  : option (Sandbox * Result Exn unit) :=
  match batches with
  | [] => Some (s, Ok tt)
  | batch :: rest =>
      match feed fuel activation s batch with
      | None => None
      | Some (s1, Err e) => Some (s1, Err e)
      | Some (s1, Ok _) => feed_all fuel activation s1 rest
      end
  end.

End SandboxSpec.

End SchedulerSpec.

Section FailureSpec.
Context `{Platform} `{AttachedOps}.
Abbreviation JsError := (JsError (AttachedFailure := AttachedFailure)).

(** The variant-specific fields of an error. *)
Inductive Fields : Type :=
| NoFields
| ServerFields (nonRetryable : bool)
| ApplicationFields (type : option string) (nonRetryable : bool)
    (details : option (list JsValue))
| CancelledFields (details : option (list JsValue))
| TimeoutFields (lastHeartbeatDetails : JsValue) (timeoutType : Z)
| ActivityFields (activityType : string) (activityId : option string)
    (retryState : Z) (ident : option string)
| ChildWorkflowFields (namespace : option string) (execution : WorkflowExecution)
    (workflowType : string) (retryState : Z).

Definition fields (e : JsError) : Fields :=
  match e with
  | PlainError _ _ _ | TemporalFailure _ _ _ | TerminatedFailure _ _ _ => NoFields
  | ServerFailure _ n _ _ => ServerFields n
  | ApplicationFailure _ t n d _ _ => ApplicationFields t n d
  | CancelledFailure _ d _ _ => CancelledFields d
  | TimeoutFailure _ l t _ => TimeoutFields l t
  | ActivityFailure a i r d _ _ => ActivityFields a i r d
  | ChildWorkflowFailure n e w r _ _ => ChildWorkflowFields n e w r
  end.






(** The converter gives back the detail values of a list. *)
Definition details_round_trip (dc : DataConverter) (details : option (list JsValue))
  : Prop :=
  match details with
  | Some ((_ :: _) as ds) =>
      exists ps, mapM (toPayload dc) ds = Ok ps /\ mapM (fromPayload dc) ps = Ok ds
  | _ => True
  end.

(** The converter gives back every detail value of the error and of its
    causes. *)
Fixpoint codec_round_trips (dc : DataConverter) (e : JsError) : Prop :=
  let on_cause (c : option JsError) :=
    match c with
    | Some ce => codec_round_trips dc ce
    | None => True
    end in
  match e with
  | PlainError _ _ _ => True
  | TimeoutFailure _ l _ _ =>
      truthy l = true ->
      exists p, toPayload dc l = Ok p /\ fromPayload dc p = Ok l
  | ApplicationFailure _ _ _ d c _ | CancelledFailure _ d c _ =>
      details_round_trip dc d /\ on_cause c
  | TemporalFailure _ c _ | ServerFailure _ _ c _ | TerminatedFailure _ c _
  | ActivityFailure _ _ _ _ c _ | ChildWorkflowFailure _ _ _ _ c _ => on_cause c
  end.


(** [optionalFailureToOptionalError]. *)
Definition optionalFailureToOptionalError (dc : DataConverter) (f : option Failure)
  : Result Exn (option JsError) :=
  match f with
  | Some cf => let* ce := failureToError dc cf in Ok (Some ce)
  | None => Ok None
  end.


End FailureSpec.

Section CancelSpec.
Context {AttachedFailure : Type}.
Abbreviation Unknown := (Unknown (AttachedFailure := AttachedFailure)).

(** [workflowInclusiveInstanceOf(err, TemporalFailure)]: the error belongs
    to the failure taxonomy. *)
Definition is_TemporalFailure (err : Unknown) : bool :=
  match err with
  | UError (PlainError _ _ _) | UValue _ => false
  | UError _ => true
  end.

End CancelSpec.

End Spec.

(** ** Concrete inputs on the reference platform *)

Module Examples.
Import Converter FailureConv Spec.
#[local] Existing Instance Reference.platform.
#[local] Existing Instance Reference.attached.
Abbreviation JsError := (JsError (AttachedFailure := unit)).
Abbreviation Unknown := (Unknown (AttachedFailure := unit)).

(** A converter whose two methods always throw. *)
Definition failing_converter : DataConverter :=
  {| toPayload _ := Err (Throw ValueError "cannot encode");
     fromPayload _ := Err (Throw ValueError "cannot decode") |}.

(** A codec that carries the name of the binary codec and converts
    nothing. *)
Definition deaf_binary : DataConverterWithEncoding :=
  {| encodingType := "binary/plain"; codec := failing_converter |}.

Definition json_payload (text : string) : Payload :=
  {| metadata := Some {[ "encoding" := list_byte_of_string "json/plain" ]};
     data := Some (list_byte_of_string text) |}.

(** A protobuf payload of message type [Foo]. *)
Definition foo_payload : Payload :=
  {| metadata := Some (<[ "messageType" := list_byte_of_string "Foo" ]>
                         {[ "encoding" := list_byte_of_string "binary/protobuf" ]});
     data := Some [] |}.

(** A protobuf payload that declares the message type [typeName] and
    holds [text]. *)
Definition typed_payload (encoding typeName text : string) : Payload :=
  {| metadata := Some (<[ "messageType" := list_byte_of_string typeName ]>
                         {[ "encoding" := list_byte_of_string encoding ]});
     data := Some (list_byte_of_string text) |}.

(** A message class whose decoders give the empty message back. *)
Definition Foo_type : ProtoType :=
  {| pt_decode _ := Ok (VMessage "Foo" []);
     pt_fromJSON _ := Ok (VMessage "Foo" []) |}.

(** A registry and an object of classes that hold [Foo] and nothing
    else. *)
Definition foo_root : Root := Reference.protobufjs_Root {[ "Foo" := Foo_type ]}.

Definition foo_classes : Classes := {[ "Foo" := Foo_type ]}.

(** The error of the serializer's test: an application failure with two
    detail values and a plain error as its cause. *)
Definition application_error : JsError :=
  ApplicationFailure "test" (Some "type") true (Some [VNumber 1; VString "two"])
    (Some (PlainError Error_ "cause" (Some "test-stacktrace")))
    (fresh (Some "test-stacktrace")).







(** A completion with two commands; the second schedules an activity
    with an argument that JSON cannot encode. *)
Definition no_command : Serializer.Command JsValue Unknown :=
  Serializer.mkCommand None None None None None None None None.

Definition complete_success : Serializer.Command JsValue Unknown :=
  Serializer.mkCommand None None
    (Some (Serializer.mkCompleteWorkflowExecution (Some (VString "success"))))
    None None None None None.

Definition schedule_bigint : Serializer.Command JsValue Unknown :=
  Serializer.mkCommand
    (Some (Serializer.mkScheduleActivity "1" None (Some [VNumber 1; VBigInt 2])))
    None None None None None None None.

Definition start_timer : Serializer.Command JsValue Unknown :=
  Serializer.mkCommand None None None None None None None
    (Some (Serializer.StartTimer "1" 1000)).

Definition completion_of (cs : list (Serializer.Command JsValue Unknown))
  : Serializer.Completion JsValue Unknown :=
  Serializer.mkCompletion "run-1"
    (Some (Serializer.mkSuccess (Some (map Some cs)))) (UValue VUndefined).

(** One job of each kind, and an activation that lists them in the
    reverse of their processing order. *)
Definition patch_job : Scheduler.WFActivationJob :=
  Scheduler.mkJob (Some "my-patch") None None None.
Definition signal_job : Scheduler.WFActivationJob :=
  Scheduler.mkJob None (Some (Scheduler.mkSignalWorkflow "unblock" None)) None None.
Definition query_job : Scheduler.WFActivationJob :=
  Scheduler.mkJob None None (Some (Scheduler.mkQueryWorkflow "q1" "isBlocked" None)) None.
Definition timer_job : Scheduler.WFActivationJob :=
  Scheduler.mkJob None None None (Some (Scheduler.FireTimer "1")).

Definition reverse_order_activation : Scheduler.WFActivation :=
  Scheduler.mkActivation "run-1" None (Some [query_job; timer_job; signal_job; patch_job]).

(** A sandbox that records nothing and, when its activation concludes,
    hands over one [startTimer] command. *)
Definition ex_activate (s : unit) (d : list Scheduler.WFActivationJob) (i : nat)
  : unit * Result Exn nat := (s, Ok 0%nat).
Definition ex_tryUnblockConditions (s : unit) : unit * Result Exn nat := (s, Ok 0%nat).
Definition ex_concludeActivation (s : unit)
  : unit * Result Exn (Serializer.Completion JsValue Unknown) :=
  (s, Ok (completion_of [start_timer])).
Definition ex_deserializeActivation (a : Scheduler.WFActivation)
    (js : list Scheduler.WFActivationJob) : Result Exn (list Scheduler.WFActivationJob) :=
  Ok js.

Definition ex_workflow : Scheduler.VMWorkflow (AttachedFailure := unit) :=
  Scheduler.mkVMWorkflow (Some tt) false (UValue VUndefined) tt.

Definition ex_run (handlerCalls : list Unknown)
  : option (Scheduler.Activated (AttachedFailure := unit)) :=
  Scheduler.activate ex_activate ex_tryUnblockConditions ex_concludeActivation
    ex_deserializeActivation defaultDataConverter 1 ex_workflow
    reverse_order_activation handlerCalls.

(** A sandbox that keeps the batches it is activated with, each with its
    batch index, in the order of the calls. *)
Definition Recorded : Type := list (list Scheduler.WFActivationJob * nat).

Definition rec_activate (s : Recorded) (d : list Scheduler.WFActivationJob) (i : nat)
  : Recorded * Result Exn nat := ((s ++ [(d, i)])%list, Ok 0%nat).
Definition rec_tryUnblockConditions (s : Recorded) : Recorded * Result Exn nat :=
  (s, Ok 0%nat).
Definition rec_concludeActivation (s : Recorded)
  : Recorded * Result Exn (Serializer.Completion JsValue Unknown) :=
  (s, Ok (completion_of [start_timer])).

Definition rec_workflow
  : Scheduler.VMWorkflow (AttachedFailure := unit) (Sandbox := Recorded) :=
  Scheduler.mkVMWorkflow (Some tt) false (UValue VUndefined) [].

Definition rec_run : option (Scheduler.Activated (AttachedFailure := unit)) :=
  Scheduler.activate rec_activate rec_tryUnblockConditions rec_concludeActivation
    ex_deserializeActivation defaultDataConverter 1 rec_workflow
    reverse_order_activation [].

(** A runtime that knows promise [1], which is not cancellable, and
    promise [2], which is. *)
Definition ex_runtime : Cancel.Runtime (Promise := nat) (Scope := unit) :=
  Cancel.mkRuntime (fun promise =>
    if (promise =? 1)%nat then Some (Cancel.mkPromiseData tt false)
    else if (promise =? 2)%nat then Some (Cancel.mkPromiseData tt true)
    else None).

Definition ex_state : Cancel.State (Promise := nat) (Scope := unit) (Rest := unit) :=
  Cancel.mkState (Some ex_runtime) tt.

Definition ex_requestCancel (s : unit) (err : JsError) (r : unit)
  : unit * option Unknown := (r, None).

End Examples.

(** ** Predicates for the properties of the rest of the code *)

Module SpecMore.
Import Converter FailureConv.

Section ConverterSpecMore.
Context `{Platform}.

(** The value comes back from its payload. *)
Definition gives_back (dc : DataConverter) (v : JsValue) : Prop :=
  exists p, toPayload dc v = Ok p /\ fromPayload dc p = Ok v.

(** The constants that the protobuf codecs need: the text codec gives the
    two protobuf encoding names back, and the two metadata keys differ. *)
Definition protobuf_constants_ok : Prop :=
  str (u8 METADATA_ENCODING_PROTOBUF) = METADATA_ENCODING_PROTOBUF /\
  str (u8 METADATA_ENCODING_PROTOBUF_JSON) = METADATA_ENCODING_PROTOBUF_JSON /\
  METADATA_ENCODING_KEY <> METADATA_MESSAGE_TYPE_KEY.

(** A codec tags the payloads it produces with its own encoding name. *)
Definition tags_own_payloads (c : DataConverterWithEncoding) : Prop :=
  forall v p, toPayload (codec c) v = Ok p ->
    exists md, metadata p = Some md /\
               str_lookup md METADATA_ENCODING_KEY = encodingType c.

(** The result of an older converter as the newer interface reports it:
    [undefined] becomes an [UnsupportedTypeError]. *)
Definition thrown_for_undefined (r : Result Exn (option Payload))
  : Result Exn Payload :=
  match r with
  | Ok (Some p) => Ok p
  | Ok None => Err (Throw UnsupportedTypeError "")
  | Err e => Err e
  end.

End ConverterSpecMore.

Section FailureSpecMore.
Context `{Platform} {AttachedFailure : Type}.
Abbreviation JsError := (JsError (AttachedFailure := AttachedFailure)).
Abbreviation Unknown := (Unknown (AttachedFailure := AttachedFailure)).

(** The eight info fields of a failure message, in the order in which the
    common [failureToErrorInner] looks at them. *)
Inductive InfoKind : Type :=
| KApplication | KServer | KTimeout | KTerminated | KCanceled | KReset
| KChildWorkflow | KActivity.

Definition is_some {T} (o : option T) : bool :=
  match o with Some _ => true | None => false end.

(** The failure message carries the info. *)
Definition carries (f : Failure) (k : InfoKind) : bool :=
  match k with
  | KApplication => is_some (applicationFailureInfo f)
  | KServer => is_some (serverFailureInfo f)
  | KTimeout => is_some (timeoutFailureInfo f)
  | KTerminated => is_some (terminatedFailureInfo f)
  | KCanceled => is_some (canceledFailureInfo f)
  | KReset => is_some (resetWorkflowFailureInfo f)
  | KChildWorkflow => is_some (childWorkflowExecutionFailureInfo f)
  | KActivity => is_some (activityFailureInfo f)
  end.

(** The order in which the common [failureToErrorInner] looks at the
    infos, the order of the client's [failureToErrorInner], which has no
    child-workflow case, and the order of [serviceToCoreFailure]. *)
Definition common_order : list InfoKind :=
  [KApplication; KServer; KTimeout; KTerminated; KCanceled; KReset;
   KChildWorkflow; KActivity].
Definition client_order : list InfoKind :=
  [KApplication; KServer; KTimeout; KTerminated; KCanceled; KReset; KActivity].
Definition service_order : list InfoKind :=
  [KServer; KTimeout; KCanceled; KActivity; KTerminated; KApplication; KReset;
   KChildWorkflow].

(** The infos that a failure message carries. *)
Definition infos (f : Failure) : list InfoKind :=
  List.filter (carries f) common_order.

(** The info that stands for a variant of the taxonomy. *)
Definition kinds_of (v : Variant) : list InfoKind :=
  match v with
  | VarNone => []
  | VarServer => [KServer]
  | VarApplication => [KApplication]
  | VarCancelled => [KCanceled]
  | VarTerminated => [KTerminated]
  | VarTimeout => [KTimeout]
  | VarActivity => [KActivity]
  | VarChildWorkflow => [KChildWorkflow]
  end.

(** The variant that an info is rebuilt as; a reset comes back as an
    application failure. *)
Definition variant_of (k : option InfoKind) : Variant :=
  match k with
  | None => VarNone
  | Some KApplication | Some KReset => VarApplication
  | Some KServer => VarServer
  | Some KTimeout => VarTimeout
  | Some KTerminated => VarTerminated
  | Some KCanceled => VarCancelled
  | Some KChildWorkflow => VarChildWorkflow
  | Some KActivity => VarActivity
  end.

(** A failure message and its causes, outermost first. *)
Fixpoint failure_chain (f : Failure) : list Failure :=
  f :: match cause f with
       | Some cf => failure_chain cf
       | None => []
       end.

(** An error and its causes, outermost first. *)
Fixpoint error_chain (e : JsError) : list JsError :=
  e :: match e with
       | PlainError _ _ _ | TimeoutFailure _ _ _ _ => []
       | TemporalFailure _ c _ | ServerFailure _ _ c _
       | ApplicationFailure _ _ _ _ c _ | CancelledFailure _ _ c _
       | TerminatedFailure _ c _ | ActivityFailure _ _ _ _ c _
       | ChildWorkflowFailure _ _ _ _ c _ =>
           match c with
           | Some ce => error_chain ce
           | None => []
           end
       end.

(** No error of the chain carries an attached failure. *)
Definition no_attached (e : JsError) : Prop :=
  Forall (fun x => error_failure x = None) (error_chain e).

(** The activity and workflow types of the chain are not empty. *)
Definition types_named (e : JsError) : Prop :=
  Forall (fun x =>
            match x with
            | ActivityFailure a _ _ _ _ _ => a <> ""
            | ChildWorkflowFailure _ _ w _ _ _ => w <> ""
            | _ => True
            end) (error_chain e).

(** What [errorToFailure] writes for one error of a chain. *)
Definition written_for (x : JsError) (g : Failure) : Prop :=
  message g = Some (error_message x) /\
  stackTrace g = Some (cutoffStackTrace (error_stack x)) /\
  source g = Some FAILURE_SOURCE /\
  infos g = kinds_of (variant x).

(** What the client's [failureToError] gives for a failure message. *)
Definition client_shape `{!AttachedOps} (f : Failure) (e : JsError) : Prop :=
  error_stack e = Some (default "" (stackTrace f)) /\
  error_failure e = Some (serviceToCoreFailure f) /\
  variant e = variant_of (head (List.filter (carries f) client_order)) /\
  Forall (fun x => variant x <> VarChildWorkflow) (error_chain e) /\
  (length (error_chain e) <= length (failure_chain f))%nat /\
  (variant e = VarNone -> error_cause e = None).

(** A line that one of the cutoff patterns matches. *)
Definition cut_here (line : string) : bool :=
  existsb (fun pattern => pattern line) CUTTOFF_STACK_PATTERNS.

End FailureSpecMore.

Section CommonSpecMore.
Import FailureCommon.
Context `{Platform}.

(** How the fields read back through the common module: an empty detail
    list of an application failure as none, an absent detail list of a
    cancellation as the empty list, falsy heartbeat details as
    [undefined]. *)
Definition read_back_common (fs : Spec.Fields) : Spec.Fields :=
  match fs with
  | Spec.ApplicationFields t n d =>
      Spec.ApplicationFields t n (match d with Some (_ :: _) => d | _ => None end)
  | Spec.CancelledFields d => Spec.CancelledFields (Some (default [] d))
  | Spec.TimeoutFields l t =>
      Spec.TimeoutFields (if truthy l then l else VUndefined) t
  | _ => fs
  end.

(** An error comes back as an error of the same variant with the same
    message and the fields as they read back. *)
Definition comes_back (x y : JsError) : Prop :=
  variant y = variant x /\
  error_message y = error_message x /\
  Spec.fields y = read_back_common (Spec.fields x).

(** What the round trip through the common module gives for an error. *)
Definition round_trip_common `{!AttachedOps (AttachedFailure := DeserializedFailure)}
    (dc : DataConverter) (e : JsError) : Prop :=
  exists f d e',
    errorToFailure_error dc e = Ok f /\
    deserializeFailure f dc = Ok d /\
    failureToError d = Ok e' /\
    error_failure e' = Some d /\
    Forall2 comes_back (error_chain e) (error_chain e').

(** The decoded failure carries the info. *)
Definition d_carries (f : DeserializedFailure) (k : InfoKind) : bool :=
  match k with
  | KApplication => is_some (d_applicationFailureInfo f)
  | KServer => is_some (d_serverFailureInfo f)
  | KTimeout => is_some (d_timeoutFailureInfo f)
  | KTerminated => is_some (d_terminatedFailureInfo f)
  | KCanceled => is_some (d_canceledFailureInfo f)
  | KReset => is_some (d_resetWorkflowFailureInfo f)
  | KChildWorkflow => is_some (d_childWorkflowExecutionFailureInfo f)
  | KActivity => is_some (d_activityFailureInfo f)
  end.

(** The infos of a decoded failure. *)
Definition d_infos (f : DeserializedFailure) : list InfoKind :=
  List.filter (d_carries f) common_order.

(** A decoded failure and its causes, outermost first. *)
Fixpoint d_chain (f : DeserializedFailure) : list DeserializedFailure :=
  f :: match d_cause f with
       | Some cf => d_chain cf
       | None => []
       end.

(** Decoding changes payloads only. *)
Definition same_envelope (g : Failure) (d : DeserializedFailure) : Prop :=
  d_message d = message g /\
  d_stackTrace d = stackTrace g /\
  d_source d = source g /\
  d_infos d = infos g.

Fixpoint d_depth (f : DeserializedFailure) : nat :=
  S (match d_cause f with
     | Some cf => d_depth cf
     | None => 0
     end).

End CommonSpecMore.

Section ClientSpecMore.
Import ClientFailure.

Definition core_carries (f : CoreFailure) (k : InfoKind) : bool :=
  match k with
  | KApplication => is_some (core_applicationFailureInfo f)
  | KServer => is_some (core_serverFailureInfo f)
  | KTimeout => is_some (core_timeoutFailureInfo f)
  | KTerminated => is_some (core_terminatedFailureInfo f)
  | KCanceled => is_some (core_cancelledFailureInfo f)
  | KReset => is_some (core_resetWorkflowFailureInfo f)
  | KChildWorkflow => is_some (core_childWorkflowExecutionFailureInfo f)
  | KActivity => is_some (core_activityFailureInfo f)
  end.

(** The infos of a core failure. *)
Definition core_infos (f : CoreFailure) : list InfoKind :=
  List.filter (core_carries f) common_order.

Fixpoint core_chain (f : CoreFailure) : list CoreFailure :=
  f :: match core_cause f with
       | Some cf => core_chain cf
       | None => []
       end.

(** What [serviceToCoreFailure] keeps of one failure message: the
    envelope, and the first info in its own order. *)
Definition kept_in_core (g : Failure) (c : CoreFailure) : Prop :=
  core_message c = message g /\
  core_stackTrace c = stackTrace g /\
  core_source c = source g /\
  core_infos c = option_list (head (List.filter (carries g) service_order)).

End ClientSpecMore.

Section SerializerSpecMore.
Import Serializer.

(** Which of the sub-objects a command has. *)
Definition command_shape {A F} (c : Command A F) : list bool :=
  [ is_some (scheduleActivity c); is_some (respondToQuery c);
    is_some (completeWorkflowExecution c); is_some (failWorkflowExecution c);
    is_some (continueAsNewWorkflowExecution c);
    is_some (startChildWorkflowExecution c);
    is_some (signalExternalWorkflowExecution c) ].

(** An entry of the command list stays absent or keeps its sub-objects
    and its plain command. *)
Definition same_command {A F A' F'} (c : option (Command A F))
    (c' : option (Command A' F')) : Prop :=
  match c, c' with
  | None, None => True
  | Some x, Some y => command_shape y = command_shape x /\
                      plainCommand y = plainCommand x
  | _, _ => False
  end.

(** The command list of a completion, empty when there is none. *)
Definition commands_in {A F} (completion : Completion A F)
  : list (option (Command A F)) :=
  match successful completion with
  | Some s => default [] (commands s)
  | None => []
  end.

End SerializerSpecMore.

Section DeserializerSpec.
Import Deserializer.

(** Which of the sub-objects a job has. *)
Definition job_shape {A F} (j : Job A F) : list bool :=
  [ is_some (startWorkflow j); is_some (queryWorkflow j);
    is_some (cancelWorkflow j); is_some (signalWorkflow j);
    is_some (resolveActivity j); is_some (resolveChildWorkflowExecution j);
    is_some (resolveChildWorkflowExecutionStart j);
    is_some (resolveSignalExternalWorkflow j);
    is_some (resolveRequestCancelExternalWorkflow j) ].

(** A job keeps its sub-objects and what it carries besides payloads and
    failures. *)
Definition same_job {A F A' F'} (j : Job A F) (j' : Job A' F') : Prop :=
  job_shape j' = job_shape j /\ plainJob j' = plainJob j.

End DeserializerSpec.

Section CreateProjectSpec.
Import CreateProject.

(** An entry that does not stand in the way of a new project: one of the
    listed files, or an IntelliJ module file. *)
Definition harmless (file : string) : Prop :=
  In file validFiles \/
  exists stem, file = stem +:+ ".iml".

(** The entries that stand in the way of a new project: the entries that
    are not harmless, each of them, in the order of the listing. *)
Inductive conflicts_of : list string -> list string -> Prop :=
| conflicts_of_nil : conflicts_of [] []
| conflicts_of_harmless (file : string) (entries conflicts : list string) :
    harmless file -> conflicts_of entries conflicts ->
    conflicts_of (file :: entries) conflicts
| conflicts_of_conflict (file : string) (entries conflicts : list string) :
    ~ harmless file -> conflicts_of entries conflicts ->
    conflicts_of (file :: entries) (file :: conflicts).

(** The line printed for a conflicting entry: its name after two spaces,
    in blue and with a slash when it is known to be a directory. *)
Definition listed_as (blue : string -> string) (isDirectory : string -> option bool)
    (file line : string) : Prop :=
  match isDirectory file with
  | Some true => line = "  " +:+ blue file +:+ "/"
  | _ => line = "  " +:+ file
  end.

End CreateProjectSpec.

Section ConvertSpec.
Import FailureCommon Deserializer Convert.

(** What [convertFailuresToErrors] leaves of a job: the sub-objects
    without failures as they were, and of [resolveSignalExternalWorkflow]
    only the error; a resolution without failure leaves nothing. *)
Definition converted_from (j : Job JsValue DeserializedFailure) (j' : ConvertedJob)
  : Prop :=
  cj_startWorkflow j' = startWorkflow j /\
  cj_queryWorkflow j' = queryWorkflow j /\
  cj_cancelWorkflow j' = cancelWorkflow j /\
  cj_signalWorkflow j' = signalWorkflow j /\
  cj_plainJob j' = plainJob j /\
  is_some (cj_resolveActivity j') = is_some (resolveActivity j) /\
  is_some (cj_resolveChildWorkflowExecution j') =
    is_some (resolveChildWorkflowExecution j) /\
  is_some (cj_resolveChildWorkflowExecutionStart j') =
    is_some (resolveChildWorkflowExecutionStart j) /\
  is_some (cj_resolveRequestCancelExternalWorkflow j') =
    is_some (resolveRequestCancelExternalWorkflow j) /\
  is_some (cj_resolveSignalExternalWorkflow j') =
    is_some (mbind fp_failure (resolveSignalExternalWorkflow j)).

End ConvertSpec.

Section UuidSpec.
Import Uuid.

Definition is_hex (c : ascii) : bool :=
  existsb (Ascii.eqb c) (list_ascii_of_string "0123456789abcdef").

(** The [p] hexadecimal digits of [n], leading zeroes included. *)
Fixpoint hex_fixed (p : nat) (n : Z) : list ascii :=
  match p with
  | O => []
  | S p' => (hex_fixed p' (n / 16) ++ [hex_digit (n mod 16)])%list
  end.

(** The canonical text of a version 4, variant 1 UUID: five groups of 8,
    4, 4, 4 and 12 lower-case hexadecimal digits separated by hyphens, the
    third group starting with [4] and the fourth with [8], [9], [a] or
    [b]. *)
Definition uuid_v4_text (s : list ascii) : Prop :=
  exists g1 g2 g3 g4 g5 v,
    s = (g1 ++ "-"%char :: g2 ++ "-"%char :: ("4"%char :: g3) ++ "-"%char ::
         (v :: g4) ++ "-"%char :: g5)%list /\
    length g1 = 8%nat /\ length g2 = 4%nat /\ length g3 = 3%nat /\
    length g4 = 3%nat /\ length g5 = 12%nat /\
    Forall (fun c => is_hex c = true) (g1 ++ g2 ++ g3 ++ g4 ++ g5)%list /\
    In v (list_ascii_of_string "89ab").

End UuidSpec.

End SpecMore.

(** ** More concrete inputs on the reference platform *)

Module ExamplesMore.
Import Converter FailureConv FailureCommon Spec SpecMore Examples.
#[local] Existing Instance Reference.platform.
#[local] Existing Instance Reference.attached.

Definition two_values : list JsValue := [VNumber 1; VString "two"].

Definition two_payloads : list Payload :=
  [json_payload "1"; json_payload (Reference.quoted "two")].

(** A payload without metadata and without data. *)
Definition empty_payload : Payload := {| metadata := None; data := None |}.

(** The attached failures of the common module, for errors that carry
    none. *)
Definition decoded_attached : AttachedOps (AttachedFailure := DeserializedFailure) :=
  {| serializeFailure _ _ := Ok (base_failure None None None None);
     serviceToCoreFailure _ :=
       mkDeserializedFailure None None None None None None None None None None
         None None |}.

(** An activity failure caused by a child-workflow failure caused by an
    application failure with two detail values. *)
Definition nested_error : FailureCommon.JsError :=
  ActivityFailure "activity" (Some "1") 2 None
    (Some (ChildWorkflowFailure (Some "default")
             (mkWorkflowExecution (Some "child-1") (Some "run-2")) "childWorkflow" 2
             (Some (ApplicationFailure "test" (Some "type") true (Some two_values)
                      None (fresh None)))
             (fresh None)))
    (fresh None).

(** A failure message with a child-workflow info and a cause. *)
Definition child_failure_message : Failure :=
  mkFailure (Some "child failed") (Some "trace") (Some "TypeScriptSDK")
    (Some (base_failure (Some "root") None None None))
    None None None None None None None
    (Some {| cw_namespace := Some "default";
             cw_workflowExecution := Some (mkWorkflowExecution (Some "child-1") None);
             cw_workflowType := Some {| name := Some "childWorkflow" |};
             cw_retryState := Some 2%Z |}).

(** A workflow in which a rejection was recorded. *)
Definition rejected_workflow : Scheduler.VMWorkflow (AttachedFailure := unit) :=
  Scheduler.mkVMWorkflow (Some tt) false
    (UError (PlainError Error_ "unhandled" None)) tt.

Definition replaying_activation : Scheduler.WFActivation :=
  Scheduler.mkActivation "run-1" (Some true) (Some [timer_job]).

Definition run_on (w : Scheduler.VMWorkflow (AttachedFailure := unit))
    (activation : Scheduler.WFActivation)
  : option (Scheduler.Activated (AttachedFailure := unit)) :=
  Scheduler.activate ex_activate ex_tryUnblockConditions ex_concludeActivation
    ex_deserializeActivation defaultDataConverter 1 w activation [].

(** A scope that throws the error it is asked to cancel with. *)
Definition throwing_requestCancel (s : unit) (err : Examples.JsError) (r : unit)
  : unit * option Examples.Unknown := (r, Some (UError err)).

End ExamplesMore.
(* ===================================================================== *)
(** * Part II -- properties                                               *)
(* ===================================================================== *)

(** ** The error monad *)

Lemma bind_ok {E A B} (r : Result E A) (k : A -> Result E B) (b : B) :
  bind r k = Ok b -> exists a, r = Ok a /\ k a = Ok b.
Proof. destruct r as [a|e]; simpl; [eauto | discriminate]. Qed.

Lemma bind_err {E A B} (r : Result E A) (k : A -> Result E B) (e : E) :
  bind r k = Err e -> r = Err e \/ exists a, r = Ok a /\ k a = Err e.
Proof. destruct r as [a|e']; simpl; [eauto | intros [= ->]; auto]. Qed.

Lemma is_ok_bind {E A B} (r : Result E A) (k : A -> Result E B) :
  is_ok r = true -> (forall a, is_ok (k a) = true) -> is_ok (bind r k) = true.
Proof. destruct r as [a|e]; simpl; [auto | discriminate]. Qed.

Lemma mapM_ok_length {E A B} (f : A -> Result E B) (l : list A) (l' : list B) :
  mapM f l = Ok l' -> length l' = length l.
Proof.
  revert l'; induction l as [|x xs IH]; simpl; intros l' Hm.
  - by injection Hm as <-.
  - apply bind_ok in Hm as (y & _ & Hm).
    apply bind_ok in Hm as (ys & Hys & Hm).
    injection Hm as <-. simpl. f_equal. by apply IH.
Qed.

(** A map succeeds exactly when its callback succeeds on every element. *)
Lemma mapM_is_ok {E A B} (f : A -> Result E B) (l : list A) :
  is_ok (mapM f l) = forallb (fun x => is_ok (f x)) l.
Proof.
  induction l as [|x xs IH]; simpl; [done|].
  destruct (f x) as [y|e]; simpl; [|done].
  rewrite <- IH. by destruct (mapM f xs).
Qed.

(** ** The payload codec pipeline *)

Section ConverterProps.
Import Converter Spec.
Context `{Platform}.

(** *** [fromPayloads] *)

(** C10: [fromPayloads(i, p)] returns [undefined] without raising, whatever
    the converter, when [p] is absent or [i] is at least the length of [p];
    when [i] is in range it decodes the payload at [i]. *)
Theorem fromPayloads_guard (dc : DataConverter) (index : nat)
    (payloads : option (list Payload)) :
  (match payloads with
   | None => True
   | Some ps => (length ps <= index)%nat
   end -> fromPayloads dc index payloads = Ok VUndefined) /\
  (forall ps p, payloads = Some ps -> ps !! index = Some p ->
     fromPayloads dc index payloads = fromPayload dc p).
Proof.
  split.
  - destruct payloads as [ps|]; simpl; [|done].
    intros Hle. by apply Nat.leb_le in Hle as ->.
  - intros ps p -> Hp. simpl.
    apply lookup_lt_Some in Hp as Hlt.
    destruct (Nat.leb_spec (length ps) index) as [Hle|_]; [lia|].
    by rewrite Hp.
Qed.

(** *** [CompositeDataConverter.toPayload] *)

Lemma toPayload_loop_skip (pre rest : list DataConverterWithEncoding) (v : JsValue) :
  Forall (unsupported v) pre ->
  toPayload_loop (pre ++ rest) v = toPayload_loop rest v.
Proof.
  induction 1 as [|c pre (e & He & Hc) _ IH]; simpl; [done|].
  by rewrite He, Hc.
Qed.

(** C5, amended: [toPayload] tries the codecs in their declared order,
    passing over those that throw [UnsupportedTypeError]; it returns the
    payload of the first codec that accepts the value, re-throws the error
    of the first codec that throws anything else, and raises a [ValueError]
    when every codec throws [UnsupportedTypeError]. *)
Theorem toPayload_first_decisive (cs : list DataConverterWithEncoding) (v : JsValue) :
  (forall pre c post p,
     cs = (pre ++ c :: post)%list -> Forall (unsupported v) pre ->
     toPayload (codec c) v = Ok p ->
     composite_toPayload (new_CompositeDataConverter cs) v = Ok p) /\
  (forall pre c post e,
     cs = (pre ++ c :: post)%list -> Forall (unsupported v) pre ->
     toPayload (codec c) v = Err e -> exn_class e <> UnsupportedTypeError ->
     composite_toPayload (new_CompositeDataConverter cs) v = Err e) /\
  (Forall (unsupported v) cs ->
     composite_toPayload (new_CompositeDataConverter cs) v =
       Err (Throw ValueError ("Cannot serialize " +:+ String_of v))).
Proof.
  unfold composite_toPayload; simpl. repeat split.
  - intros pre c post p -> Hpre Hc.
    rewrite toPayload_loop_skip by done. simpl. by rewrite Hc.
  - intros pre c post e -> Hpre Hc Hne.
    rewrite toPayload_loop_skip by done. simpl. rewrite Hc.
    by destruct (exn_class e).
  - intros Hall. rewrite <- (app_nil_r cs).
    by rewrite toPayload_loop_skip.
Qed.

(** *** [CompositeDataConverter.fromPayload] *)

Abbreviation by_encoding cs :=
  (fold_left (fun m c => <[ encodingType c := c ]> m) cs).

Lemma by_encoding_absent (cs : list DataConverterWithEncoding)
    (m : gmap string DataConverterWithEncoding) (k : string) :
  (forall c, c ∈ cs -> encodingType c <> k) ->
  by_encoding cs m !! k = m !! k.
Proof.
  revert m; induction cs as [|c cs IH]; intros m Hne; simpl; [done|].
  rewrite IH.
  - apply lookup_insert_ne, Hne. by left.
  - intros c' Hc'. apply Hne. by right.
Qed.

Lemma by_encoding_last (pre post : list DataConverterWithEncoding)
    (c : DataConverterWithEncoding) (m : gmap string DataConverterWithEncoding) :
  (forall c', c' ∈ post -> encodingType c' <> encodingType c) ->
  by_encoding (pre ++ c :: post) m !! encodingType c = Some c.
Proof.
  intros Hpost. rewrite fold_left_app. simpl.
  rewrite by_encoding_absent by done. apply lookup_insert_eq.
Qed.

Lemma by_encoding_unique (cs : list DataConverterWithEncoding)
    (c : DataConverterWithEncoding) (m : gmap string DataConverterWithEncoding) :
  NoDup (encodingType <$> cs) -> c ∈ cs ->
  by_encoding cs m !! encodingType c = Some c.
Proof.
  intros Hnd Hc.
  apply list_elem_of_split in Hc as (pre & post & ->).
  apply by_encoding_last. intros c' Hc' Heq.
  rewrite fmap_app, fmap_cons in Hnd.
  apply NoDup_app in Hnd as (_ & _ & Hnd).
  apply NoDup_cons in Hnd as [Hnotin _].
  apply Hnotin. rewrite <- Heq. by apply list_elem_of_fmap_2.
Qed.

(** C4: [fromPayload] raises a [ValueError] when the payload has no
    metadata or when no codec of the chain has the name that the encoding
    key gives; otherwise it hands the payload to the codec of that name,
    whatever the order of the chain and whatever the payload's data. *)
Theorem fromPayload_routes_by_encoding (cs : list DataConverterWithEncoding)
    (payload : Payload) :
  (metadata payload = None ->
     composite_fromPayload (new_CompositeDataConverter cs) payload =
       Err (Throw ValueError "Missing payload metadata")) /\
  (forall md, metadata payload = Some md ->
     (forall c, c ∈ cs -> encodingType c <> str_lookup md METADATA_ENCODING_KEY) ->
     composite_fromPayload (new_CompositeDataConverter cs) payload =
       Err (Throw ValueError
              ("Unknown encoding: " +:+ str_lookup md METADATA_ENCODING_KEY))) /\
  (forall md c, metadata payload = Some md ->
     NoDup (encodingType <$> cs) -> c ∈ cs ->
     encodingType c = str_lookup md METADATA_ENCODING_KEY ->
     forall cs' d, cs' ≡ₚ cs ->
       composite_fromPayload (new_CompositeDataConverter cs')
         {| metadata := Some md; data := d |} =
       fromPayload (codec c) {| metadata := Some md; data := d |}).
Proof.
  unfold composite_fromPayload; simpl. repeat split.
  - by intros ->.
  - intros md -> Hne. rewrite by_encoding_absent by done.
    by rewrite lookup_empty.
  - intros md c _ Hnd Hc Hname cs' d Hperm.
    rewrite <- Hname, by_encoding_unique; [done| |].
    + by rewrite Hperm.
    + by rewrite Hperm.
Qed.

(** The four codecs ahead of the JSON codec in the default chain pass
    over everything but [undefined], binary buffers and messages. *)
Lemma unsupported_by_prefix (root : option Root) (v : JsValue) :
  v <> VUndefined -> (forall b, v <> VUint8Array b) -> isProtobufMessage v = false ->
  Forall (unsupported v)
    [ UndefinedDataConverter; BinaryDataConverter;
      ProtobufJsonDataConverter root; ProtobufBinaryDataConverter root ].
Proof.
  intros Hu Hb Hm.
  destruct v as [| | b0 | n | n | s0 | b0 | l | fs | t fs];
    try done; try (by destruct (Hb b0));
    repeat (apply Forall_cons; split; [eexists; split; reflexivity|]);
    by apply Forall_nil.
Qed.

(** With several codecs of one name, the payload goes to the last. *)
Lemma fromPayload_last_of_name (pre post : list DataConverterWithEncoding)
    (c : DataConverterWithEncoding) (md : gmap string bytes) (d : option bytes) :
  encodingType c = str_lookup md METADATA_ENCODING_KEY ->
  (forall c', c' ∈ post -> encodingType c' <> encodingType c) ->
  composite_fromPayload (new_CompositeDataConverter (pre ++ c :: post))
    {| metadata := Some md; data := d |} =
  fromPayload (codec c) {| metadata := Some md; data := d |}.
Proof.
  intros Hname Hpost. unfold composite_fromPayload; simpl.
  by rewrite <- Hname, by_encoding_last.
Qed.

(** *** Round trip through the default chain *)

(** Encoding by trial and decoding by tag agree: when the first codec
    that does not pass over [v] accepts it, tags the payload with its own
    name, and is followed by no codec of that name, the chain decodes the
    payload with that same codec. *)
Lemma composite_round_trip_last (pre post : list DataConverterWithEncoding)
    (c : DataConverterWithEncoding) (v : JsValue) (p : Payload)
    (md : gmap string bytes) :
  Forall (unsupported v) pre ->
  toPayload (codec c) v = Ok p ->
  metadata p = Some md ->
  str_lookup md METADATA_ENCODING_KEY = encodingType c ->
  (forall c', c' ∈ post -> encodingType c' <> encodingType c) ->
  fromPayload (codec c) p = Ok v ->
  round_trips (pre ++ c :: post) v.
Proof.
  intros Hpre Hc Hmd Htag Hpost Hback. exists p. split.
  - simpl. unfold composite_toPayload. simpl.
    rewrite toPayload_loop_skip by done. simpl. by rewrite Hc.
  - destruct p as [m d]. simpl in Hmd. subst m.
    change (composite_fromPayload (new_CompositeDataConverter (pre ++ c :: post))
              {| metadata := Some md; data := d |} = Ok v).
    by rewrite fromPayload_last_of_name.
Qed.

(** C3, amended: a binary buffer, a JSON-serializable structure and
    [undefined] each encode to a payload that decodes to the same value,
    through every chain in which the codec of the value's kind (the binary
    codec, the JSON codec, the undefined codec) is the first codec that
    does not pass over the value, and is followed by no codec of its
    encoding name. *)
Theorem codec_round_trip (pre post : list DataConverterWithEncoding) (v : JsValue) :
  encoding_constants_ok ->
  round_trip_kind v ->
  Forall (unsupported v) pre ->
  (forall c, c ∈ post -> encodingType c <> encodingType (codec_of_kind v)) ->
  round_trips (pre ++ codec_of_kind v :: post) v.
Proof.
  intros (Hnull & Hraw & Hjson & _) Hv Hpre Hpost.
  (* the codec of the kind accepts the value, tags the payload with its
     own name and decodes the payload to the value *)
  assert (exists p md,
            toPayload (codec (codec_of_kind v)) v = Ok p /\
            metadata p = Some md /\
            str_lookup md METADATA_ENCODING_KEY = encodingType (codec_of_kind v) /\
            fromPayload (codec (codec_of_kind v)) p = Ok v)
    as (p & md & Hto & Hmd & Htag & Hback).
  { destruct Hv as [-> | [[b ->] | (Hundef & Hbin & Hmsg & s & Hs & Hparse)]].
    - do 2 eexists. simpl. repeat split.
      by unfold str_lookup; rewrite lookup_singleton_eq.
    - do 2 eexists. simpl. repeat split.
      by unfold str_lookup; rewrite lookup_singleton_eq.
    - exists {| metadata := Some {[ METADATA_ENCODING_KEY := KEY_ENCODING_JSON ]};
                data := Some (u8 s) |},
             {[ METADATA_ENCODING_KEY := KEY_ENCODING_JSON ]}.
      destruct v as [| | b0 | n | n | s0 | b0 | l | fs | t fs];
        try done; try (by destruct (Hbin b0));
        simpl; rewrite Hs; simpl; (repeat split; [|done]);
        by unfold str_lookup; rewrite lookup_singleton_eq. }
  (* the chain encodes with it, as the codecs before it pass over the
     value, and decodes with it, as no codec after it has its name *)
  by eapply composite_round_trip_last.
Qed.

(** *** Protobuf payloads and the type registry *)

(** A payload that has data and declares a message type gets past the two
    [ValueError] checks of [validatePayload] and of [fromDataSync]. *)
Lemma validatePayload_declared (root : option Root) (p : Payload)
    (typeName : string) :
  declares_type p typeName ->
  exists d,
    data p = Some d /\
    validatePayload root p =
      match root with
      | None =>
          Err (Throw DataConverterError
                 "Unable to deserialize protobuf message without `root` being provided")
      | Some r =>
          match lookupType r typeName with
          | Ok messageType => Ok (messageType, d)
          | Err e =>
              if includes "no such type" (exn_message e) then
                Err (Throw DataConverterError
                       ("Got a `" +:+ typeName +:+
                        "` protobuf message but cannot find corresponding message class in `root`"))
              else Err e
          end
      end.
Proof.
  intros ([d Hd] & md & Hmd & Hkey & Hname). exists d. split; [done|].
  unfold validatePayload. rewrite Hd, Hmd.
  rewrite bool_decide_eq_true_2 by done. simpl.
  destruct root as [r|]; [|done]. by rewrite Hname.
Qed.

(** What the two protobuf codecs report: a missing registry, and a lookup
    that throws an error which says [no such type], give a
    [DataConverterError]. *)
Lemma lookup_failure_is_reported (root : option Root) (p : Payload)
    (typeName : string) :
  declares_type p typeName ->
  match root with
  | None => True
  | Some r => exists e, lookupType r typeName = Err e /\
                        includes "no such type" (exn_message e) = true
  end ->
  exists m,
    fromPayload (codec (ProtobufBinaryDataConverter root)) p =
      Err (Throw DataConverterError m) /\
    fromPayload (codec (ProtobufJsonDataConverter root)) p =
      Err (Throw DataConverterError m).
Proof.
  intros Hp Hroot.
  destruct (validatePayload_declared root p typeName Hp) as (d & _ & Hv).
  simpl. rewrite Hv. destruct root as [r|]; [|by eexists].
  destruct Hroot as (e & -> & ->). by eexists.
Qed.

(** What the older converter reports: a missing object of classes, and a
    name under which the object has no member, its own or inherited. *)
Lemma missing_member_is_reported (protobufClasses : option Classes) (p : Payload)
    (typeName : string) :
  declares_type p typeName ->
  match protobufClasses with
  | None => True
  | Some classes => get_member classes typeName = None
  end ->
  exists m, fromDataSync protobufClasses p = Err (Throw DataConverterError m).
Proof.
  intros ([d Hd] & md & Hmd & Hkey & Hname) Hclasses.
  unfold fromDataSync. rewrite Hd, Hmd.
  rewrite bool_decide_eq_true_2 by done. simpl.
  destruct protobufClasses as [classes|]; [|by eexists].
  rewrite Hname, Hclasses. by eexists.
Qed.

End ConverterProps.

(** *** The pipeline on concrete inputs *)

Section ConverterExamples.
Import Converter Spec Examples.
#[local] Existing Instance Reference.platform.

Lemma reference_constants_ok : encoding_constants_ok.
Proof.
  repeat split; try reflexivity.
  apply (bool_decide_unpack _). by vm_compute.
Qed.

Lemma fromPayloads_guard_witness :
  fromPayloads failing_converter 1 (Some [json_payload "1"]) = Ok VUndefined /\
  fromPayloads failing_converter 0 None = Ok VUndefined /\
  fromPayloads defaultDataConverter 0 (Some [json_payload "1"]) =
    fromPayload defaultDataConverter (json_payload "1").
Proof.
  split; [|split].
  - apply (proj1 (fromPayloads_guard failing_converter 1 (Some [json_payload "1"]))).
    simpl. lia.
  - by apply (proj1 (fromPayloads_guard failing_converter 0 None)).
  - by apply (proj2 (fromPayloads_guard defaultDataConverter 0
                       (Some [json_payload "1"])) [json_payload "1"]).
Defined.

(** C5, as the specification states it, fails on the default chain: no
    codec accepts a [BigInt], and [toPayload] raises the [TypeError] of
    [JSON.stringify], not a [ValueError]. *)
Lemma toPayload_as_specified_fails :
  ~ toPayload_as_specified (default_chain None) (VBigInt 1) /\
  first_accepted (default_chain None) (VBigInt 1) = None /\
  (forall p, composite_toPayload (DefaultDataConverter None) (VBigInt 1) <> Ok p) /\
  (forall msg, composite_toPayload (DefaultDataConverter None) (VBigInt 1) <>
                 Err (Throw ValueError msg)).
Proof.
  repeat split.
  - unfold toPayload_as_specified.
    change (first_accepted (default_chain None) (VBigInt 1)) with (@None Payload).
    intros [msg Hmsg]. vm_compute in Hmsg. discriminate Hmsg.
  - intros p Hp. vm_compute in Hp. discriminate Hp.
  - intros msg Hmsg. vm_compute in Hmsg. discriminate Hmsg.
Qed.

Lemma toPayload_first_decisive_witness :
  composite_toPayload (DefaultDataConverter None) (VString "success") =
    Ok (json_payload (Reference.quoted "success")) /\
  composite_toPayload (DefaultDataConverter None) (VBigInt 1) =
    Err (Throw TypeError "Do not know how to serialize a BigInt").
Proof.
  split.
  - apply (proj1 (toPayload_first_decisive (default_chain None) (VString "success"))
             [ UndefinedDataConverter; BinaryDataConverter;
               ProtobufJsonDataConverter None; ProtobufBinaryDataConverter None ]
             JsonDataConverter [] (json_payload (Reference.quoted "success")) eq_refl).
    + by apply (unsupported_by_prefix None).
    + reflexivity.
  - apply (proj1 (proj2 (toPayload_first_decisive (default_chain None) (VBigInt 1)))
             [ UndefinedDataConverter; BinaryDataConverter;
               ProtobufJsonDataConverter None; ProtobufBinaryDataConverter None ]
             JsonDataConverter [] _ eq_refl).
    + by apply (unsupported_by_prefix None).
    + reflexivity.
    + discriminate.
Defined.

Lemma fromPayload_routes_by_encoding_witness :
  composite_fromPayload
    (new_CompositeDataConverter (reverse (default_chain None))) (json_payload "1")
  = fromPayload (codec JsonDataConverter) (json_payload "1").
Proof.
  apply (proj2 (proj2 (fromPayload_routes_by_encoding (default_chain None)
                         (json_payload "1")))
           {[ "encoding" := list_byte_of_string "json/plain" ]} JsonDataConverter
           eq_refl).
  - apply reference_constants_ok.
  - set_solver.
  - reflexivity.
  - apply reverse_Permutation.
Defined.

(** C3, as the specification states it, fails on a chain that has the
    JSON codec ahead of the binary codec: the JSON codec is the first to
    accept a binary buffer, and the payload it makes decodes to an object
    with the indices of the buffer as keys.  It fails as well on a chain
    in which a second codec of the name of the binary codec follows it:
    the buffer is encoded by the first and its payload handed to the
    second. *)
Lemma round_trip_as_specified_fails :
  ~ round_trip_as_specified
      [ JsonDataConverter; BinaryDataConverter; UndefinedDataConverter ]
      (VUint8Array [Byte.x01]) /\
  toPayload (as_DataConverter (new_CompositeDataConverter
               [ JsonDataConverter; BinaryDataConverter; UndefinedDataConverter ]))
    (VUint8Array [Byte.x01]) =
    Ok (json_payload ("{" +:+ Reference.quoted "0" +:+ ":1}")) /\
  fromPayload (as_DataConverter (new_CompositeDataConverter
                 [ JsonDataConverter; BinaryDataConverter; UndefinedDataConverter ]))
    (json_payload ("{" +:+ Reference.quoted "0" +:+ ":1}")) =
    Ok (VObject [("0", VNumber 1)]) /\
  ~ round_trip_as_specified [ BinaryDataConverter; deaf_binary ]
      (VUint8Array [Byte.x01]).
Proof.
  split; [|split; [|split]]; [|vm_compute; reflexivity..|].
  - intros Hclaim. destruct Hclaim as (p & Hto & Hfrom).
    + exists BinaryDataConverter. eexists. split; [set_solver|reflexivity].
    + right; left. by eexists.
    + vm_compute in Hto. injection Hto as <-.
      vm_compute in Hfrom. discriminate Hfrom.
  - intros Hclaim. destruct Hclaim as (p & Hto & Hfrom).
    + exists BinaryDataConverter. eexists. split; [set_solver|reflexivity].
    + right; left. by eexists.
    + vm_compute in Hto. injection Hto as <-.
      vm_compute in Hfrom. discriminate Hfrom.
Qed.

Lemma codec_round_trip_witness :
  round_trips (default_chain (Some foo_root)) (VString "two") /\
  round_trips [ BinaryDataConverter; JsonDataConverter; UndefinedDataConverter ]
    (VUint8Array [Byte.x01]).
Proof.
  split.
  - apply (codec_round_trip
             [ UndefinedDataConverter; BinaryDataConverter;
               ProtobufJsonDataConverter (Some foo_root);
               ProtobufBinaryDataConverter (Some foo_root) ] []
             (VString "two") reference_constants_ok).
    + right; right. repeat split; try done.
      exists (Reference.quoted "two"). by split.
    + by apply (unsupported_by_prefix (Some foo_root)).
    + intros c Hc. by apply elem_of_nil in Hc.
  - apply (codec_round_trip [] [ JsonDataConverter; UndefinedDataConverter ]
             (VUint8Array [Byte.x01]) reference_constants_ok).
    + right; left. by eexists.
    + by apply Forall_nil.
    + intros c Hc. apply elem_of_cons in Hc as [->|Hc]; [done|].
      apply elem_of_cons in Hc as [->|Hc]; [done|]. by apply elem_of_nil in Hc.
Defined.

(** C8, the code on the failing inputs.  No registry holds a message type
    named by the empty path or by a lone dot, yet protobufjs answers the
    lookup of either with the root itself, and [validatePayload] lets the
    payload through: the binary codec then throws a [TypeError], and the
    JSON codec returns [null] for the data [null].  The older converter
    finds the members [toString] and [constructor], which every object
    inherits, under the declared name, and throws a [TypeError] as well.
    The absent type [Bar] gets the [DataConverterError] from all three. *)
Theorem unregistered_type_escapes_the_report :
  Forall (fun typeName =>
            declares_type (typed_payload "binary/protobuf" typeName "null") typeName /\
            unregistered (Some foo_root) typeName /\
            fromPayload (codec (ProtobufBinaryDataConverter (Some foo_root)))
              (typed_payload "binary/protobuf" typeName "null") =
              Err (Throw TypeError "messageType.decode is not a function") /\
            fromPayload (codec (ProtobufJsonDataConverter (Some foo_root)))
              (typed_payload "json/protobuf" typeName "null") = Ok VNull)
    [ ""; "." ] /\
  Forall (fun typeName =>
            declares_type (typed_payload "binary/protobuf" typeName "null") typeName /\
            unregistered_class (Some foo_classes) typeName /\
            fromDataSync (Some foo_classes)
              (typed_payload "binary/protobuf" typeName "null") =
              Err (Throw TypeError "messageClass.decode is not a function"))
    [ "toString"; "constructor" ] /\
  declares_type (typed_payload "binary/protobuf" "Bar" "null") "Bar" /\
  unregistered (Some foo_root) "Bar" /\
  unregistered_class (Some foo_classes) "Bar" /\
  fromPayload (codec (ProtobufBinaryDataConverter (Some foo_root)))
    (typed_payload "binary/protobuf" "Bar" "null") =
    Err (Throw DataConverterError
           "Got a `Bar` protobuf message but cannot find corresponding message class in `root`") /\
  fromPayload (codec (ProtobufJsonDataConverter (Some foo_root)))
    (typed_payload "json/protobuf" "Bar" "null") =
    Err (Throw DataConverterError
           "Got a `Bar` protobuf message but cannot find corresponding message class in `root`") /\
  fromDataSync (Some foo_classes) (typed_payload "binary/protobuf" "Bar" "null") =
    Err (Throw DataConverterError
           "Got a `Bar` protobuf message but cannot find corresponding message class in protobufClasses").
Proof.
  assert (forall typeName encoding,
            declares_type (typed_payload encoding typeName "null") typeName) as Hdecl.
  { intros typeName encoding. split; [by eexists|].
    eexists. split; [reflexivity|]. split.
    - exists (list_byte_of_string typeName). apply lookup_insert_eq.
    - unfold str_lookup. simpl. rewrite lookup_insert_eq. simpl.
      apply string_of_list_byte_of_string. }
  split; [|split; [|split; [|split; [|split]]]].
  - repeat (apply Forall_cons; split;
            [split; [apply Hdecl|]; split;
             [intros t Ht; vm_compute in Ht; discriminate Ht|];
             split; vm_compute; reflexivity|]).
    by apply Forall_nil.
  - repeat (apply Forall_cons; split;
            [split; [apply Hdecl|]; split; vm_compute; reflexivity|]).
    by apply Forall_nil.
  - apply Hdecl.
  - intros t Ht. vm_compute in Ht. discriminate Ht.
  - vm_compute. reflexivity.
  - repeat split; vm_compute; reflexivity.
Qed.

End ConverterExamples.

(** ** The completion serializer *)

Section SerializerProps.
Import Converter FailureConv Serializer.
Context `{Platform} `{AttachedOps}.
Abbreviation JsError := (JsError (AttachedFailure := AttachedFailure)).
Abbreviation Unknown := (Unknown (AttachedFailure := AttachedFailure)).
Variable dataConverter : DataConverter.

(** Each field task of a sub-object succeeded, so the sub-object is
    rebuilt. *)
Local Ltac fields_ok :=
  repeat match goal with
         | Hok : is_ok match bind ?r _ with _ => _ end = true |- _ =>
             destruct r; simpl in Hok; [|discriminate Hok]
         end;
  simpl; reflexivity.

Lemma Promise_all_rejects (promises : list (Result Exn unit)) (e : Exn) :
  In (Err e) promises ->
  exists e' pre post,
    promises = (pre ++ Err e' :: post)%list /\
    Forall (fun t => is_ok t = true) pre /\
    Promise_all promises = Err e'.
Proof.
  induction promises as [|[u|e0] rest IH]; simpl; [done| |].
  - intros [Hin|Hin]; [discriminate|].
    destruct (IH Hin) as (e' & pre & post & -> & Hpre & Hall).
    exists e', (Ok u :: pre), post. repeat split; [|done].
    by apply Forall_cons.
  - intros _. exists e0, [], rest. by repeat split.
Qed.

Lemma Promise_all_fulfils (promises : list (Result Exn unit)) :
  Forall (fun t => is_ok t = true) promises -> Promise_all promises = Ok tt.
Proof.
  induction 1 as [|[u|e0] rest Hx _ IH]; simpl; [done|done|discriminate].
Qed.

Lemma serializeCommand_fulfils (command : Command JsValue Unknown) :
  Forall (fun t => is_ok t = true) (command_tasks dataConverter command) ->
  is_ok (serializeCommand dataConverter command) = true.
Proof.
  unfold command_tasks, task, outcome, on_present, serializeCommand.
  intros Hall. repeat (apply Forall_cons in Hall as [? Hall]). clear Hall.
  destruct command as [sa rq cw fw can sc se pl]; simpl in *.
  repeat (apply is_ok_bind; [|intros ?]); [..|done].
  - destruct sa as [sa|]; simpl in *; [|done]. fields_ok.
  - destruct rq as [[qid [su|] fl]|]; simpl in *; [| |done]; fields_ok.
  - destruct cw as [cw|]; simpl in *; [|done]. fields_ok.
  - destruct fw as [fw|]; simpl in *; [|done]. fields_ok.
  - destruct can as [can|]; simpl in *; [|done]. fields_ok.
  - destruct sc as [sc|]; simpl in *; [|done]. fields_ok.
  - destruct se as [se|]; simpl in *; [|done]. fields_ok.
Qed.

Lemma serialized_fulfils (completion : Completion JsValue Unknown) :
  Forall (fun t => is_ok t = true) (completion_tasks dataConverter completion) ->
  is_ok (serialized dataConverter completion) = true.
Proof.
  unfold completion_tasks, commands_of, serialized, on_present.
  intros Hall. apply Forall_app in Hall as [Hcs Hf].
  apply Forall_cons in Hf as [Hf _].
  assert (forall cs : list (option (Command JsValue Unknown)),
            Forall (fun t => is_ok t = true)
              (flat_map (fun command => match command with
                                        | Some c => command_tasks dataConverter c
                                        | None => []
                                        end) cs) ->
            is_ok (mapM (fun command =>
                           match command with
                           | Some o =>
                               let* c := serializeCommand dataConverter (id o) in
                               Ok (Some c)
                           | None => Ok None
                           end) cs) = true) as Hmap.
  { intros cs Hok. rewrite mapM_is_ok. apply forallb_forall.
    intros [c|] Hin; [|done].
    assert (Forall (fun t => is_ok t = true) (command_tasks dataConverter c)) as Hc.
    { apply Forall_forall. intros t Ht.
      rewrite Forall_forall in Hok. apply Hok.
      apply list_elem_of_In, in_flat_map. exists (Some c).
      split; [done|]. by apply list_elem_of_In. }
    apply serializeCommand_fulfils in Hc.
    unfold id. by destruct (serializeCommand dataConverter c). }
  destruct (serializeFailureField dataConverter (failed completion)); [|done].
  destruct (successful completion) as [[[cs|]]|]; simpl in *; try done.
  specialize (Hmap cs Hcs). unfold id.
  by destruct (mapM _ cs).
Qed.

(** C6: when the encoding of any payload-bearing or failure-bearing field
    fails, [serializeCompletion] fails with the error of a failing field
    (with that error when it is the only one) and returns no completion;
    when every field encodes, it returns the encoded completion. *)
Theorem serializeCompletion_atomic (completion : Completion JsValue Unknown) :
  (forall e, In (Err e) (completion_tasks dataConverter completion) ->
     (exists e', In (Err e') (completion_tasks dataConverter completion) /\
                 serializeCompletion dataConverter completion = Err e') /\
     ((forall e', In (Err e') (completion_tasks dataConverter completion) -> e' = e) ->
      serializeCompletion dataConverter completion = Err e)) /\
  (Forall (fun t => is_ok t = true) (completion_tasks dataConverter completion) ->
     exists c, serializeCompletion dataConverter completion = Ok c).
Proof.
  split.
  - intros e He.
    destruct (Promise_all_rejects _ _ He) as (e' & pre & post & Heq & _ & Hall).
    assert (In (Err e') (completion_tasks dataConverter completion)) as He'.
    { rewrite Heq. apply in_or_app. right. by left. }
    assert (serializeCompletion dataConverter completion = Err e') as Hs.
    { unfold serializeCompletion. by rewrite Hall. }
    split; [by exists e'|].
    intros Huniq. by rewrite <- (Huniq e' He').
  - intros Hall. unfold serializeCompletion.
    rewrite Promise_all_fulfils by done. simpl.
    apply serialized_fulfils in Hall.
    destruct (serialized dataConverter completion) as [c|]; [by exists c|done].
Qed.

(** A value that the converter cannot encode, in the arguments of a
    [scheduleActivity] command, is a failing field. *)
Lemma failing_argument_is_failing_task (completion : Completion JsValue Unknown)
    (command : Command JsValue Unknown) (sa : ScheduleActivity JsValue)
    (args : list JsValue) :
  In (Some command) (commands_of completion) ->
  scheduleActivity command = Some sa -> sa_arguments sa = Some args ->
  is_ok (mapM (toPayload dataConverter) args) = false ->
  exists e, In (Err e) (completion_tasks dataConverter completion).
Proof.
  intros Hin Hsa Hargs Hfail.
  destruct (mapM (toPayload dataConverter) args) as [ps|e] eqn:Hm; [done|].
  exists e. unfold completion_tasks. apply in_or_app. left.
  apply in_flat_map. exists (Some command). split; [done|].
  unfold command_tasks. right; left.
  unfold task, on_present, outcome. rewrite Hsa; simpl. rewrite Hargs; simpl.
  by rewrite Hm.
Qed.

End SerializerProps.

Section SerializerExamples.
Import Converter FailureConv Serializer Examples.
#[local] Existing Instance Reference.platform.
#[local] Existing Instance Reference.attached.

Lemma serializeCompletion_atomic_witness :
  serializeCompletion defaultDataConverter
    (completion_of [complete_success; schedule_bigint]) =
  Err (Throw TypeError "Do not know how to serialize a BigInt").
Proof.
  apply (proj1 (serializeCompletion_atomic defaultDataConverter
                  (completion_of [complete_success; schedule_bigint]))
           (Throw TypeError "Do not know how to serialize a BigInt")).
  - vm_compute. repeat (first [left; reflexivity | right]).
  - intros e' He'. vm_compute in He'.
    repeat (destruct He' as [He'|He']; [try discriminate He'|]);
      try contradiction.
    by injection He' as <-.
Defined.

End SerializerExamples.

(** ** Cancellation *)

Section CancelProps.
Import FailureConv Cancel Spec.
Context {AttachedFailure : Type}.
Abbreviation JsError := (JsError (AttachedFailure := AttachedFailure)).
Abbreviation Unknown := (Unknown (AttachedFailure := AttachedFailure)).
Context {Promise Scope Rest : Type}.
Variable requestCancel : Scope -> JsError -> Rest -> Rest * option Unknown.

(** C9: [cancel] on a promise for which the runtime has no scope data, or
    whose data is marked not cancellable, throws a plain [Error], which is
    outside the failure taxonomy, and leaves the state as it was. *)
Theorem cancel_programming_error (st : State (Promise := Promise) (Scope := Scope))
    (rt : Runtime) (promise : Promise) (reason : string) :
  runtime st = Some rt ->
  (getPromiseData rt promise = None \/
   exists data, getPromiseData rt promise = Some data /\ cancellable data = false) ->
  exists msg,
    cancel requestCancel st promise reason =
      (st, Err (UError (PlainError Error_ msg None))) /\
    is_TemporalFailure (UError (PlainError Error_ msg None) : Unknown) = false.
Proof.
  intros Hrt Hdata. unfold cancel. rewrite Hrt.
  destruct Hdata as [-> | (data & -> & Hc)].
  - by eexists.
  - rewrite Hc. by eexists.
Qed.

End CancelProps.

Section CancelExamples.
Import FailureConv Cancel Spec Examples.

Lemma cancel_programming_error_witness :
  exists msg,
    cancel ex_requestCancel ex_state 1 "Cancelled" =
      (ex_state, Err (UError (PlainError Error_ msg None))) /\
    is_TemporalFailure (UError (PlainError Error_ msg None) : Unknown) = false.
Proof.
  apply (cancel_programming_error ex_requestCancel ex_state ex_runtime 1 "Cancelled").
  - reflexivity.
  - right. by eexists.
Defined.

End CancelExamples.

(** ** The activation scheduler *)

Section PartitionProps.
Import Scheduler Spec.

Lemma filter_twice {T} (p q : T -> bool) (l : list T) :
  List.filter p (List.filter q l) = List.filter (fun x => q x && p x) l.
Proof.
  induction l as [|x l IH]; simpl; [done|].
  destruct (q x); simpl; [|done]. destruct (p x); simpl; by rewrite IH.
Qed.

(** The four sub-batches that [activate] builds with [partition] are the
    jobs of rank 0, 1, 2 and 3. *)
Lemma batches_of_ranked (js : list WFActivationJob) :
  batches_of js = ordered_batches js.
Proof.
  unfold batches_of, ordered_batches, sub_batch, partition.
  rewrite !filter_twice.
  f_equal; [|f_equal; [|f_equal; [|f_equal]]]; try done;
    apply filter_ext; intros j; unfold job_rank;
    by destruct (non_null (notifyHasPatch j)), (non_null (signalWorkflow j)),
               (non_null (queryWorkflow j)).
Qed.

Lemma job_rank_bound (j : WFActivationJob) : (job_rank j <= 3)%nat.
Proof.
  unfold job_rank.
  destruct (non_null (notifyHasPatch j)), (non_null (signalWorkflow j)),
           (non_null (queryWorkflow j)); lia.
Qed.

Lemma sub_batch_rank (k : nat) (js : list WFActivationJob) :
  Forall (fun j => job_rank j = k) (sub_batch k js).
Proof.
  apply Forall_forall. intros j Hj.
  apply list_elem_of_In, filter_In in Hj as [_ Hj]. by apply Nat.eqb_eq.
Qed.

(** The sub-batches hold the same jobs whatever the order of arrival. *)
Lemma sub_batch_Permutation (k : nat) (js js' : list WFActivationJob) :
  js' ≡ₚ js -> sub_batch k js' ≡ₚ sub_batch k js.
Proof.
  unfold sub_batch. induction 1 as [|x l l' _ IH|x y l|l l' l'' _ IH1 _ IH2]; simpl.
  - done.
  - destruct (job_rank x =? k)%nat; [by f_equiv|done].
  - destruct (job_rank x =? k)%nat, (job_rank y =? k)%nat; try done.
    apply perm_swap.
  - by etrans.
Qed.

(** Taken together the sub-batches are the jobs of the activation. *)
Lemma ordered_batches_Permutation (js : list WFActivationJob) :
  concat (ordered_batches js) ≡ₚ js.
Proof.
  unfold ordered_batches, sub_batch. simpl. rewrite app_nil_r.
  induction js as [|j js IH]; simpl; [done|].
  pose proof (job_rank_bound j) as Hb.
  destruct (job_rank j) as [|[|[|[|n]]]]; simpl; try lia.
  - by f_equiv.
  - rewrite <- Permutation_middle. by f_equiv.
  - rewrite app_assoc, <- Permutation_middle, <- app_assoc. by f_equiv.
  - rewrite !app_assoc, <- Permutation_middle, <- !app_assoc. by f_equiv.
Qed.

Lemma same_rank_sorted (k : nat) (l : list WFActivationJob) :
  Forall (fun j => job_rank j = k) l ->
  StronglySorted (fun a b => (job_rank a <= job_rank b)%nat) l.
Proof.
  induction 1 as [|x l Hx Hl IH]; constructor; [done|].
  eapply Forall_impl; [exact Hl|]. simpl. intros y Hy. lia.
Qed.

Lemma sorted_app (l1 l2 : list WFActivationJob) :
  StronglySorted (fun a b => (job_rank a <= job_rank b)%nat) l1 ->
  StronglySorted (fun a b => (job_rank a <= job_rank b)%nat) l2 ->
  (forall a b, a ∈ l1 -> b ∈ l2 -> (job_rank a <= job_rank b)%nat) ->
  StronglySorted (fun a b => (job_rank a <= job_rank b)%nat) (l1 ++ l2).
Proof.
  induction 1 as [|x l1 Hs IH Hx]; simpl; intros H2 Hle; [done|].
  constructor.
  - apply IH; [done|]. intros a b Ha Hb. apply Hle; [by right|done].
  - apply Forall_app; split; [done|].
    apply Forall_forall. intros b Hb. apply Hle; [by left|done].
Qed.

(** In processing order, no job comes before a job of lower rank. *)
Lemma ordered_batches_sorted (js : list WFActivationJob) :
  StronglySorted (fun a b => (job_rank a <= job_rank b)%nat)
    (concat (ordered_batches js)).
Proof.
  unfold ordered_batches. simpl. rewrite app_nil_r.
  pose proof (sub_batch_rank 0 js) as H0. pose proof (sub_batch_rank 1 js) as H1.
  pose proof (sub_batch_rank 2 js) as H2. pose proof (sub_batch_rank 3 js) as H3.
  repeat apply sorted_app; try (by eapply same_rank_sorted);
    intros a b Ha Hb; rewrite ?elem_of_app in Hb;
    rewrite Forall_forall in H0, H1, H2, H3;
    repeat match goal with
           | Hin : _ \/ _ |- _ => destruct Hin as [Hin|Hin]
           | Hin : ?x ∈ sub_batch ?k js, Hall : forall x, x ∈ sub_batch ?k js -> _ |- _ =>
               apply Hall in Hin
           end; lia.
Qed.

End PartitionProps.

Section SchedulerProps.
Import Converter FailureConv Serializer Scheduler Spec.
Context `{Platform} `{AttachedOps}.
Abbreviation JsError := (JsError (AttachedFailure := AttachedFailure)).
Abbreviation Unknown := (Unknown (AttachedFailure := AttachedFailure)).
Context {Sandbox Decoded : Type}.
Variable wm_activate : Sandbox -> Decoded -> nat -> Sandbox * Result Exn nat.
Variable wm_tryUnblockConditions : Sandbox -> Sandbox * Result Exn nat.
Variable wm_concludeActivation :
  Sandbox -> Sandbox * Result Exn (Completion JsValue Unknown).
Variable deserializeActivation : WFActivation -> list WFActivationJob -> Result Exn Decoded.
Variable dataConverter : DataConverter.

Abbreviation batch_loop' :=
  (batch_loop wm_activate wm_tryUnblockConditions deserializeActivation).
Abbreviation activate' :=
  (activate wm_activate wm_tryUnblockConditions wm_concludeActivation
     deserializeActivation dataConverter).

(** The loop applies the non-empty batches in their order, numbering them
    from its batch index; it stops early only on an error. *)
Lemma batch_loop_applied (fuel : nat) (activation : WFActivation)
    (bs : list (list WFActivationJob)) :
  forall (i : nat) (s : Sandbox) (applied : Applied) s' applied' r,
    batch_loop' fuel activation bs i s applied = Some (s', applied', r) ->
    exists done,
      applied' = (applied ++ done)%list /\
      done `prefix_of` numbered i bs /\
      (is_ok r = true -> done = numbered i bs).
Proof.
  induction bs as [|b bs IH]; simpl; intros i s applied s' applied' r Hrun.
  - injection Hrun as <- <- <-. exists []. by rewrite app_nil_r.
  - destruct (length b =? 0)%nat; [by apply IH in Hrun|].
    destruct (deserializeActivation activation b) as [d|e].
    2:{ injection Hrun as <- <- <-. exists []. rewrite app_nil_r.
        repeat split; [apply prefix_nil | done]. }
    destruct (wm_activate s d i) as [s1 [n|e]].
    2:{ injection Hrun as <- <- <-. exists [(b, i)].
        repeat split; [by apply prefix_cons, prefix_nil | done]. }
    destruct (if (0 <? n)%nat then tryUnblockConditions wm_tryUnblockConditions fuel s1
              else Some (s1, Ok tt)) as [[s2 [u|e]]|]; [| |done].
    + apply IH in Hrun as (done & -> & Hpre & Hall).
      exists ((b, i) :: done). rewrite <- app_assoc. simpl.
      repeat split; [by apply prefix_cons|]. intros Hok. by rewrite Hall.
    + injection Hrun as <- <- <-. exists [(b, i)].
      repeat split; [by apply prefix_cons, prefix_nil | done].
Qed.

(** What the loop does to the sandbox: it feeds it the non-empty batches
    in their order, numbered from its batch index, each on the state that
    the batch before left, and stops at the first that fails. *)
Lemma batch_loop_feeds (fuel : nat) (activation : WFActivation)
    (bs : list (list WFActivationJob)) :
  forall (i : nat) (s : Sandbox) (applied : Applied) s' applied' r,
    batch_loop' fuel activation bs i s applied = Some (s', applied', r) ->
    feed_all wm_activate wm_tryUnblockConditions deserializeActivation
      fuel activation s (numbered i bs) = Some (s', r).
Proof.
  induction bs as [|b bs IH]; simpl; intros i s applied s' applied' r Hrun.
  - by injection Hrun as <- <- <-.
  - destruct (length b =? 0)%nat; [by apply IH in Hrun|].
    simpl. unfold feed. simpl.
    destruct (deserializeActivation activation b) as [d|e];
      [|by injection Hrun as <- <- <-].
    destruct (wm_activate s d i) as [s1 [n|e]];
      [|by injection Hrun as <- <- <-].
    destruct (if (0 <? n)%nat then tryUnblockConditions wm_tryUnblockConditions fuel s1
              else Some (s1, Ok tt)) as [[s2 [u|e]]|]; [| |done].
    + by apply IH in Hrun.
    + by injection Hrun as <- <- <-.
Qed.

(** Recording an unhandled rejection leaves the sandbox as it is. *)
Lemma setUnhandledRejection_sandbox (handlerCalls : list Unknown)
    (w : VMWorkflow (AttachedFailure := AttachedFailure) (Sandbox := Sandbox)) :
  sandbox (fold_left setUnhandledRejection handlerCalls w) = sandbox w.
Proof.
  revert w; induction handlerCalls as [|err rest IH]; intros w; simpl; [done|].
  by rewrite IH.
Qed.

(** The loop returns whenever the unblocking loop does. *)
Lemma batch_loop_returns (fuel : nat) (activation : WFActivation)
    (bs : list (list WFActivationJob)) :
  (forall s, is_Some (tryUnblockConditions wm_tryUnblockConditions fuel s)) ->
  forall (i : nat) (s : Sandbox) (applied : Applied),
    is_Some (batch_loop' fuel activation bs i s applied).
Proof.
  intros Hfuel. induction bs as [|b bs IH]; simpl; intros i s applied; [done|].
  destruct (length b =? 0)%nat; [done|].
  destruct (deserializeActivation activation b) as [d|e]; [|done].
  destruct (wm_activate s d i) as [s1 [n|e]]; [|done].
  destruct (0 <? n)%nat; [|done].
  destruct (Hfuel s1) as [[s2 [u|e]] ->]; done.
Qed.

(** [activate] returns whenever the unblocking loop does. *)
Lemma activate_returns (fuel : nat) (w : VMWorkflow) (activation : WFActivation)
    (handlerCalls : list Unknown) :
  (forall s, is_Some (tryUnblockConditions wm_tryUnblockConditions fuel s)) ->
  is_Some (activate' fuel w activation handlerCalls).
Proof.
  intros Hfuel. unfold activate.
  destruct (context w); [|done].
  destruct (jobs activation) as [js|]; [|done].
  match goal with
  | |- context [batch_loop _ _ _ ?f ?a ?bs ?i ?s ?l] =>
      destruct (batch_loop_returns f a bs Hfuel i s l) as [[[s1 applied] [?|?]] ->]
  end; [|done].
  by destruct (wm_concludeActivation s1) as [s2 [completion|e]].
Qed.

(** C1: [activate] applies the jobs of an activation in four sub-batches,
    patch notifications, then signals, then the remaining non-query jobs,
    then queries: the batches handed to the sandbox are, in this order and
    with consecutive batch indices, the non-empty ones among the four (all
    of them when [activate] returns a completion).  What each sub-batch
    holds does not depend on the order of arrival, and no job is applied
    before a job of an earlier sub-batch.  The state in which [activate]
    leaves the sandbox is the one that results from decoding these batches
    and activating the sandbox with them one after the other, up to the
    first failure, which [activate] throws, and from concluding the
    activation when none fails; without a context the sandbox is left
    alone. *)
Theorem activate_job_order (fuel : nat) (w : VMWorkflow)
    (activation : WFActivation) (js : list WFActivationJob)
    (handlerCalls : list Unknown) (run : Activated) :
  jobs activation = Some js ->
  activate' fuel w activation handlerCalls = Some run ->
  applied_batches run `prefix_of` numbered 0 (ordered_batches js) /\
  (is_ok (returned run) = true ->
     applied_batches run = numbered 0 (ordered_batches js)) /\
  (forall js' k, js' ≡ₚ js -> sub_batch k js' ≡ₚ sub_batch k js) /\
  concat (ordered_batches js) ≡ₚ js /\
  StronglySorted (fun a b => (job_rank a <= job_rank b)%nat)
    (concat (ordered_batches js)) /\
  match context w with
  | None => sandbox (workflow run) = sandbox w /\ applied_batches run = []
  | Some _ =>
      exists s r,
        feed_all wm_activate wm_tryUnblockConditions deserializeActivation
          fuel activation (sandbox w) (numbered 0 (ordered_batches js)) = Some (s, r) /\
        match r with
        | Ok _ => sandbox (workflow run) = (wm_concludeActivation s).1
        | Err e => sandbox (workflow run) = s /\ returned run = Err e
        end
  end.
Proof.
  intros Hjs Hrun.
  split; [|split; [|split; [|split; [|split]]]].
  3: intros js' k; apply sub_batch_Permutation.
  3: apply ordered_batches_Permutation.
  3: apply ordered_batches_sorted.
  all: unfold activate in Hrun; rewrite Hjs, batches_of_ranked in Hrun;
    destruct (context w);
    [|injection Hrun as <-; simpl; first [apply prefix_nil|done]];
    destruct (batch_loop' _ _ _ _ _ _) as [[[s1 applied] r]|] eqn:Hloop; [|done];
    pose proof (batch_loop_feeds _ _ _ _ _ _ _ _ _ Hloop) as Hfed;
    apply batch_loop_applied in Hloop as (done & -> & Hpre & Hall); simpl in *.
  - destruct r as [?|?]; [|by injection Hrun as <-].
    destruct (wm_concludeActivation s1) as [s2 [c|e]]; by injection Hrun as <-.
  - destruct r as [?|?]; [|by injection Hrun as <-].
    intros _. destruct (wm_concludeActivation s1) as [s2 [c|e]];
      injection Hrun as <-; by apply Hall.
  - exists s1, r. split; [exact Hfed|].
    destruct r as [?|e]; [|by injection Hrun as <-].
    destruct (wm_concludeActivation s1) as [s2 [c|e]];
      injection Hrun as <-; simpl; [|done].
    by rewrite setUnhandledRejection_sandbox.
Qed.

(** When a truthy value sits in [unhandledRejection] as [activate]
    completes, the completion it returns is the failed one, made from that
    value by [errorToFailure]. *)
Lemma activate_unhandled_rejection (fuel : nat) (w : VMWorkflow)
    (activation : WFActivation) (handlerCalls : list Unknown) (run : Activated)
    (c : ActivationCompletion) :
  activate' fuel w activation handlerCalls = Some run ->
  returned run = Ok c ->
  truthy_unknown (unhandledRejection (workflow run)) = true ->
  exists f,
    errorToFailure dataConverter (unhandledRejection (workflow run)) = Ok f /\
    c = FailedCompletion (wa_runId activation) f.
Proof.
  unfold activate. intros Hrun Hret Htruthy.
  destruct (context w); [|by injection Hrun as <-].
  destruct (jobs activation) as [js|]; [|by injection Hrun as <-].
  destruct (batch_loop' _ _ _ _ _ _) as [[[s1 applied] [?|?]]|]; [| |done].
  2: by injection Hrun as <-.
  destruct (wm_concludeActivation s1) as [s2 [completion|e]];
    [|by injection Hrun as <-].
  injection Hrun as <-. simpl in *. rewrite Htruthy in Hret.
  apply bind_ok in Hret as (f & Hf & Hret). exists f. split; [done|].
  by injection Hret as <-.
Qed.

End SchedulerProps.

Section SchedulerExamples.
Import Converter FailureConv Serializer Scheduler Spec Examples.
#[local] Existing Instance Reference.platform.
#[local] Existing Instance Reference.attached.

Lemma activate_job_order_witness :
  exists run,
    rec_run = Some run /\
    applied_batches run =
      [([patch_job], 0); ([signal_job], 1); ([timer_job], 2); ([query_job], 3)]%nat /\
    sandbox (workflow run) =
      [([patch_job], 0); ([signal_job], 1); ([timer_job], 2); ([query_job], 3)]%nat.
Proof.
  eexists. split; [vm_compute; reflexivity|].
  pose proof (activate_job_order rec_activate rec_tryUnblockConditions
                rec_concludeActivation ex_deserializeActivation
                defaultDataConverter 1 rec_workflow reverse_order_activation
                [query_job; timer_job; signal_job; patch_job] [] _
                eq_refl ltac:(vm_compute; reflexivity))
    as (_ & Happlied & _ & _ & _ & s & r & Hfed & Hsandbox).
  split; [by apply Happlied|].
  vm_compute in Hfed. injection Hfed as <- <-. exact Hsandbox.
Defined.

(** C7, the code on the failing input: an unhandled rejection whose reason
    is [undefined], [null], [0], [false] or the empty string is recorded
    through [setUnhandledRejection] while the activation waits, and
    [activate] returns the successful completion with the [startTimer]
    command that the activation accumulated, as if nothing had been
    recorded. *)
Theorem falsy_rejection_is_dropped :
  Forall (fun reason =>
            option_map returned (ex_run [UValue reason]) =
              option_map returned (ex_run []) /\
            option_map returned (ex_run [UValue reason]) =
              Some (Ok (SerializedCompletion
                          (mkCompletion "run-1"
                             (Some (mkSuccess
                                      (Some [Some (mkCommand None None None None None
                                                     None None
                                                     (Some (StartTimer "1" 1000)))])))
                             (inl (UValue VUndefined))))))
    [VUndefined; VNull; VNumber 0; VBool false; VString ""] /\
  option_map returned (ex_run [UValue (VString "boom")]) =
    Some (Ok (FailedCompletion "run-1"
                (base_failure (Some "boom") None (Some FAILURE_SOURCE) None))).
Proof.
  split; [|vm_compute; reflexivity].
  repeat (apply Forall_cons; split; [split; vm_compute; reflexivity|]).
  by apply Forall_nil.
Qed.

End SchedulerExamples.

(** ** The failure mapping *)

Section FailureProps.
Import Converter FailureConv Spec.
Context `{Platform} `{AttachedOps}.
Abbreviation JsError := (JsError (AttachedFailure := AttachedFailure)).
Variable dc : DataConverter.

(** Induction along the cause chain. *)
Lemma cause_chain_ind (P : JsError -> Prop) :
  (forall e, (forall c, error_cause e = Some c -> P c) -> P e) ->
  forall e, P e.
Proof.
  intros Hstep. fix IH 1. intros e. apply Hstep.
  destruct e as [cls m stk | m c p | m n c p | m t n d c p | m d c p | m c p
                | m l t p | a i r d c p | n x w r c p];
    simpl; intros c' Hc; try discriminate Hc;
    (destruct c as [ce|]; [|discriminate Hc]);
    injection Hc as <-; apply IH.
Qed.









End FailureProps.

Section FailureExamples.
Import Converter FailureConv Spec Examples.
#[local] Existing Instance Reference.platform.
#[local] Existing Instance Reference.attached.




End FailureExamples.

(* ===================================================================== *)
(** * Part II, continued -- further properties of the code                *)
(* ===================================================================== *)

(** ** Batches of payloads *)

Section BatchProps.
Import Converter Spec SpecMore.
Variable dc : DataConverter.

Lemma mapM_Forall2 {E A B} (f : A -> Result E B) (l : list A) (l' : list B) :
  mapM f l = Ok l' <-> Forall2 (fun x y => f x = Ok y) l l'.
Proof.
  revert l'; induction l as [|x xs IH]; simpl; intros l'.
  - split; [by intros [= <-]; constructor | by inversion 1].
  - split.
    + intros Hm. apply bind_ok in Hm as (y & Hy & Hm).
      apply bind_ok in Hm as (ys & Hys & [= <-]).
      constructor; [done | by apply IH].
    + inversion 1 as [|? y ? ys Hy Hys]; subst.
      apply IH in Hys. by rewrite Hy, Hys.
Qed.

Lemma mapM_first_error {E A B} (f : A -> Result E B) (pre post : list A)
    (x : A) (e : E) :
  Forall (fun a => is_ok (f a) = true) pre -> f x = Err e ->
  mapM f (pre ++ x :: post) = Err e.
Proof.
  induction 1 as [|a pre Ha _ IH]; simpl; intros Hx; [by rewrite Hx|].
  destruct (f a); [|done]. simpl. by rewrite IH.
Qed.

Lemma mapM_error_source {E A B} (f : A -> Result E B) (l : list A) (e : E) :
  mapM f l = Err e -> exists a, In a l /\ f a = Err e.
Proof.
  induction l as [|x xs IH]; simpl; [discriminate|].
  destruct (f x) as [y|e'] eqn:Hx; simpl.
  - destruct (mapM f xs) as [ys|e'']; simpl; [discriminate|].
    intros [= <-]. destruct (IH eq_refl) as (a & Ha & Hfa). eauto.
  - intros [= <-]. eauto.
Qed.

(** X1: [toPayloads] gives [undefined] for no values; otherwise it gives one
    payload per value, in order, and the first value that fails to encode
    makes the whole call fail with its error. *)
Theorem toPayloads_shape (values : list JsValue) :
  (values = [] -> toPayloads dc values = Ok None) /\
  (forall r, toPayloads dc values = Ok r ->
     match r with
     | None => values = []
     | Some ps => values <> [] /\
                  Forall2 (fun v p => toPayload dc v = Ok p) values ps
     end) /\
  (forall pre v post e,
     values = (pre ++ v :: post)%list ->
     Forall (fun x => is_ok (toPayload dc x) = true) pre ->
     toPayload dc v = Err e ->
     toPayloads dc values = Err e).
Proof.
  repeat split.
  - by intros ->.
  - intros r Hr. destruct values as [|v vs]; [by injection Hr as <-|].
    unfold toPayloads in Hr. apply bind_ok in Hr as (ps & Hps & [= <-]).
    split; [done|]. by apply mapM_Forall2.
  - intros pre v post e -> Hpre Hv.
    assert (mapM (toPayload dc) (pre ++ v :: post) = Err e) as Hm
      by by apply mapM_first_error.
    unfold toPayloads. rewrite Hm. by destruct pre.
Qed.

Lemma mapM_gives_back (values : list JsValue) :
  Forall (gives_back dc) values ->
  exists ps, mapM (toPayload dc) values = Ok ps /\
             mapM (fromPayload dc) ps = Ok values.
Proof.
  induction 1 as [|v vs (p & Hto & Hfrom) _ (ps & Hps & Hback)].
  - by exists [].
  - exists (p :: ps). simpl. by rewrite Hto, Hps, Hfrom, Hback.
Qed.

(** X2: A list of values that the converter gives back one by one comes back
    whole from [arrayFromPayloads] after [toPayloads]; the empty list goes
    through [undefined] and comes back empty. *)
Theorem arrayFromPayloads_toPayloads (values : list JsValue) :
  Forall (gives_back dc) values ->
  exists r, toPayloads dc values = Ok r /\ arrayFromPayloads dc r = Ok values.
Proof.
  intros Hall. destruct (mapM_gives_back values Hall) as (ps & Hps & Hback).
  destruct values as [|v vs]; [by exists None|].
  exists (Some ps). unfold toPayloads. by rewrite Hps.
Qed.

(** X3: After [toPayloads], [fromPayloads] at an index gives the value at that
    index, and [undefined] past the end: reading an argument that was never
    sent is not an error. *)
Theorem fromPayloads_toPayloads (values : list JsValue) (index : nat) :
  Forall (gives_back dc) values ->
  exists r, toPayloads dc values = Ok r /\
            fromPayloads dc index r = Ok (default VUndefined (values !! index)).
Proof.
  intros Hall. destruct (mapM_gives_back values Hall) as (ps & Hps & Hback).
  destruct values as [|v vs]; [by exists None|].
  exists (Some ps). unfold toPayloads. rewrite Hps. split; [done|].
  apply mapM_Forall2 in Hps, Hback. simpl.
  pose proof (Forall2_length _ _ _ Hps) as Hlen.
  destruct (Nat.leb_spec (length ps) index) as [Hge|Hlt].
  - by rewrite lookup_ge_None_2 by lia.
  - destruct (lookup_lt_is_Some_2 ps index Hlt) as [p Hp]. rewrite Hp.
    destruct (Forall2_lookup_l _ _ _ _ _ Hback Hp) as (v' & Hv' & Hfrom).
    by rewrite Hv'.
Qed.

(** X4: [mapToPayloads] keeps the keys and their order, and pairs each key
    with the payload of its value. *)
Theorem mapToPayloads_keys (source : list (string * JsValue))
    (r : list (string * Payload)) :
  mapToPayloads dc source = Ok r ->
  r.*1 = source.*1 /\
  Forall2 (fun kv kp => toPayload dc kv.2 = Ok kp.2) source r.
Proof.
  unfold mapToPayloads. intros Hm. apply mapM_Forall2 in Hm.
  induction Hm as [|[k v] [k' p] source r Hkv _ [IH1 IH2]]; [done|].
  apply bind_ok in Hkv as (p' & Hp' & [= <- <-]).
  split; [rewrite !fmap_cons; by f_equal | by constructor].
Qed.

End BatchProps.

(** ** More on the codecs and the chain *)

Section CodecMoreProps.
Import Converter Spec SpecMore.
Context `{Platform}.

Lemma toPayload_loop_ok (cs : list DataConverterWithEncoding) (v : JsValue)
    (p : Payload) :
  toPayload_loop cs v = Ok p ->
  exists c, c ∈ cs /\ toPayload (codec c) v = Ok p.
Proof.
  induction cs as [|c cs IH]; simpl; [done|].
  destruct (toPayload (codec c) v) as [p'|e] eqn:Hc.
  - intros [= <-]. exists c. split; [by left|done].
  - destruct (exn_class e); try done.
    intros Hrest. destruct (IH Hrest) as (c' & Hin & Hc').
    exists c'. split; [by right|done].
Qed.

(** X5: Whatever [toPayload] of a chain throws, it is not an
    [UnsupportedTypeError]: that error never leaves the chain. *)
Theorem toPayload_never_unsupported (cs : list DataConverterWithEncoding)
    (v : JsValue) (e : Exn) :
  composite_toPayload (new_CompositeDataConverter cs) v = Err e ->
  exn_class e <> UnsupportedTypeError.
Proof.
  unfold composite_toPayload; simpl.
  induction cs as [|c cs IH]; simpl; [by intros [= <-]|].
  destruct (toPayload (codec c) v) as [p'|e0]; [done|].
  destruct (exn_class e0) eqn:Hc; try (by intros [= <-]; rewrite Hc).
  exact IH.
Qed.

Lemma constructPayload_tag (encoding typeName : string) (message : bytes) :
  METADATA_ENCODING_KEY <> METADATA_MESSAGE_TYPE_KEY ->
  exists md,
    metadata (constructPayload encoding typeName message) = Some md /\
    str_lookup md METADATA_ENCODING_KEY = str (u8 encoding) /\
    md !! METADATA_MESSAGE_TYPE_KEY = Some (u8 typeName).
Proof.
  intros Hne. eexists. split; [reflexivity|]. unfold str_lookup.
  rewrite lookup_insert_ne by done.
  by rewrite lookup_singleton_eq, lookup_insert_eq.
Qed.

(** Each codec of the default chain tags its payloads with its own name. *)
Lemma default_chain_tags (root : option Root) :
  encoding_constants_ok -> protobuf_constants_ok ->
  Forall tags_own_payloads (default_chain root).
Proof.
  intros (Hnull & Hraw & Hjson & _) (Hpb & Hpj & Hne).
  repeat (apply Forall_cons; split); [..|by apply Forall_nil];
    intros v p Hv.
  - destruct v; try discriminate Hv. injection Hv as <-.
    eexists; split; [reflexivity|]. unfold str_lookup.
    by rewrite lookup_singleton_eq.
  - destruct v; try discriminate Hv. injection Hv as <-.
    eexists; split; [reflexivity|]. unfold str_lookup.
    by rewrite lookup_singleton_eq.
  - destruct v as [| | | | | | | | | t fs]; try discriminate Hv. simpl in Hv.
    apply bind_ok in Hv as (s & _ & [= <-]).
    destruct (constructPayload_tag METADATA_ENCODING_PROTOBUF_JSON t (u8 s) Hne)
      as (md & Hmd & Htag & _).
    exists md. by rewrite Htag.
  - destruct v as [| | | | | | | | | t fs]; try discriminate Hv.
    injection Hv as <-.
    destruct (constructPayload_tag METADATA_ENCODING_PROTOBUF t
                (proto_encode t fs) Hne) as (md & Hmd & Htag & _).
    exists md. by rewrite Htag.
  - assert (exists s, p = {| metadata := Some {[ METADATA_ENCODING_KEY := KEY_ENCODING_JSON ]};
                              data := Some (u8 s) |}) as [s ->].
    { destruct v as [| | | | | ? | | | |]; try discriminate Hv; simpl in Hv;
        apply bind_ok in Hv as (js & _ & [= <-]); by exists js. }
    eexists; split; [reflexivity|]. unfold str_lookup.
    by rewrite lookup_singleton_eq.
Qed.

(** X6: Every payload that the default chain produces routes back to the codec
    that produced it: decoding it never stops at missing metadata or an
    unknown encoding. *)
Theorem encoded_payload_routes_back (root : option Root) (v : JsValue)
    (p : Payload) :
  encoding_constants_ok -> protobuf_constants_ok ->
  toPayload (as_DataConverter (DefaultDataConverter root)) v = Ok p ->
  exists c,
    c ∈ default_chain root /\
    toPayload (codec c) v = Ok p /\
    fromPayload (as_DataConverter (DefaultDataConverter root)) p =
      fromPayload (codec c) p.
Proof.
  intros Hk Hpk Hv.
  change (toPayload_loop (default_chain root) v = Ok p) in Hv.
  apply toPayload_loop_ok in Hv as (c & Hin & Hc).
  exists c. split; [done|]. split; [done|].
  pose proof (default_chain_tags root Hk Hpk) as Htags.
  rewrite Forall_forall in Htags.
  destruct (Htags c Hin v p Hc) as (md & Hmd & Htag).
  change (composite_fromPayload (DefaultDataConverter root) p =
          fromPayload (codec c) p).
  unfold composite_fromPayload. rewrite Hmd, Htag.
  unfold DefaultDataConverter, new_CompositeDataConverter.
  cbn [converterByEncoding].
  destruct Hk as (_ & _ & _ & Hnd). by rewrite by_encoding_unique.
Qed.

(** X7: A protobuf message whose type is registered comes back from the
    binary protobuf codec as the registered type decodes its encoding, and
    from the JSON protobuf codec as the registered type reads its JSON; the
    default chain encodes a message with the JSON protobuf codec, which
    comes before the binary one. *)
Theorem protobuf_message_round_trip (root : Root) (T : ProtoType)
    (typeName : string) (fs : list (string * JsValue)) :
  protobuf_constants_ok -> str (u8 typeName) = typeName ->
  lookupType root typeName = Ok (ReflectedType T) ->
  (exists p,
     toPayload (codec (ProtobufBinaryDataConverter (Some root)))
       (VMessage typeName fs) = Ok p /\
     fromPayload (codec (ProtobufBinaryDataConverter (Some root))) p =
       pt_decode T (proto_encode typeName fs)) /\
  (forall s, JSON_stringify (toProto3JSON typeName fs) = Ok s ->
     exists p,
       toPayload (codec (ProtobufJsonDataConverter (Some root)))
         (VMessage typeName fs) = Ok p /\
       toPayload (as_DataConverter (DefaultDataConverter (Some root)))
         (VMessage typeName fs) = Ok p /\
       fromPayload (codec (ProtobufJsonDataConverter (Some root))) p =
         (let* j := JSON_parse (str (u8 s)) in pt_fromJSON T j)).
Proof.
  intros (_ & _ & Hne) Hname Hroot.
  assert (forall encoding message,
            validatePayload (Some root) (constructPayload encoding typeName message)
            = Ok (ReflectedType T, message)) as Hvalid.
  { intros encoding message. unfold validatePayload.
    destruct (constructPayload_tag encoding typeName message Hne)
      as (md & Hmd & _ & Hkey).
    rewrite Hmd. simpl. rewrite bool_decide_eq_true_2 by (by rewrite Hkey). simpl.
    unfold str_lookup. rewrite Hkey, Hname. by rewrite Hroot. }
  split.
  - eexists. split; [reflexivity|]. simpl. by rewrite Hvalid.
  - intros s Hs. eexists. simpl. unfold composite_toPayload. simpl.
    rewrite Hs. simpl. repeat split. by rewrite Hvalid.
Qed.

(** X8: A protobuf payload without data, without metadata or without the
    message-type key is refused with a [ValueError] by both protobuf codecs
    and by the older converter, whether or not a registry was supplied:
    the payload is checked before the registry. *)
Theorem malformed_protobuf_payload (root : option Root)
    (protobufClasses : option Classes) (p : Payload) :
  data p = None \/ metadata p = None \/
  (exists md, metadata p = Some md /\ md !! METADATA_MESSAGE_TYPE_KEY = None) ->
  exists m,
    fromPayload (codec (ProtobufBinaryDataConverter root)) p =
      Err (Throw ValueError m) /\
    fromPayload (codec (ProtobufJsonDataConverter root)) p =
      Err (Throw ValueError m) /\
    fromDataSync protobufClasses p = Err (Throw ValueError m).
Proof.
  intros Hbad. simpl. unfold validatePayload, fromDataSync.
  destruct (data p) as [d|]; [|by eexists].
  destruct Hbad as [Hd | [Hmd | (md & Hmd & Hkey)]]; [done| |]; rewrite Hmd.
  - by eexists.
  - rewrite bool_decide_eq_false_2 by (rewrite Hkey; by intros [? ?]).
    by eexists.
Qed.

End CodecMoreProps.

(** ** failure.ts: what [errorToFailure] writes *)

Section FailureMoreProps.
Import Converter FailureConv Spec SpecMore.
Context `{Platform} `{AttachedOps}.
Abbreviation JsError := (JsError (AttachedFailure := AttachedFailure)).
Abbreviation Unknown := (Unknown (AttachedFailure := AttachedFailure)).
Variable dc : DataConverter.

Lemma lineLoop_kept (lines : list string) :
  Forall (fun l => cut_here l = false) (lineLoop lines).
Proof.
  induction lines as [|line rest IH]; simpl; [by apply Forall_nil|].
  destruct (existsb _ _) eqn:Hcut; [by apply Forall_nil|].
  apply Forall_cons; split; [exact Hcut | exact IH].
Qed.

Lemma lineLoop_fixed (lines : list string) :
  Forall (fun l => cut_here l = false) lines -> lineLoop lines = lines.
Proof.
  induction 1 as [|line rest Hline _ IH]; simpl; [done|].
  unfold cut_here in Hline. by rewrite Hline, IH.
Qed.

(** X9: the loop of [cutoffStackTrace] keeps the lines before the first
    one that a cutoff pattern matches and drops that line and all after
    it; a trace that was cut is not cut further. *)
Theorem lineLoop_cuts_at_first_match (lines : list string) :
  exists rest,
    lines = (lineLoop lines ++ rest)%list /\
    Forall (fun l => cut_here l = false) (lineLoop lines) /\
    match rest with [] => True | l :: _ => cut_here l = true end /\
    lineLoop (lineLoop lines) = lineLoop lines.
Proof.
  assert (Hrest : exists rest,
             lines = (lineLoop lines ++ rest)%list /\
             match rest with [] => True | l :: _ => cut_here l = true end).
  { induction lines as [|line rest IH]; simpl; [by exists []|].
    destruct (existsb _ _) eqn:Hcut; [by exists (line :: rest)|].
    destruct IH as (rest' & Heq & Hfirst). exists rest'.
    split; [|exact Hfirst]. simpl. by f_equal. }
  destruct Hrest as (rest & Heq & Hfirst). exists rest.
  repeat split; [exact Heq | apply lineLoop_kept | exact Hfirst |].
  apply lineLoop_fixed, lineLoop_kept.
Qed.

Lemma no_attached_head (e : JsError) : no_attached e -> error_failure e = None.
Proof.
  unfold no_attached. destruct e; simpl; intros Hn;
    by apply Forall_cons in Hn as [Hn _].
Qed.

Lemma chain_tail (P : JsError -> Prop) (e c : JsError) :
  error_cause e = Some c -> Forall P (error_chain e) -> Forall P (error_chain c).
Proof.
  destruct e as [cls m stk | m c0 p | m n c0 p | m t n d c0 p | m d c0 p | m c0 p
                | m l t p | a i r d c0 p | n x w r c0 p];
    simpl; intros Hc Hn; try discriminate Hc;
    subst c0; by apply Forall_cons in Hn as [_ Hn].
Qed.

Lemma error_chain_cause (e : JsError) :
  error_chain e =
  e :: match error_cause e with Some c => error_chain c | None => [] end.
Proof. by destruct e. Qed.

Lemma convert_cause_chain (c : option JsError) (cf : option Failure) :
  (forall ce, c = Some ce -> forall g,
     errorToFailure_error dc ce = Ok g ->
     Forall2 written_for (error_chain ce) (failure_chain g)) ->
  convert_cause (errorToFailure_error dc) c = Ok cf ->
  Forall2 written_for
    (match c with Some ce => error_chain ce | None => [] end)
    (match cf with Some g => failure_chain g | None => [] end).
Proof.
  intros IH Hc. destruct c as [ce|]; simpl in Hc.
  - destruct (errorToFailure_error dc ce) as [g|x] eqn:Hg; [|discriminate Hc].
    injection Hc as <-. by apply IH.
  - injection Hc as <-. apply Forall2_nil. done.
Qed.

Local Ltac invert_bind Hf :=
  match type of Hf with
  | bind ?r _ = Ok _ =>
      let Hr := fresh "Hr" in
      destruct r eqn:Hr; simpl in Hf; [|discriminate Hf]
  end.

(** X10: for an error that carries no attached failure, on it or on a
    cause, [errorToFailure] writes one failure message per error of the
    cause chain, in the order of the chain: each has the message of its
    error, its stack trace cut off, the source [TypeScriptSDK], and exactly
    the info of the error's variant (none for a plain error and for the
    base class). *)
Theorem errorToFailure_chain (e : JsError) (f : Failure) :
  no_attached e ->
  errorToFailure dc (UError e) = Ok f ->
  Forall2 written_for (error_chain e) (failure_chain f).
Proof.
  simpl. revert f. induction e as [e IH] using cause_chain_ind.
  intros f Hn Hf.
  pose proof (no_attached_head e Hn) as Hhead.
  assert (IHc : forall cf,
             convert_cause (errorToFailure_error dc) (error_cause e) = Ok cf ->
             Forall2 written_for
               (match error_cause e with Some ce => error_chain ce | None => [] end)
               (match cf with Some g => failure_chain g | None => [] end)).
  { intros cf Hcf. apply convert_cause_chain; [|exact Hcf].
    intros ce Hce g Hg. apply IH; [exact Hce| |exact Hg].
    by apply (chain_tail _ e). }
  destruct e as [cls m stk | m c p | m n c p | m t n d c p | m d c p | m c p
                | m l t p | a i r d c p | n x w r c p];
    simpl in Hhead, IHc; simpl in Hf; try rewrite Hhead in Hf; simpl in Hf.
  - injection Hf as <-. apply Forall2_cons; split; [by repeat split|].
    by apply Forall2_nil.
  - invert_bind Hf. injection Hf as <-.
    apply Forall2_cons; split; [by repeat split|].
    by apply IHc.
  - invert_bind Hf. injection Hf as <-.
    apply Forall2_cons; split; [by repeat split|].
    by apply IHc.
  - invert_bind Hf. invert_bind Hf. injection Hf as <-.
    apply Forall2_cons; split; [by repeat split|].
    by apply IHc.
  - invert_bind Hf. invert_bind Hf. injection Hf as <-.
    apply Forall2_cons; split; [by repeat split|].
    by apply IHc.
  - invert_bind Hf. injection Hf as <-.
    apply Forall2_cons; split; [by repeat split|].
    by apply IHc.
  - invert_bind Hf. injection Hf as <-.
    apply Forall2_cons; split; [by repeat split|]. by apply Forall2_nil.
  - invert_bind Hf. injection Hf as <-.
    apply Forall2_cons; split; [by repeat split|].
    by apply IHc.
  - invert_bind Hf. injection Hf as <-.
    apply Forall2_cons; split; [by repeat split|].
    by apply IHc.
Qed.

(** X11: what [errorToFailure] and [optionalErrorToOptionalFailure] do
    with a thrown value that is no error object.  [errorToFailure] throws
    on [undefined] and [null] and on nothing else; any other value gives a
    single failure message without cause, info or stack trace.  The
    optional form gives no failure at all for a falsy value, so it never
    throws on a value, and [0], the empty string and [false] are dropped
    with [undefined] and [null]. *)
Theorem thrown_value_to_failure (v : JsValue) :
  (is_ok (errorToFailure dc (UValue v)) = false <-> v = VUndefined \/ v = VNull) /\
  (forall f, errorToFailure dc (UValue v) = Ok f ->
     failure_chain f = [f] /\ infos f = [] /\ stackTrace f = None /\
     source f = Some FAILURE_SOURCE /\
     forall s, v = VString s -> message f = Some s) /\
  (truthy v = false -> optionalErrorToOptionalFailure dc (UValue v) = Ok None) /\
  (truthy v = true ->
   exists f, optionalErrorToOptionalFailure dc (UValue v) = Ok (Some f)).
Proof.
  split; [|split; [|split]].
  - destruct v; simpl; split; intros Hv; try discriminate Hv; auto;
      destruct Hv as [Hv|Hv]; discriminate Hv.
  - intros f Hf.
    destruct v; simpl in Hf; try discriminate Hf; injection Hf as <-;
      repeat split; intros ? [= ->]; reflexivity.
  - unfold optionalErrorToOptionalFailure. simpl. by intros ->.
  - unfold optionalErrorToOptionalFailure. intros Hv.
    destruct v; simpl in *; try discriminate Hv; rewrite ?Hv; simpl; eauto.
Qed.

End FailureMoreProps.

(** ** failure.ts: the decoding direction of the common module *)

Section CommonFailureProps.
Import Converter FailureConv FailureCommon Spec SpecMore.
Context `{Platform} {ops : AttachedOps (AttachedFailure := DeserializedFailure)}.
Variable error_name : ErrorClass -> string.
Variable dc : DataConverter.

(** X12: [ensureTemporalFailure] throws on [undefined] and [null] only;
    what it returns belongs to the failure taxonomy and is returned
    unchanged when passed in again.  An error keeps its message and its
    stack; a plain error becomes a retryable application failure without
    details whose type is the error's name. *)
Theorem ensureTemporalFailure_taxonomy (err : Unknown) :
  (is_ok (ensureTemporalFailure error_name err) = false <->
   err = UValue VUndefined \/ err = UValue VNull) /\
  forall r, ensureTemporalFailure error_name err = Ok r ->
    is_TemporalFailure (UError r) = true /\
    ensureTemporalFailure error_name (UError r) = Ok r /\
    (is_TemporalFailure err = true -> err = UError r) /\
    (forall e, err = UError e ->
       error_message r = error_message e /\ error_stack r = error_stack e) /\
    (forall cls m stk, err = UError (PlainError cls m stk) ->
       Spec.fields r = ApplicationFields (Some (error_name cls)) false None /\
       error_cause r = None).
Proof.
  split.
  - destruct err as [v|e]; [destruct v|destruct e]; simpl; split; intros Hv;
      try discriminate Hv; auto; destruct Hv as [Hv|Hv]; discriminate Hv.
  - intros r Hr.
    destruct err as [v|e]; [destruct v|destruct e]; simpl in Hr;
      try discriminate Hr; injection Hr as <-; simpl;
      repeat split; intros; simplify_eq; done.
Qed.

Lemma last_cons_default {A} (x : A) (l : list A) (d1 d2 : A) :
  List.last (x :: l) d1 = List.last (x :: l) d2.
Proof.
  revert x. induction l as [|y l IHl]; intros x; [reflexivity | apply (IHl y)].
Qed.

Lemma rootCause_error_last (e : JsError) :
  rootCause_error e = error_message (List.last (error_chain e) e).
Proof.
  induction e as [e IH] using cause_chain_ind.
  rewrite error_chain_cause.
  destruct e as [cls m stk | m c p | m n c p | m t n d c p | m d c p | m c p
                | m l t p | a i r d c p | n x w r c p];
    simpl in *; try reflexivity;
    (destruct c as [ce|]; [|reflexivity]);
    rewrite (IH ce eq_refl); rewrite (error_chain_cause ce);
    apply f_equal, last_cons_default.
Qed.

(** X13: [rootCause] of an error object is the message of the last error
    of its cause chain; of a string the string; it throws on [undefined]
    and [null] and has no answer for any other value. *)
Theorem rootCause_last_message (err : Unknown) :
  (forall e, err = UError e ->
     rootCause err = Ok (Some (error_message (List.last (error_chain e) e)))) /\
  (forall s, err = UValue (VString s) -> rootCause err = Ok (Some s)) /\
  (is_ok (rootCause err) = false <->
   err = UValue VUndefined \/ err = UValue VNull) /\
  (forall v, err = UValue v -> v <> VUndefined -> v <> VNull ->
     (forall s, v <> VString s) -> rootCause err = Ok None).
Proof.
  repeat split.
  - intros e ->. simpl. by rewrite rootCause_error_last.
  - by intros s ->.
  - destruct err as [v|e]; [destruct v|]; simpl; intros Hv;
      try discriminate Hv; auto.
  - intros [Hv|Hv]; by subst err.
  - intros v -> Hu Hn Hs. destruct v; try done.
    by destruct (Hs s).
Qed.

Lemma chain_depth_length (e : JsError) :
  chain_depth e = length (error_chain e).
Proof.
  induction e as [e IH] using cause_chain_ind.
  destruct e as [cls m stk | m c p | m n c p | m t n d c p | m d c p | m c p
                | m l t p | a i r d c p | n x w r c p];
    simpl in *; try reflexivity;
    (destruct c as [ce|]; [|reflexivity]); by rewrite (IH ce eq_refl).
Qed.

Lemma types_named_head (e : JsError) :
  types_named e ->
  match e with
  | ActivityFailure a _ _ _ _ _ => String.eqb a "" = false
  | ChildWorkflowFailure _ _ w _ _ _ => String.eqb w "" = false
  | _ => True
  end.
Proof.
  unfold types_named. rewrite error_chain_cause. intros Hn.
  apply Forall_cons in Hn as [Hn _].
  destruct e; try exact I; by apply String.eqb_neq.
Qed.

Local Ltac with_cause c IH Hn Ht Hk :=
  destruct c as [ce|];
  [ let g := fresh "g" in
    let gd := fresh "gd" in
    let ce' := fresh "ce'" in
    let Hg := fresh "Hg" in
    let Hgd := fresh "Hgd" in
    let Hce' := fresh "Hce'" in
    let Hchain := fresh "Hchain" in
    destruct (IH ce eq_refl) as (g & gd & ce' & Hg & Hgd & Hce' & _ & Hchain);
    [ by eapply chain_tail; [|exact Hn]
    | by eapply chain_tail; [|exact Ht]
    | tauto || done
    | eexists _, _, _;
      split; [simpl; rewrite Hg; simpl; reflexivity|];
      split; [simpl; rewrite Hgd; simpl; reflexivity|];
      split; [simpl; rewrite Hce'; simpl; reflexivity|];
      split; [reflexivity|];
      apply Forall2_cons; split; [by repeat split | exact Hchain] ]
  | eexists _, _, _;
    split; [simpl; reflexivity|];
    split; [simpl; reflexivity|];
    split; [simpl; reflexivity|];
    split; [reflexivity|];
    apply Forall2_cons; split; [by repeat split | by apply Forall2_nil] ].

Lemma round_trip_common_holds (e : JsError) :
  no_attached e -> types_named e -> codec_round_trips dc e ->
  round_trip_common dc e.
Proof.
  induction e as [e IH] using cause_chain_ind. intros Hn Ht Hk.
  pose proof (no_attached_head e Hn) as Hhead.
  pose proof (types_named_head e Ht) as Hname.
  unfold round_trip_common in IH |- *.
  destruct e as [cls m stk | m c p | m n c p | m t n d c p | m d c p | m c p
                | m l t p | a i r d c p | n x w r c p];
    try destruct p as [stk att]; simpl in Hhead; try subst att;
    simpl in Hk, IH.
  - (* a plain error *)
    eexists _, _, _. repeat split.
    apply Forall2_cons; split; [by repeat split | by apply Forall2_nil].
  - (* the base class *)
    with_cause c IH Hn Ht Hk.
  - (* ServerFailure *)
    with_cause c IH Hn Ht Hk.
  - (* ApplicationFailure *)
    destruct Hk as [Hdetails Hk].
    destruct d as [[|v vs]|]; simpl in Hdetails.
    + with_cause c IH Hn Ht Hk.
    + destruct Hdetails as (ps & Hto & Hfrom).
      unfold details_to_payloads, toPayloads.
      destruct c as [ce|].
      * destruct (IH ce eq_refl) as (g & gd & ce' & Hg & Hgd & Hce' & _ & Hchain);
          [by eapply chain_tail; [|exact Hn] | by eapply chain_tail; [|exact Ht]
          | done |].
        eexists _, _, _.
        split; [simpl; rewrite Hg; simpl; unfold toPayloads; rewrite Hto;
                simpl; reflexivity|].
        split; [simpl; rewrite Hgd; simpl; rewrite Hfrom; simpl; reflexivity|].
        split; [simpl; rewrite Hce'; simpl; reflexivity|].
        split; [reflexivity|].
        apply Forall2_cons; split; [by repeat split | exact Hchain].
      * eexists _, _, _.
        split; [simpl; unfold toPayloads; rewrite Hto; simpl; reflexivity|].
        split; [simpl; rewrite Hfrom; simpl; reflexivity|].
        split; [simpl; reflexivity|].
        split; [reflexivity|].
        apply Forall2_cons; split; [by repeat split | by apply Forall2_nil].
    + with_cause c IH Hn Ht Hk.
  - (* CancelledFailure *)
    destruct Hk as [Hdetails Hk].
    destruct d as [[|v vs]|]; simpl in Hdetails.
    + with_cause c IH Hn Ht Hk.
    + destruct Hdetails as (ps & Hto & Hfrom).
      destruct c as [ce|].
      * destruct (IH ce eq_refl) as (g & gd & ce' & Hg & Hgd & Hce' & _ & Hchain);
          [by eapply chain_tail; [|exact Hn] | by eapply chain_tail; [|exact Ht]
          | done |].
        eexists _, _, _.
        split; [simpl; rewrite Hg; simpl; unfold toPayloads; rewrite Hto;
                simpl; reflexivity|].
        split; [simpl; rewrite Hgd; simpl; rewrite Hfrom; simpl; reflexivity|].
        split; [simpl; rewrite Hce'; simpl; reflexivity|].
        split; [reflexivity|].
        apply Forall2_cons; split; [by repeat split | exact Hchain].
      * eexists _, _, _.
        split; [simpl; unfold toPayloads; rewrite Hto; simpl; reflexivity|].
        split; [simpl; rewrite Hfrom; simpl; reflexivity|].
        split; [simpl; reflexivity|].
        split; [reflexivity|].
        apply Forall2_cons; split; [by repeat split | by apply Forall2_nil].
    + with_cause c IH Hn Ht Hk.
  - (* TerminatedFailure *)
    with_cause c IH Hn Ht Hk.
  - (* TimeoutFailure *)
    destruct (truthy l) eqn:Hl.
    + destruct (Hk eq_refl) as (pl & Hto & Hfrom).
      eexists _, _, _.
      split; [simpl; rewrite Hl; unfold toPayloads; simpl; rewrite Hto;
              simpl; reflexivity|].
      split; [simpl; rewrite Hfrom; simpl; reflexivity|].
      split; [simpl; reflexivity|].
      split; [reflexivity|].
      apply Forall2_cons; split; [|by apply Forall2_nil].
      repeat split. simpl. by rewrite Hl.
    + eexists _, _, _.
      split; [simpl; rewrite Hl; simpl; reflexivity|].
      split; [simpl; reflexivity|].
      split; [simpl; reflexivity|].
      split; [reflexivity|].
      apply Forall2_cons; split; [|by apply Forall2_nil].
      repeat split. simpl. by rewrite Hl.
  - (* ActivityFailure *)
    destruct c as [ce|].
    + destruct (IH ce eq_refl) as (g & gd & ce' & Hg & Hgd & Hce' & _ & Hchain);
        [by eapply chain_tail; [|exact Hn] | by eapply chain_tail; [|exact Ht]
        | done |].
      eexists _, _, _.
      split; [simpl; rewrite Hg; simpl; reflexivity|].
      split; [simpl; rewrite Hgd; simpl; reflexivity|].
      split; [simpl; rewrite Hname, Hce'; simpl; reflexivity|].
      split; [reflexivity|].
      apply Forall2_cons; split; [by repeat split | exact Hchain].
    + eexists _, _, _.
      split; [simpl; reflexivity|].
      split; [simpl; reflexivity|].
      split; [simpl; rewrite Hname; simpl; reflexivity|].
      split; [reflexivity|].
      apply Forall2_cons; split; [by repeat split | by apply Forall2_nil].
  - (* ChildWorkflowFailure *)
    destruct c as [ce|].
    + destruct (IH ce eq_refl) as (g & gd & ce' & Hg & Hgd & Hce' & _ & Hchain);
        [by eapply chain_tail; [|exact Hn] | by eapply chain_tail; [|exact Ht]
        | done |].
      eexists _, _, _.
      split; [simpl; rewrite Hg; simpl; reflexivity|].
      split; [simpl; rewrite Hgd; simpl; reflexivity|].
      split; [simpl; rewrite Hname, Hce'; simpl; reflexivity|].
      split; [reflexivity|].
      apply Forall2_cons; split; [by repeat split | exact Hchain].
    + eexists _, _, _.
      split; [simpl; reflexivity|].
      split; [simpl; reflexivity|].
      split; [simpl; rewrite Hname; simpl; reflexivity|].
      split; [reflexivity|].
      apply Forall2_cons; split; [by repeat split | by apply Forall2_nil].
Qed.

(** X14: the round trip through the common module.  For an error built by
    the class constructors (no attached failure on it or on a cause) whose
    activity and workflow types are not empty and whose detail values the
    converter gives back, [failureToError(deserializeFailure(errorToFailure(e)))]
    succeeds, and the whole cause chain comes back error by error: each
    with its variant, child-workflow failures included, its message, and
    its fields as they read back.  The new error carries the decoded
    failure it was built from, and the depth of the chain is that of [e]. *)
Theorem common_failure_round_trip (e : JsError) :
  no_attached e -> types_named e -> codec_round_trips dc e ->
  exists f d e',
    errorToFailure dc (UError e) = Ok f /\
    deserializeFailure f dc = Ok d /\
    optionalProtoFailureToOptionalError (Some f) dc = Ok (Some e') /\
    error_failure e' = Some d /\
    Forall2 comes_back (error_chain e) (error_chain e') /\
    chain_depth e' = chain_depth e.
Proof.
  intros Hn Ht Hk.
  destruct (round_trip_common_holds e Hn Ht Hk)
    as (f & d & e' & Hf & Hd & He' & Hatt & Hchain).
  exists f, d, e'. repeat split; try done.
  - unfold optionalProtoFailureToOptionalError. rewrite Hd. simpl.
    by rewrite He'.
  - rewrite !chain_depth_length. symmetry. by eapply Forall2_length.
Qed.

(** Induction along the cause chain of a failure message. *)
Lemma failure_cause_ind (P : Failure -> Prop) :
  (forall f, (forall c, cause f = Some c -> P c) -> P f) ->
  forall f, P f.
Proof.
  intros Hstep. fix IH 1. intros f. apply Hstep.
  destruct f as [m s src [c|] a1 a2 a3 a4 a5 a6 a7 a8]; simpl;
    intros c' Hc; [|discriminate Hc].
  injection Hc as <-. apply IH.
Qed.

Lemma decoded_cause_ind (P : DeserializedFailure -> Prop) :
  (forall d, (forall c, d_cause d = Some c -> P c) -> P d) ->
  forall d, P d.
Proof.
  intros Hstep. fix IH 1. intros d. apply Hstep.
  destruct d as [m s src [c|] a1 a2 a3 a4 a5 a6 a7 a8]; simpl;
    intros c' Hc; [|discriminate Hc].
  injection Hc as <-. apply IH.
Qed.

Lemma arrayFromPayloads_error (content : option (list Payload)) (x : Exn) :
  arrayFromPayloads dc content = Err x -> exists p, fromPayload dc p = Err x.
Proof.
  destruct content as [ps|]; simpl; [|discriminate].
  intros Hm. apply mapM_error_source in Hm as (p & _ & Hp). eauto.
Qed.

Lemma fromPayloads_error (index : nat) (content : option (list Payload)) (x : Exn) :
  fromPayloads dc index content = Err x -> exists p, fromPayload dc p = Err x.
Proof.
  destruct content as [ps|]; simpl; [|discriminate].
  destruct (length ps <=? index)%nat; [discriminate|].
  destruct (ps !! index); [eauto | discriminate].
Qed.

(** An error of [deserializeFailure] is an error of the converter. *)
Lemma deserializeFailure_error (f : Failure) (x : Exn) :
  deserializeFailure f dc = Err x -> exists p, fromPayload dc p = Err x.
Proof.
  revert x. induction f as [f IH] using failure_cause_ind. intros x.
  destruct f as [m s src c app srv tmo trm can rst act chw]. simpl in IH.
  cbn [deserializeFailure cause applicationFailureInfo timeoutFailureInfo
       canceledFailureInfo resetWorkflowFailureInfo serverFailureInfo
       terminatedFailureInfo activityFailureInfo childWorkflowExecutionFailureInfo
       message stackTrace source].
  destruct c as [cf|]; cbn [bind].
  { destruct (deserializeFailure cf dc) as [cd|y] eqn:Hcf; cbn [bind];
      [|intros [= <-]; by apply (IH cf)].
    destruct app as [[t n [[ps]|]]|]; cbn [bind afi_details afi_type
        afi_nonRetryable payloads];
      try (destruct (arrayFromPayloads dc ps) as [vs|y] eqn:Happ;
           [|intros [= <-]; by apply arrayFromPayloads_error in Happ]); cbn [bind];
    (destruct tmo as [[tt0 [[[hb|]]|]]|];
       cbn [bind tfi_lastHeartbeatDetails tfi_timeoutType];
       try (destruct (fromPayloads dc 0 (Some hb)) as [v|y] eqn:Htmo;
            [|intros [= <-]; by apply fromPayloads_error in Htmo]); cbn [bind]);
    (destruct can as [[[[[cps|]]|]]|]; cbn [bind cfi_details];
       try (destruct (arrayFromPayloads dc (Some cps)) as [cvs|y] eqn:Hcan;
            [|intros [= <-]; by apply arrayFromPayloads_error in Hcan]); cbn [bind]);
    (destruct rst as [[[[[rps|]]|]]|]; cbn [bind rfi_lastHeartbeatDetails];
       try (destruct (arrayFromPayloads dc (Some rps)) as [rvs|y] eqn:Hrst;
            [|intros [= <-]; by apply arrayFromPayloads_error in Hrst]); cbn [bind]);
    discriminate. }
  destruct app as [[t n [[ps]|]]|]; cbn [bind afi_details afi_type
      afi_nonRetryable payloads];
    try (destruct (arrayFromPayloads dc ps) as [vs|y] eqn:Happ;
         [|intros [= <-]; by apply arrayFromPayloads_error in Happ]); cbn [bind];
  (destruct tmo as [[tt0 [[[hb|]]|]]|];
     cbn [bind tfi_lastHeartbeatDetails tfi_timeoutType];
     try (destruct (fromPayloads dc 0 (Some hb)) as [v|y] eqn:Htmo;
          [|intros [= <-]; by apply fromPayloads_error in Htmo]); cbn [bind]);
  (destruct can as [[[[[cps|]]|]]|]; cbn [bind cfi_details];
     try (destruct (arrayFromPayloads dc (Some cps)) as [cvs|y] eqn:Hcan;
          [|intros [= <-]; by apply arrayFromPayloads_error in Hcan]); cbn [bind]);
  (destruct rst as [[[[[rps|]]|]]|]; cbn [bind rfi_lastHeartbeatDetails];
     try (destruct (arrayFromPayloads dc (Some rps)) as [rvs|y] eqn:Hrst;
          [|intros [= <-]; by apply arrayFromPayloads_error in Hrst]); cbn [bind]);
  discriminate.
Qed.

(** X15: [deserializeFailure] changes payloads only: when it succeeds,
    every failure message of the cause chain keeps its message, stack
    trace, source and infos, and the chain keeps its length.  When it
    fails, the error is one that the converter threw on some payload. *)
Theorem deserializeFailure_outcome (f : Failure) :
  match deserializeFailure f dc with
  | Ok d => Forall2 same_envelope (failure_chain f) (d_chain d)
  | Err x => exists p, fromPayload dc p = Err x
  end.
Proof.
  induction f as [f IH] using failure_cause_ind.
  destruct f as [m s src c app srv tmo trm can rst act chw]. simpl in IH.
  cbn [deserializeFailure cause applicationFailureInfo timeoutFailureInfo
       canceledFailureInfo resetWorkflowFailureInfo serverFailureInfo
       terminatedFailureInfo activityFailureInfo childWorkflowExecutionFailureInfo
       message stackTrace source].
  assert (Hc : match (match c with
                      | Some cf => let* cd := deserializeFailure cf dc in Ok (Some cd)
                      | None => Ok None
                      end) with
               | Ok cd =>
                   Forall2 same_envelope
                     (match c with Some cf => failure_chain cf | None => [] end)
                     (match cd with Some g => d_chain g | None => [] end)
               | Err x => exists p, fromPayload dc p = Err x
               end).
  { destruct c as [cf|]; [|by apply Forall2_nil].
    specialize (IH cf eq_refl). by destruct (deserializeFailure cf dc). }
  destruct (match c with
            | Some cf => let* cd := deserializeFailure cf dc in Ok (Some cd)
            | None => Ok None
            end) as [cd|x]; [|exact Hc].
  cbn [bind].
  destruct app as [[t n [[ps]|]]|]; cbn [bind afi_details afi_type afi_nonRetryable payloads];
    try (destruct (arrayFromPayloads dc ps) as [vs|x] eqn:Happ;
         [|by apply arrayFromPayloads_error in Happ]); cbn [bind];
  (destruct tmo as [[tt0 [[[hb|]]|]]|];
     cbn [bind tfi_lastHeartbeatDetails tfi_timeoutType];
     try (destruct (fromPayloads dc 0 (Some hb)) as [v|x] eqn:Htmo;
          [|by apply fromPayloads_error in Htmo]); cbn [bind]);
  (destruct can as [[[[[cps|]]|]]|]; cbn [bind cfi_details];
     try (destruct (arrayFromPayloads dc (Some cps)) as [cvs|x] eqn:Hcan;
          [|by apply arrayFromPayloads_error in Hcan]); cbn [bind]);
  (destruct rst as [[[[[rps|]]|]]|]; cbn [bind rfi_lastHeartbeatDetails];
     try (destruct (arrayFromPayloads dc (Some rps)) as [rvs|x] eqn:Hrst;
          [|by apply arrayFromPayloads_error in Hrst]); cbn [bind]);
  (apply Forall2_cons; split; [|exact Hc]);
  unfold same_envelope, d_infos, infos; cbn; repeat split;
  by destruct srv, trm, act, chw.
Qed.

Local Ltac throws_with_cause c IH :=
  destruct c as [cd|]; cbn [bind]; [|exact I];
  specialize (IH cd eq_refl);
  destruct (failureToError cd) as [ce|x]; cbn [bind]; [exact I | exact IH].

(** The common [failureToError] throws nothing but a [TypeError]. *)
Lemma failureToError_throws (d : DeserializedFailure) :
  match failureToError d with
  | Ok _ => True
  | Err x => exn_class x = TypeError
  end.
Proof.
  induction d as [d IH] using decoded_cause_ind.
  destruct d as [m s src c app srv tmo trm can rst act chw]. simpl in IH.
  cbn [failureToError d_cause d_applicationFailureInfo d_timeoutFailureInfo
       d_canceledFailureInfo d_resetWorkflowFailureInfo d_serverFailureInfo
       d_terminatedFailureInfo d_activityFailureInfo
       d_childWorkflowExecutionFailureInfo d_message d_stackTrace d_source].
  destruct app as [info|]; [throws_with_cause c IH|].
  destruct srv as [info|]; [throws_with_cause c IH|].
  destruct tmo as [info|]; [exact I|].
  destruct trm as [info|]; [throws_with_cause c IH|].
  destruct can as [info|]; [throws_with_cause c IH|].
  destruct rst as [info|]; [throws_with_cause c IH|].
  destruct chw as [[ns [ex|] [[[w|]]|] rs]|]; cbn [bind cw_workflowType
      cw_workflowExecution cw_namespace cw_retryState]; try reflexivity.
  - destruct (String.eqb w ""); cbn [bind]; [reflexivity|].
    throws_with_cause c IH.
  - destruct act as [[[[[a|]]|] i r idn]|]; cbn [bind act_activityType
      act_activityId act_retryState act_identity]; try reflexivity.
    + destruct (String.eqb a ""); cbn [bind]; [reflexivity|].
      throws_with_cause c IH.
    + throws_with_cause c IH.
Qed.

Local Ltac common_with_cause c IH :=
  destruct c as [cd|]; cbn [bind];
  [ specialize (IH cd eq_refl);
    destruct (failureToError cd) as [ce|x]; cbn [bind];
    [ repeat split; simpl; destruct IH as (_ & _ & _ & IH); lia
    | exact IH ]
  | repeat split; simpl; lia ].

(** X16: the common [failureToError].  It can only fail with a
    [TypeError], for a child-workflow info without a workflow type name or
    execution or an activity info without an activity type name.  When it
    succeeds, the error carries the decoded failure it was built from and
    its stack trace (the empty string when there is none); its variant is
    that of the first info the failure carries, in the order application,
    server, timeout, terminated, canceled, reset, child workflow, activity,
    a reset coming back as an application failure; and its cause chain is
    no longer than that of the failure. *)
Theorem failureToError_common_outcome (d : DeserializedFailure) :
  match failureToError d with
  | Ok e =>
      error_failure e = Some d /\
      error_stack e = Some (default "" (d_stackTrace d)) /\
      variant e = variant_of (head (d_infos d)) /\
      (chain_depth e <= d_depth d)%nat
  | Err x => exn_class x = TypeError
  end.
Proof.
  induction d as [d IH] using decoded_cause_ind.
  destruct d as [m s src c app srv tmo trm can rst act chw]. simpl in IH.
  unfold d_infos.
  cbn [failureToError d_cause d_applicationFailureInfo d_timeoutFailureInfo
       d_canceledFailureInfo d_resetWorkflowFailureInfo d_serverFailureInfo
       d_terminatedFailureInfo d_activityFailureInfo
       d_childWorkflowExecutionFailureInfo d_message d_stackTrace d_source].
  destruct app as [info|]; [common_with_cause c IH|].
  destruct srv as [info|]; [common_with_cause c IH|].
  destruct tmo as [info|]; [cbn [bind]; repeat split; simpl; lia|].
  destruct trm as [info|]; [common_with_cause c IH|].
  destruct can as [info|]; [common_with_cause c IH|].
  destruct rst as [info|]; [common_with_cause c IH|].
  destruct chw as [[ns [ex|] [[[w|]]|] rs]|]; cbn [bind cw_workflowType
      cw_workflowExecution cw_namespace cw_retryState]; try reflexivity.
  - destruct (String.eqb w ""); cbn [bind]; [reflexivity|].
    common_with_cause c IH.
  - destruct act as [[[[[a|]]|] i r idn]|]; cbn [bind act_activityType
      act_activityId act_retryState act_identity]; try reflexivity.
    + destruct (String.eqb a ""); cbn [bind]; [reflexivity|].
      common_with_cause c IH.
    + common_with_cause c IH.
Qed.

End CommonFailureProps.

(** ** The client's failure module *)

Section ClientFailureProps.
Import Converter FailureConv ClientFailure Spec SpecMore.
Context `{Platform} `{AttachedOps}.
Abbreviation JsError := (JsError (AttachedFailure := AttachedFailure)).
Variable dc : DataConverter.

Local Ltac finish_shape IH :=
  intros e [= <-]; unfold client_shape; simpl;
  repeat split; try done; try lia;
  try (apply Forall_cons; split; [done|]);
  try (by apply Forall_nil);
  try (destruct IH as (_ & _ & _ & IH & _); exact IH);
  try (destruct IH as (_ & _ & _ & _ & IH & _); simpl in IH; lia).

Local Ltac client_with_cause c IH :=
  destruct c as [cf|]; cbn [bind];
  [ specialize (IH cf eq_refl);
    destruct (failureToError dc cf) as [ce|x]; cbn [bind];
    [ specialize (IH ce eq_refl); finish_shape IH
    | discriminate ]
  | finish_shape IH ].

(** X17: the client's [failureToError].  When it succeeds, the error has
    the stack trace of the failure message (the empty string when there is
    none) and carries the attached failure built from it; its variant is
    that of the first info in the order application, server, timeout,
    terminated, canceled, reset, activity.  No error of the resulting chain
    is a child-workflow failure; the chain is no longer than that of the
    message; and a message with no info but a child-workflow one comes
    back as a base failure that has lost its cause. *)
Theorem client_failureToError_shape (f : Failure) (e : JsError) :
  failureToError dc f = Ok e ->
  error_stack e = Some (default "" (stackTrace f)) /\
  error_failure e = Some (FailureConv.serviceToCoreFailure f) /\
  variant e = variant_of (head (List.filter (carries f) client_order)) /\
  Forall (fun x => variant x <> VarChildWorkflow) (error_chain e) /\
  (length (error_chain e) <= length (failure_chain f))%nat /\
  (variant e = VarNone -> error_cause e = None).
Proof.
  revert e. change (forall e, failureToError dc f = Ok e -> client_shape f e).
  induction f as [f IH] using failure_cause_ind.
  destruct f as [m s src c app srv tmo trm can rst act chw]. simpl in IH.
  cbn [failureToError cause applicationFailureInfo timeoutFailureInfo
       canceledFailureInfo resetWorkflowFailureInfo serverFailureInfo
       terminatedFailureInfo activityFailureInfo childWorkflowExecutionFailureInfo
       message stackTrace source].
  destruct app as [info|].
  { destruct (arrayFromPayloads dc _) as [vs|x]; cbn [bind]; [|discriminate].
    client_with_cause c IH. }
  destruct srv as [info|]; [client_with_cause c IH|].
  destruct tmo as [info|].
  { destruct (fromPayloads dc 0 _) as [v|x]; cbn [bind]; [|discriminate].
    finish_shape IH. }
  destruct trm as [info|]; [client_with_cause c IH|].
  destruct can as [info|].
  { destruct (arrayFromPayloads dc _) as [vs|x]; cbn [bind]; [|discriminate].
    client_with_cause c IH. }
  destruct rst as [info|].
  { destruct (arrayFromPayloads dc _) as [vs|x]; cbn [bind]; [|discriminate].
    client_with_cause c IH. }
  destruct act as [[[[[a|]]|] i r idn]|]; cbn [bind act_activityType
      act_activityId act_retryState act_identity]; try discriminate.
  - destruct (String.eqb a ""); cbn [bind]; [discriminate|].
    client_with_cause c IH.
  - client_with_cause c IH.
Qed.

End ClientFailureProps.

Section ServiceToCoreProps.
Import Converter FailureConv ClientFailure Spec SpecMore.

(** X18: [serviceToCoreFailure] keeps the message, the stack trace and the
    source of every failure message of the cause chain, and the length of
    the chain; of the infos of a message it keeps one, the first in the
    order server, timeout, canceled, activity, terminated, application,
    reset, child workflow, so a core failure never carries two infos. *)
Theorem serviceToCoreFailure_keeps (f : Failure) :
  Forall2 kept_in_core (failure_chain f) (core_chain (serviceToCoreFailure f)).
Proof.
  induction f as [f IH] using failure_cause_ind.
  destruct f as [m s src c app srv tmo trm can rst act chw]. simpl in IH.
  assert (Hc : Forall2 kept_in_core
                 (match c with Some cf => failure_chain cf | None => [] end)
                 (match c with
                  | Some cf => core_chain (serviceToCoreFailure cf)
                  | None => []
                  end)).
  { destruct c as [cf|]; [by apply IH | by apply Forall2_nil]. }
  destruct srv as [?|]; [|destruct tmo as [?|]; [|destruct can as [?|];
    [|destruct act as [?|]; [|destruct trm as [?|]; [|destruct app as [?|];
    [|destruct rst as [?|]; [|destruct chw as [?|]]]]]]]];
    (simpl; apply Forall2_cons; split;
     [ unfold kept_in_core, core_infos; simpl; repeat split;
       by destruct app, tmo, trm, can, rst, act, chw
     | destruct c; exact Hc ]).
Qed.

End ServiceToCoreProps.

(** ** vm.ts: rejections, disposal and the console *)

Section LifecycleProps.
Import Converter FailureConv Serializer Scheduler Lifecycle Spec SpecMore.
Context `{Platform} `{AttachedOps}.
Abbreviation Unknown := (Unknown (AttachedFailure := AttachedFailure)).
Context {Sandbox Decoded Script Options : Type}.
Variable wm_activate : Sandbox -> Decoded -> nat -> Sandbox * Result Exn nat.
Variable wm_tryUnblockConditions : Sandbox -> Sandbox * Result Exn nat.
Variable wm_concludeActivation :
  Sandbox -> Sandbox * Result Exn (Completion JsValue Unknown).
Variable deserializeActivation : WFActivation -> list WFActivationJob -> Result Exn Decoded.
Variable dataConverter : DataConverter.
Variable wm_dispose : Sandbox -> Sandbox * Result Exn unit.
Variable wm_initRuntime : Sandbox -> Options -> Sandbox * Result Exn unit.
Variable runInContext : Script -> Result Exn Sandbox.

Abbreviation activate' :=
  (activate wm_activate wm_tryUnblockConditions wm_concludeActivation
     deserializeActivation dataConverter).

(** [activate] writes [unhandledRejection] only through the handler. *)
Lemma activate_keeps_rejection (fuel : nat) (w : VMWorkflow)
    (activation : WFActivation) (run : Activated) :
  activate' fuel w activation [] = Some run ->
  unhandledRejection (workflow run) = unhandledRejection w.
Proof.
  unfold activate. intros Hrun.
  destruct (context w); [|by injection Hrun as <-].
  destruct (jobs activation) as [js|]; [|by injection Hrun as <-].
  destruct (batch_loop _ _ _ _ _ _ _ _ _) as [[[s1 applied] [?|?]]|]; [| |done].
  2: by injection Hrun as <-.
  destruct (wm_concludeActivation s1) as [s2 [completion|e]];
    by injection Hrun as <-.
Qed.

(** X19: [unhandledRejection] is never reset.  An activation during
    which the handler is not called leaves the recorded rejection as it
    was; so a truthy rejection recorded earlier fails this activation as
    well: if it returns a completion at all, it is the failed one made
    from that rejection, whatever the workflow did. *)
Theorem rejection_is_sticky (fuel : nat) (w : VMWorkflow)
    (activation : WFActivation) (run : Activated) :
  activate' fuel w activation [] = Some run ->
  unhandledRejection (workflow run) = unhandledRejection w /\
  (truthy_unknown (unhandledRejection w) = true ->
   forall c, returned run = Ok c ->
     exists f,
       errorToFailure dataConverter (unhandledRejection w) = Ok f /\
       c = FailedCompletion (wa_runId activation) f).
Proof.
  intros Hrun.
  pose proof (activate_keeps_rejection _ _ _ _ Hrun) as Hkeep.
  split; [exact Hkeep|]. intros Htruthy c Hret. rewrite <- Hkeep.
  eapply activate_unhandled_rejection; [exact Hrun | exact Hret |].
  by rewrite Hkeep.
Qed.

(** X20: the life cycle.  After a successful [dispose], [activate] throws
    an [IllegalStateError] without touching the sandbox or the workflow;
    a [dispose] that fails leaves the context in place.  A destroyed
    creator creates no workflow, and a workflow that was created has a
    context and no unhandled rejection. *)
Theorem disposed_workflow_is_unusable (fuel : nat) (w : VMWorkflow)
    (activation : WFActivation) (handlerCalls : list Unknown)
    (c : VMWorkflowCreator (Script := Script)) (options : Options) (r : bool) :
  (forall w', dispose wm_dispose w = (w', Ok tt) ->
     activate' fuel w' activation handlerCalls =
       Some (mkActivated w' []
               (Err (Throw IllegalStateError "Workflow isolate context uninitialized")))) /\
  (forall w' e, dispose wm_dispose w = (w', Err e) -> context w' = context w) /\
  createWorkflow (AttachedFailure := AttachedFailure)
      wm_initRuntime runInContext (destroy c) options r =
    Err (Throw IllegalStateError "Isolate context provider was destroyed") /\
  (forall w' : VMWorkflow (AttachedFailure := AttachedFailure) (Sandbox := Sandbox),
     createWorkflow wm_initRuntime runInContext c options r = Ok w' ->
     context w' = Some tt /\ isReplaying w' = r /\
     truthy_unknown (unhandledRejection w') = false).
Proof.
  split; [|split; [|split]].
  - unfold dispose. intros w'.
    destruct (wm_dispose (sandbox w)) as [s [u|e]]; [|discriminate].
    by intros [= <-].
  - unfold dispose. intros w' e.
    destruct (wm_dispose (sandbox w)) as [s [u|e']]; [discriminate|].
    by intros [= <- _].
  - reflexivity.
  - intros w' Hw. unfold createWorkflow in Hw.
    destruct (getContext runInContext c) as [s|e]; [|done].
    simpl in Hw. destruct (wm_initRuntime s options) as [s' [u|e]]; [|done].
    by injection Hw as <-.
Qed.

Lemma handler_keeps_isReplaying (handlerCalls : list Unknown)
    (w : VMWorkflow (AttachedFailure := AttachedFailure) (Sandbox := Sandbox)) :
  isReplaying (fold_left setUnhandledRejection handlerCalls w) = isReplaying w.
Proof.
  revert w. induction handlerCalls as [|h hs IH]; intros w; simpl; [done|].
  by rewrite IH.
Qed.

(** X21: the injected [console.log] and [activate] share
    [info.isReplaying].  After any activation of a workflow that has its
    context, also one that failed, the console prints exactly when the
    activation was not marked as replaying; a missing flag counts as not
    replaying. *)
Theorem console_silent_when_replaying (fuel : nat) (w : VMWorkflow)
    (activation : WFActivation) (handlerCalls : list Unknown) (run : Activated)
    (workflowType workflowId : string) (args : list JsValue) :
  context w = Some tt ->
  activate' fuel w activation handlerCalls = Some run ->
  (console_log workflowType workflowId (workflow run) args = None <->
   wa_isReplaying activation = Some true) /\
  (wa_isReplaying activation <> Some true ->
   exists prefix,
     console_log workflowType workflowId (workflow run) args = Some (prefix, args)).
Proof.
  intros Hctx Hrun.
  assert (isReplaying (workflow run) = default false (wa_isReplaying activation))
    as Hrep.
  { unfold activate in Hrun. rewrite Hctx in Hrun.
    destruct (jobs activation) as [js|]; [|by injection Hrun as <-].
    destruct (batch_loop _ _ _ _ _ _ _ _ _) as [[[s1 applied] [?|?]]|]; [| |done].
    2: by injection Hrun as <-.
    destruct (wm_concludeActivation s1) as [s2 [completion|e]];
      [|by injection Hrun as <-].
    injection Hrun as <-. simpl. by rewrite handler_keeps_isReplaying. }
  unfold console_log. rewrite Hrep.
  destruct (wa_isReplaying activation) as [[|]|]; simpl; split;
    try done; eauto; intros Hn; by destruct Hn.
Qed.

Lemma handler_keeps_sandbox (handlerCalls : list Unknown)
    (w : VMWorkflow (AttachedFailure := AttachedFailure) (Sandbox := Sandbox)) :
  sandbox (fold_left setUnhandledRejection handlerCalls w) = sandbox w.
Proof.
  revert w. induction handlerCalls as [|h hs IH]; intros w; simpl; [done|].
  by rewrite IH.
Qed.

(** X28: an activation without work.  On a workflow that has its
    context, an activation whose [jobs] are missing throws the error
    [Expected workflow activation jobs to be defined] after the replay
    flag has been written; an activation with an empty job list hands
    nothing to the sandbox, needs no unblocking, and goes straight to
    [concludeActivation] on the sandbox as it was. *)
Theorem activate_without_jobs (fuel : nat) (w : VMWorkflow)
    (activation : WFActivation) (handlerCalls : list Unknown) :
  context w = Some tt ->
  (jobs activation = None ->
   activate' fuel w activation handlerCalls =
     Some (mkActivated
             {| context := Some tt;
                isReplaying := default false (wa_isReplaying activation);
                unhandledRejection := unhandledRejection w;
                sandbox := sandbox w |} []
             (Err (Throw Error_ "Expected workflow activation jobs to be defined")))) /\
  (jobs activation = Some [] ->
   exists run,
     activate' fuel w activation handlerCalls = Some run /\
     applied_batches run = [] /\
     sandbox (workflow run) = (wm_concludeActivation (sandbox w)).1 /\
     (is_ok (wm_concludeActivation (sandbox w)).2 = false ->
      is_ok (returned run) = false)).
Proof.
  intros Hctx. unfold activate. rewrite Hctx. split; intros ->; [done|].
  simpl. destruct (wm_concludeActivation (sandbox w)) as [s2 [completion|e]];
    eexists; (split; [reflexivity|]); simpl; repeat split; try done.
  by rewrite handler_keeps_sandbox.
Qed.

End LifecycleProps.

(** ** workflow.ts: [cancel] *)

Section CancelMoreProps.
Import FailureConv Cancel Spec.
Context {AttachedFailure : Type}.
Abbreviation JsError := (JsError (AttachedFailure := AttachedFailure)).
Abbreviation Unknown := (Unknown (AttachedFailure := AttachedFailure)).
Context {Promise Scope Rest : Type}.
Variable requestCancel : Scope -> JsError -> Rest -> Rest * option Unknown.

(** X22: [cancel] never throws a [CancellationError]: one that the scope
    throws while it is asked to cancel is swallowed, and the call returns
    normally; any other error of the scope is thrown on unchanged.  In both
    cases the state is the one the scope left, and the runtime stays in
    place. *)
Theorem cancel_swallows_cancellation
    (st st' : State (Promise := Promise) (Scope := Scope)) (promise : Promise)
    (reason : string) (r : Result Unknown unit) :
  cancel requestCancel st promise reason = (st', r) ->
  runtime st' = runtime st /\
  (forall e, r = Err e -> is_CancellationError e = false) /\
  (forall rt data rest' thrown, runtime st = Some rt ->
     getPromiseData rt promise = Some data -> cancellable data = true ->
     requestCancel (scope data) (PlainError CancellationError reason None)
       (rest st) = (rest', thrown) ->
     rest st' = rest' /\
     r = match thrown with
         | Some e => if is_CancellationError e then Ok tt else Err e
         | None => Ok tt
         end).
Proof.
  unfold cancel. intros Hrun.
  destruct (runtime st) as [rt|] eqn:Hrt.
  2:{ injection Hrun as <- <-. rewrite Hrt.
      split; [done|]. split; [by intros e [= <-]|].
      intros rt' data' rest' thrown Hrt'. discriminate Hrt'. }
  destruct (getPromiseData rt promise) as [data|] eqn:Hdata.
  2:{ injection Hrun as <- <-. rewrite Hrt.
      split; [done|]. split; [by intros e [= <-]|].
      intros rt' data' rest' thrown [= <-] Hdata'.
      rewrite Hdata in Hdata'. discriminate Hdata'. }
  destruct (cancellable data) eqn:Hc; simpl in Hrun.
  2:{ injection Hrun as <- <-. rewrite Hrt.
      split; [done|]. split; [by intros e [= <-]|].
      intros rt' data' rest' thrown [= <-] Hdata' Hc'.
      rewrite Hdata in Hdata'. injection Hdata' as <-.
      rewrite Hc in Hc'. discriminate Hc'. }
  assert (Hthird : forall rest0 thrown0,
             requestCancel (scope data) (PlainError CancellationError reason None)
               (rest st) = (rest0, thrown0) ->
             forall rt' data' rest' thrown, Some rt = Some rt' ->
               getPromiseData rt' promise = Some data' -> cancellable data' = true ->
               requestCancel (scope data') (PlainError CancellationError reason None)
                 (rest st) = (rest', thrown) ->
               rest0 = rest' /\ thrown0 = thrown).
  { intros rest0 thrown0 Hreq rt' data' rest' thrown [= <-] Hdata' _ Hreq'.
    rewrite Hdata in Hdata'. injection Hdata' as <-.
    rewrite Hreq in Hreq'. by injection Hreq' as <- <-. }
  destruct (requestCancel _ _ _) as [rest0 [e|]] eqn:Hreq.
  - destruct (is_CancellationError e) eqn:He; simpl in Hrun;
      injection Hrun as <- <-; simpl;
      (split; [done|]; split; [by intros e' [= <-]|]);
      intros rt' data' rest' thrown Hrt' Hdata' Hc' Hreq';
      destruct (Hthird _ _ eq_refl _ _ _ _ Hrt' Hdata' Hc' Hreq') as [<- <-];
      by rewrite He.
  - injection Hrun as <- <-; simpl.
    split; [done|]. split; [discriminate|].
    intros rt' data' rest' thrown Hrt' Hdata' Hc' Hreq'.
    by destruct (Hthird _ _ eq_refl _ _ _ _ Hrt' Hdata' Hc' Hreq') as [<- <-].
Qed.

End CancelMoreProps.

(** ** The older payload converters *)

Section PayloadConverterProps.
Import Converter PayloadConverters Spec SpecMore.
Context `{Platform}.
Variable KEY_ENCODING_PROTOBUF : bytes.

(** X23: the two generations of codecs agree.  The undefined, JSON and
    binary codecs of data-converters.ts carry the names of the older
    payload converters, decode every payload as they do, and encode every
    value to the same payload; where the older one returns [undefined] for
    a value it cannot convert, the newer one throws an
    [UnsupportedTypeError], and an error of [JSON.stringify] is the same
    error in both. *)
Theorem payload_converters_agree (v : JsValue) (p : Payload) :
  Forall2 (fun (new : DataConverterWithEncoding) (old : PayloadConverter) =>
             encodingType new = pc_encodingType old /\
             toPayload (codec new) v = thrown_for_undefined (toDataSync old v) /\
             fromPayload (codec new) p = pc_fromDataSync old p)
    [UndefinedDataConverter; JsonDataConverter; BinaryDataConverter]
    [UndefinedPayloadConverter; JsonPayloadConverter; BinaryPayloadConverter].
Proof.
  repeat (apply Forall2_cons; split); try by apply Forall2_nil.
  - by destruct v.
  - repeat split. destruct v; simpl; try reflexivity;
      by destruct (JSON_stringify _).
  - by destruct v.
Qed.

(** X24: the older protobuf converter.  A message whose class name is a
    key of [protobufClasses] is encoded with its class name as the message
    type, and [fromDataSync] decodes that payload with the class of that
    name.  Without [protobufClasses], and for a message of a class whose
    name is neither a key of [protobufClasses] nor a member that every
    object inherits, [toDataSync] returns [undefined].  A message of a
    class whose name is such an inherited member ([toString],
    [constructor]) is encoded like a registered one, and [fromDataSync]
    throws a [TypeError] on its payload. *)
Theorem protobuf_payload_converter_round_trip (classes : Classes) (T : ProtoType)
    (typeName : string) (fs : list (string * JsValue)) :
  str (u8 typeName) = typeName ->
  classes !! typeName = Some T ->
  (exists p,
     toDataSync (ProtobufPayloadConverter KEY_ENCODING_PROTOBUF (Some classes))
       (VMessage typeName fs) = Ok (Some p) /\
     pc_fromDataSync (ProtobufPayloadConverter KEY_ENCODING_PROTOBUF (Some classes)) p =
       pt_decode T (proto_encode typeName fs)) /\
  (forall v, toDataSync (ProtobufPayloadConverter KEY_ENCODING_PROTOBUF None) v =
             Ok None) /\
  (forall other fs', classes !! other = None -> other ∉ Object_prototype_names ->
     toDataSync (ProtobufPayloadConverter KEY_ENCODING_PROTOBUF (Some classes))
       (VMessage other fs') = Ok None) /\
  (forall other fs', classes !! other = None -> other ∈ Object_prototype_names ->
     str (u8 other) = other ->
     toDataSync (ProtobufPayloadConverter KEY_ENCODING_PROTOBUF (Some classes))
       (VMessage other fs') =
       Ok (Some {| metadata :=
                     Some (<[ METADATA_MESSAGE_TYPE_KEY := u8 other ]>
                             {[ METADATA_ENCODING_KEY := KEY_ENCODING_PROTOBUF ]});
                   data := Some (proto_encode other fs') |}) /\
     pc_fromDataSync (ProtobufPayloadConverter KEY_ENCODING_PROTOBUF (Some classes))
       {| metadata :=
            Some (<[ METADATA_MESSAGE_TYPE_KEY := u8 other ]>
                    {[ METADATA_ENCODING_KEY := KEY_ENCODING_PROTOBUF ]});
          data := Some (proto_encode other fs') |} =
       Err (Throw TypeError "messageClass.decode is not a function")).
Proof.
  intros Hname HT. split; [|split; [|split]].
  - eexists. split.
    + simpl. unfold get_member. rewrite HT.
      rewrite bool_decide_eq_true_2 by eauto. reflexivity.
    + unfold pc_fromDataSync, ProtobufPayloadConverter, fromDataSync. simpl.
      rewrite bool_decide_eq_true_2 by (rewrite lookup_insert_eq; eauto).
      simpl. unfold str_lookup, get_member.
      rewrite lookup_insert_eq, Hname, HT. reflexivity.
  - by intros [].
  - intros other fs' Hother Hown. simpl. unfold get_member. rewrite Hother.
    rewrite (bool_decide_eq_false_2 (other ∈ _)) by done.
    rewrite bool_decide_eq_false_2; [done|]. by intros [? ?].
  - intros other fs' Hother Hinherited Hstr. split.
    + simpl. unfold get_member. rewrite Hother.
      rewrite (bool_decide_eq_true_2 (other ∈ _)) by done.
      rewrite bool_decide_eq_true_2 by eauto. reflexivity.
    + unfold pc_fromDataSync, ProtobufPayloadConverter, fromDataSync. simpl.
      rewrite bool_decide_eq_true_2 by (rewrite lookup_insert_eq; eauto).
      simpl. unfold str_lookup, get_member.
      rewrite lookup_insert_eq, Hstr, Hother.
      by rewrite (bool_decide_eq_true_2 (other ∈ _)) by done.
Qed.

End PayloadConverterProps.


(** ** workflow.ts: [uuid4] *)

Section UuidProps.
Import Uuid SpecMore.
Local Open Scope Z_scope.

Lemma hex_fixed_length (p : nat) (n : Z) : length (hex_fixed p n) = p.
Proof.
  revert n. induction p as [|p IH]; intros n; simpl; [done|].
  rewrite length_app, IH. simpl. lia.
Qed.

Lemma hex_digit_is_hex (d : Z) : is_hex (hex_digit d) = true.
Proof.
  destruct d as [|p|p]; try reflexivity.
  do 4 (destruct p as [p|p|]; try reflexivity).
Qed.

Lemma hex_fixed_is_hex (p : nat) (n : Z) :
  Forall (fun c => is_hex c = true) (hex_fixed p n).
Proof.
  revert n. induction p as [|p IH]; intros n; simpl; [by apply Forall_nil|].
  apply Forall_app. split; [apply IH|].
  apply Forall_cons; split; [apply hex_digit_is_hex | by apply Forall_nil].
Qed.

Lemma hex_fixed_zero (p : nat) : hex_fixed p 0 = replicate p "0"%char.
Proof.
  induction p as [|p IH]; simpl; [done|].
  change (0 / 16) with 0. rewrite IH. clear IH.
  change [hex_digit (0 mod 16)] with ["0"%char].
  induction p as [|p IH]; simpl; [done | by f_equal].
Qed.

Lemma padStart_snoc (s : list ascii) (c d : ascii) (p : nat) :
  padStart (s ++ [c]) (S p) d = (padStart s p d ++ [c])%list.
Proof.
  unfold padStart. rewrite length_app. simpl.
  replace (S p - (length s + 1))%nat with (p - length s)%nat by lia.
  by rewrite app_assoc.
Qed.

(** With enough fuel, the padded digits of [n] are its [p] fixed digits. *)
Lemma digits_padded (fuel : nat) :
  forall (p : nat) (n : Z),
    0 <= n < 16 ^ Z.of_nat (S p) -> n < 16 ^ Z.of_nat fuel ->
    padStart (toString16_digits fuel n) (S p) "0"%char = hex_fixed (S p) n.
Proof.
  induction fuel as [|fuel IH]; intros p n Hn Hfuel.
  - assert (n = 0) as -> by (simpl in Hfuel; lia).
    rewrite hex_fixed_zero. unfold padStart. simpl. by rewrite app_nil_r.
  - simpl toString16_digits. destruct (Z.ltb_spec n 16) as [Hsmall|Hbig].
    + simpl hex_fixed. rewrite Z.div_small, Z.mod_small by lia.
      rewrite hex_fixed_zero. unfold padStart. simpl.
      by rewrite Nat.sub_0_r.
    + destruct p as [|p].
      { change (16 ^ Z.of_nat 1) with 16 in Hn. lia. }
      rewrite padStart_snoc. simpl hex_fixed at 1.
      rewrite IH; [done| |].
      * split; [apply Z.div_pos; lia|].
        apply Z.div_lt_upper_bound; [lia|].
        replace (16 * 16 ^ Z.of_nat (S p)) with (16 ^ Z.of_nat (S (S p))); [lia|].
        rewrite (Nat2Z.inj_succ (S p)), Z.pow_succ_r; lia.
      * apply Z.div_lt_upper_bound; [lia|].
        replace (16 * 16 ^ Z.of_nat fuel) with (16 ^ Z.of_nat (S fuel)); [lia|].
        rewrite (Nat2Z.inj_succ fuel), Z.pow_succ_r; lia.
Qed.

Lemma ho_fixed (p : nat) (n : Z) :
  0 <= n < 16 ^ Z.of_nat (S p) -> ho n (S p) = hex_fixed (S p) n.
Proof.
  intros Hn. unfold ho, toString16. apply digits_padded; [done|].
  destruct (Z.eq_dec n 0) as [->|Hpos]; [reflexivity|].
  assert (0 < n) as Hlt by lia.
  pose proof (Z.log2_spec n Hlt) as [_ Hup].
  pose proof (Z.log2_nonneg n) as Hlog.
  rewrite Nat2Z.inj_succ, Z2Nat.id by done.
  eapply Z.lt_le_trans; [exact Hup|].
  rewrite <- Z.add_1_r.
  change 16 with (2 ^ 4). rewrite <- Z.pow_mul_r by lia.
  apply Z.pow_le_mono_r; lia.
Qed.

Lemma version_byte (b : Z) : 64 <= Z.lor (Z.land b 15) 64 mod 256 < 80.
Proof.
  change 15 with (Z.ones 4). rewrite Z.land_ones by lia.
  pose proof (Z.mod_pos_bound b (2 ^ 4) eq_refl) as Hb.
  change (2 ^ 4) with 16 in *.
  assert (Z.lor (b mod 16) 64 = b mod 16 + 64) as ->.
  { generalize dependent (b mod 16). intros x Hx.
    assert (x = 0 \/ x = 1 \/ x = 2 \/ x = 3 \/ x = 4 \/ x = 5 \/ x = 6 \/ x = 7 \/
            x = 8 \/ x = 9 \/ x = 10 \/ x = 11 \/ x = 12 \/ x = 13 \/ x = 14 \/
            x = 15) as Hcases by lia.
    repeat (destruct Hcases as [->|Hcases]; [reflexivity|]). by subst. }
  rewrite Z.mod_small; lia.
Qed.

Lemma variant_byte (b : Z) : 128 <= Z.lor (Z.land b 63) 128 mod 256 < 192.
Proof.
  change 63 with (Z.ones 6). rewrite Z.land_ones by lia.
  pose proof (Z.mod_pos_bound b (2 ^ 6) eq_refl) as Hb.
  change (2 ^ 6) with 64 in *.
  assert (Z.lor (b mod 64) 128 = b mod 64 + 128) as ->.
  { generalize dependent (b mod 64). intros x Hx.
    rewrite <- (Z2Nat.id x) by lia.
    assert (Z.to_nat x < 64)%nat as Hn by lia.
    generalize dependent (Z.to_nat x). clear. intros n Hn.
    do 64 (destruct n as [|n]; [reflexivity|]). lia. }
  rewrite Z.mod_small; lia.
Qed.

(** The four digits of a number whose leading digit is [q]. *)
Lemma hex_fixed_leading (n q : Z) :
  q * 4096 <= n < (q + 1) * 4096 -> 0 <= q < 16 ->
  exists g,
    hex_fixed 4 n = hex_digit q :: g /\ length g = 3%nat /\
    Forall (fun c => is_hex c = true) g.
Proof.
  intros Hn Hq.
  assert (n / 16 / 16 / 16 = q) as Hdiv
    by (Z.to_euclidean_division_equations; lia).
  exists [hex_digit ((n / 16 / 16) mod 16); hex_digit ((n / 16) mod 16);
          hex_digit (n mod 16)].
  simpl. rewrite Hdiv, (Z.mod_small q) by lia.
  repeat split.
  repeat (apply Forall_cons; split; [apply hex_digit_is_hex|]).
  by apply Forall_nil.
Qed.

Lemma uint16_range (a b : Z) :
  0 <= a < 256 -> 0 <= b < 256 -> 0 <= a * 256 + b < 16 ^ Z.of_nat 4.
Proof. change (16 ^ Z.of_nat 4) with 65536. lia. Qed.

Lemma uint32_range (a b c d : Z) :
  0 <= a < 256 -> 0 <= b < 256 -> 0 <= c < 256 -> 0 <= d < 256 ->
  0 <= (a * 256 + b) * 65536 + (c * 256 + d) < 16 ^ Z.of_nat 8.
Proof. change (16 ^ Z.of_nat 8) with 4294967296. lia. Qed.

(** X25: whatever the four random words are, [uuid4] returns the canonical
    text of a version 4, variant 1 UUID: groups of 8, 4, 4, 4 and 12
    lower-case hexadecimal digits separated by hyphens, with [4] as the
    first digit of the third group and [8], [9], [a] or [b] as the first
    digit of the fourth. *)
Theorem uuid4_format (r0 r1 r2 r3 : Z) : uuid_v4_text (uuid4 r0 r1 r2 r3).
Proof.
  unfold uuid4, setUint32, getUint32, getUint16, getUint8, setUint8.
  simpl.
  pose proof (version_byte ((r1 / 256) mod 256)) as Hversion.
  pose proof (variant_byte ((r2 / 16777216) mod 256)) as Hvariant.
  set (ver := Z.lor (Z.land ((r1 / 256) mod 256) 15) 64 mod 256) in *.
  set (var := Z.lor (Z.land ((r2 / 16777216) mod 256) 63) 128 mod 256) in *.
  assert (Hbyte : forall x, 0 <= x mod 256 < 256)
    by (intros x; by apply Z.mod_pos_bound).
  rewrite !ho_fixed
    by (first [ apply uint32_range | apply uint16_range ];
        first [ apply Hbyte | lia ]).
  destruct (hex_fixed_leading (ver * 256 + r1 mod 256) 4) as (g3 & -> & Hl3 & Hh3);
    [pose proof (Hbyte r1); lia | lia |].
  set (n4 := var * 256 + (r2 / 65536) mod 256).
  assert (32768 <= n4 < 49152) as Hn4
    by (pose proof (Hbyte (r2 / 65536)); unfold n4; lia).
  assert (n4 / 4096 * 4096 <= n4 < (n4 / 4096 + 1) * 4096 /\ 8 <= n4 / 4096 <= 11)
    as [Hq Hq4] by (Z.to_euclidean_division_equations; lia).
  destruct (hex_fixed_leading n4 (n4 / 4096) Hq) as (g4 & -> & Hl4 & Hh4); [lia|].
  eexists (hex_fixed 8 _), (hex_fixed 4 _), g3, g4,
    (hex_fixed 8 _ ++ hex_fixed 4 _)%list, (hex_digit (n4 / 4096)).
  split; [reflexivity|].
  rewrite length_app, !hex_fixed_length.
  repeat (split; [done|]). split.
  - apply Forall_app; split; [apply hex_fixed_is_hex|].
    apply Forall_app; split; [apply hex_fixed_is_hex|].
    apply Forall_app; split; [exact Hh3|].
    apply Forall_app; split; [exact Hh4|].
    apply Forall_app; split; apply hex_fixed_is_hex.
  - assert (n4 / 4096 = 8 \/ n4 / 4096 = 9 \/ n4 / 4096 = 10 \/ n4 / 4096 = 11)
      as [-> | [-> | [-> | ->]]] by lia; simpl; auto.
Qed.

End UuidProps.

(** ** serializer.ts: [deserializeActivation] *)

Section DeserializerProps.
Import Converter FailureConv FailureCommon Serializer Deserializer SpecMore.
Variable dataConverter : DataConverter.

Local Ltac fields_ok :=
  repeat match goal with
         | Hok : is_ok match bind ?r _ with _ => _ end = true |- _ =>
             destruct r; simpl in Hok; [|discriminate Hok]
         end;
  simpl; reflexivity.

Lemma deserializeMap_fulfils (field : option (list (string * Payload))) :
  Forall (fun t => is_ok t = true) (deserializeMap_tasks dataConverter field) ->
  is_ok (deserializeMap dataConverter field) = true.
Proof.
  destruct field as [m|]; simpl; [|done]. intros Hall.
  assert (is_ok (mapM (fun kv => let* v := fromPayload dataConverter kv.2 in
                                 Ok (kv.1, v)) m) = true) as Hm.
  { rewrite mapM_is_ok. apply forallb_forall. intros kv Hin.
    rewrite Forall_forall in Hall.
    destruct (fromPayload dataConverter kv.2) as [v|e] eqn:Hkv; [done|].
    assert (is_ok (outcome (Err e : Result Exn JsValue)) = true) as Hno; [|done].
    apply Hall, list_elem_of_In, in_map_iff. exists kv. by rewrite Hkv. }
  by destruct (mapM _ m).
Qed.

Lemma deserializeJob_fulfils (job : Job Payload Failure) :
  Forall (fun t => is_ok t = true) (job_tasks dataConverter job) ->
  is_ok (deserializeJob dataConverter job) = true.
Proof.
  unfold job_tasks. intros Hall.
  apply Forall_app in Hall as [Hfirst Hall].
  apply Forall_app in Hall as [Hmap Hall].
  apply deserializeMap_fulfils in Hmap.
  apply Forall_cons in Hfirst as [? _].
  repeat (apply Forall_cons in Hall as [? Hall]). clear Hall.
  unfold task, outcome, on_present, activity_result, child_result in *.
  unfold deserializeJob, decode_completed, decode_parent, on_present.
  destruct job as [sw qw cw sg ra rc rs se rr pl]; simpl in *.
  repeat (apply is_ok_bind; [|intros ?]); [..|done].
  - destruct sw as [[wt args hdrs]|]; simpl in *; [|done].
    destruct (deserializeMap dataConverter hdrs); [|done]. fields_ok.
  - destruct qw as [qw|]; simpl in *; [|done]. fields_ok.
  - destruct cw as [cw|]; simpl in *; [|done]. fields_ok.
  - destruct sg as [sg|]; simpl in *; [|done]. fields_ok.
  - destruct ra as [[seq [[[c|] [f|] [cn|]]|]]|]; simpl in *; try done; fields_ok.
  - destruct rc as [[seq [[[c|] [f|] [cn|]]|]]|]; simpl in *; try done; fields_ok.
  - destruct rs as [[seq [cn|]]|]; simpl in *; try done; fields_ok.
  - destruct se as [se|]; simpl in *; [|done]. fields_ok.
  - destruct rr as [rr|]; simpl in *; [|done]. fields_ok.
Qed.

Lemma Promise_all_fulfils_inv (promises : list (Result Exn unit)) (u : unit) :
  Promise_all promises = Ok u -> Forall (fun t => is_ok t = true) promises.
Proof.
  induction promises as [|[v|e] rest IH]; simpl;
    [by intros; apply Forall_nil | | discriminate].
  intros Hrest. apply Forall_cons. split; [done | by apply IH].
Qed.

Lemma Promise_all_error (promises : list (Result Exn unit)) (x : Exn) :
  Promise_all promises = Err x -> In (Err x) promises.
Proof.
  induction promises as [|[u|e] rest IH]; simpl; [discriminate| |].
  - intros Hrest. right. by apply IH.
  - intros [= <-]. by left.
Qed.

Lemma task_error {O B C} (obj : option O) (get : O -> B)
    (run : B -> Result Exn C) (x : Exn) :
  task obj get run = Err x -> exists b, run b = Err x.
Proof.
  unfold task, outcome, on_present. destruct obj as [o|]; [|discriminate].
  destruct (run (get o)) as [c|e] eqn:Hrun; simpl; [discriminate|].
  intros [= <-]. eauto.
Qed.

Lemma deserializeArray_error (field : option (list Payload)) (x : Exn) :
  deserializeArray dataConverter field = Err x ->
  exists p, fromPayload dataConverter p = Err x.
Proof.
  destruct field as [ps|]; simpl; [|discriminate].
  destruct (mapM _ ps) as [vs|e] eqn:Hm; simpl; [discriminate|].
  intros [= <-]. apply mapM_error_source in Hm as (p & _ & Hp). eauto.
Qed.

Lemma deserializeField_error (field : option Payload) (x : Exn) :
  deserializeField dataConverter field = Err x ->
  exists p, fromPayload dataConverter p = Err x.
Proof.
  destruct field as [p|]; simpl; [|discriminate].
  destruct (fromPayload dataConverter p) as [v|e] eqn:Hp; simpl; [discriminate|].
  intros [= <-]. eauto.
Qed.

Lemma deserializeFailureField_error (field : option Failure) (x : Exn) :
  deserializeFailureField dataConverter field = Err x ->
  exists p, fromPayload dataConverter p = Err x.
Proof.
  destruct field as [f|]; simpl; [|discriminate].
  destruct (deserializeFailure f dataConverter) as [d|e] eqn:Hf; simpl;
    [discriminate|].
  intros [= <-]. by apply deserializeFailure_error in Hf.
Qed.

Lemma job_task_error (job : Job Payload Failure) (x : Exn) :
  In (Err x) (job_tasks dataConverter job) ->
  exists p, fromPayload dataConverter p = Err x.
Proof.
  unfold job_tasks. intros Hin.
  apply in_app_or in Hin as [Hin|Hin].
  { destruct Hin as [Hin|[]]. apply task_error in Hin as (b & Hb).
    by apply deserializeArray_error in Hb. }
  apply in_app_or in Hin as [Hin|Hin].
  { unfold deserializeMap_tasks in Hin.
    destruct (mbind sw_headers (startWorkflow job)) as [m|]; [|destruct Hin].
    apply in_map_iff in Hin as (kv & Hkv & _).
    destruct (fromPayload dataConverter kv.2) as [v|e] eqn:Hp; [discriminate|].
    injection Hkv as <-. eauto. }
  simpl in Hin.
  repeat (destruct Hin as [Hin|Hin];
          [apply task_error in Hin as (b & Hb);
           first [ by apply deserializeArray_error in Hb
                 | by apply deserializeField_error in Hb
                 | by apply deserializeFailureField_error in Hb ]|]).
  destruct Hin.
Qed.

Lemma on_present_is_some {O B C} (obj : option O) (get : O -> B)
    (run : B -> Result Exn C) (r : option C) :
  on_present obj get run = Ok r -> is_some r = is_some obj.
Proof.
  unfold on_present. destruct obj as [o|]; [|by intros [= <-]].
  destruct (run (get o)); simpl; [by intros [= <-] | discriminate].
Qed.

Lemma deserializeJob_same (job : Job Payload Failure)
    (job' : Job JsValue DeserializedFailure) :
  deserializeJob dataConverter job = Ok job' -> same_job job job'.
Proof.
  unfold deserializeJob, decode_parent. intros Hjob.
  repeat (apply bind_ok in Hjob as (? & ?%on_present_is_some & Hjob)).
  injection Hjob as <-.
  unfold same_job, job_shape. simpl. split; [congruence | done].
Qed.

(** X26: [deserializeActivation] fulfils exactly when every one of the
    promises it creates does.  When it rejects, it rejects with the error
    of one of them, which is an error that the converter threw on some
    payload, and it returns no activation.  When it fulfils, the
    activation has its run id and replay flag, and its jobs, in their
    order, each with the sub-objects it had and with what it carries
    besides payloads and failures. *)
Theorem deserializeActivation_atomic (activation : Activation Payload Failure) :
  is_ok (deserializeActivation dataConverter activation) =
    forallb is_ok (activation_tasks dataConverter activation) /\
  (forall x, deserializeActivation dataConverter activation = Err x ->
     In (Err x) (activation_tasks dataConverter activation) /\
     exists p, fromPayload dataConverter p = Err x) /\
  (forall a', deserializeActivation dataConverter activation = Ok a' ->
     act_runId a' = act_runId activation /\
     act_isReplaying a' = act_isReplaying activation /\
     Forall2 same_job (act_jobs activation) (act_jobs a')).
Proof.
  assert (Hfulfils :
            Forall (fun t => is_ok t = true)
              (activation_tasks dataConverter activation) ->
            is_ok (deserialized dataConverter activation) = true).
  { unfold activation_tasks, deserialized. intros Hall.
    assert (is_ok (mapM (deserializeJob dataConverter) (act_jobs activation)) = true)
      as Hm.
    { rewrite mapM_is_ok. apply forallb_forall. intros job Hin.
      apply deserializeJob_fulfils, Forall_forall. intros t Ht.
      rewrite Forall_forall in Hall. apply Hall.
      apply list_elem_of_In, in_flat_map. exists job.
      split; [done | by apply list_elem_of_In]. }
    by destruct (mapM _ (act_jobs activation)). }
  assert (Hrejects :
            forall x, deserializeActivation dataConverter activation = Err x ->
                      In (Err x) (activation_tasks dataConverter activation)).
  { unfold deserializeActivation. intros x Hx.
    destruct (Promise_all _) as [u|e] eqn:Hall; simpl in Hx.
    - apply Promise_all_fulfils_inv in Hall. apply Hfulfils in Hall.
      unfold deserialized in *. by rewrite Hx in Hall.
    - injection Hx as <-. by apply Promise_all_error. }
  split; [|split].
  - unfold deserializeActivation.
    destruct (Promise_all _) as [u|e] eqn:Hall; simpl.
    + apply Promise_all_fulfils_inv in Hall.
      rewrite (Hfulfils Hall). symmetry. apply forallb_forall.
      intros t Ht. rewrite Forall_forall in Hall.
      by apply Hall, list_elem_of_In.
    + apply Promise_all_error in Hall. symmetry.
      apply not_true_is_false. intros Hok.
      rewrite forallb_forall in Hok. by specialize (Hok _ Hall).
  - intros x Hx. specialize (Hrejects x Hx). split; [done|].
    unfold activation_tasks in Hrejects.
    apply in_flat_map in Hrejects as (job & _ & Hin).
    by apply (job_task_error job).
  - unfold deserializeActivation, deserialized. intros a' Ha'.
    apply bind_ok in Ha' as (u & _ & Ha').
    apply bind_ok in Ha' as (js & Hjs & Ha'). injection Ha' as <-. simpl.
    repeat split.
    apply mapM_Forall2 in Hjs.
    eapply Forall2_impl; [exact Hjs|].
    intros job job'. apply deserializeJob_same.
Qed.

End DeserializerProps.

(** ** serializer.ts: what [serializeCompletion] keeps *)

Section SerializerMoreProps.
Import Converter FailureConv Serializer SpecMore.
Context `{Platform} `{AttachedOps}.
Abbreviation Unknown := (Unknown (AttachedFailure := AttachedFailure)).
Abbreviation FailureSlot := (FailureSlot (AttachedFailure := AttachedFailure)).
Variable dataConverter : DataConverter.

Lemma serializeCommand_same (command : Command JsValue Unknown)
    (command' : Command Payload FailureSlot) :
  serializeCommand dataConverter command = Ok command' ->
  same_command (Some command) (Some command').
Proof.
  unfold serializeCommand. intros Hc.
  repeat (apply bind_ok in Hc as (? & ?%on_present_is_some & Hc)).
  injection Hc as <-.
  unfold same_command, command_shape. simpl. split; [congruence | done].
Qed.

(** X27: a completion that [serializeCompletion] returns has the run id
    of the one it was given and the same list of commands: as many, in the
    same order, an absent entry still absent, each command with the
    sub-objects it had and with its timer or cancellation command
    untouched.  Its [failed] field holds a failure message exactly when
    the field it was given was truthy. *)
Theorem serializeCompletion_keeps_commands (completion : Completion JsValue Unknown)
    (completion' : Completion Payload FailureSlot) :
  serializeCompletion dataConverter completion = Ok completion' ->
  runId completion' = runId completion /\
  Forall2 same_command (commands_in completion) (commands_in completion') /\
  match failed completion' with
  | inl u => u = failed completion /\ truthy_unknown u = false
  | inr f => truthy_unknown (failed completion) = true /\
             errorToFailure dataConverter (failed completion) = Ok f
  end.
Proof.
  unfold serializeCompletion, serialized. intros Hc.
  apply bind_ok in Hc as (u & _ & Hc).
  apply bind_ok in Hc as (s & Hs & Hc).
  apply bind_ok in Hc as (f & Hf & Hc). injection Hc as <-. simpl.
  split; [done|]. split.
  - unfold commands_in, on_present in *. simpl.
    destruct (successful completion) as [[cs]|]; simpl in *;
      [|injection Hs as <-; by apply Forall2_nil].
    apply bind_ok in Hs as (s' & Hs' & Hs). injection Hs as <-.
    apply bind_ok in Hs' as (cs' & Hcs' & Hs'). injection Hs' as <-. simpl.
    destruct cs as [cs|]; simpl in *; [|injection Hcs' as <-; by apply Forall2_nil].
    apply bind_ok in Hcs' as (l & Hl & Hcs'). injection Hcs' as <-. simpl.
    apply mapM_Forall2 in Hl. eapply Forall2_impl; [exact Hl|].
    intros [c|] c'; simpl; [|by intros [= <-]].
    intros Hcmd. apply bind_ok in Hcmd as (c0 & Hc0 & Hcmd). injection Hcmd as <-.
    by apply serializeCommand_same.
  - unfold serializeFailureField in Hf.
    destruct (truthy_unknown (failed completion)) eqn:Ht.
    + apply bind_ok in Hf as (f0 & Hf0 & Hf). by injection Hf as <-.
    + by injection Hf as <-.
Qed.

End SerializerMoreProps.

(** ** create-project: [isFolderEmpty] *)

Section CreateProjectProps.
Import CreateProject SpecMore.
Variable green blue : string -> string.
Variable isDirectory : string -> option bool.

Lemma list_ascii_app (a b : string) :
  list_ascii_of_string (a +:+ b) =
    (list_ascii_of_string a ++ list_ascii_of_string b)%list.
Proof. induction a as [|c a IH]; simpl; [done | by rewrite IH]. Qed.

Lemma is_iml_spec (file : string) :
  is_iml file = true <-> exists stem, file = stem +:+ ".iml".
Proof.
  unfold is_iml. rewrite bool_decide_eq_true. split.
  - intros [k Hk]. exists (string_of_list_ascii k).
    rewrite <- (string_of_list_ascii_of_string file), Hk.
    rewrite <- (list_ascii_of_string_of_list_ascii k) at 1.
    by rewrite <- list_ascii_app, string_of_list_ascii_of_string.
  - intros [stem ->]. exists (list_ascii_of_string stem). apply list_ascii_app.
Qed.

Lemma conflict_spec (file : string) :
  negb (existsb (String.eqb file) validFiles) && negb (is_iml file) = false <->
  harmless file.
Proof.
  unfold harmless. rewrite <- is_iml_spec.
  rewrite andb_false_iff, !negb_false_iff, existsb_exists. split.
  - intros [(x & Hin & Hx%String.eqb_eq)|Himl]; [left; by subst | by right].
  - intros [Hin|Himl]; [left | by right]. exists file. by rewrite String.eqb_refl.
Qed.

Lemma filter_conflicts_of (entries : list string) :
  conflicts_of entries
    (List.filter (fun file => negb (existsb (String.eqb file) validFiles) &&
                              negb (is_iml file)) entries).
Proof.
  set (conflict := fun file => negb (existsb (String.eqb file) validFiles) &&
                               negb (is_iml file)).
  induction entries as [|file rest IH]; cbn [List.filter]; [constructor|].
  destruct (conflict file) eqn:Hc.
  - apply conflicts_of_conflict; [|exact IH].
    intros Hh%conflict_spec. fold (conflict file) in Hh. congruence.
  - apply conflicts_of_harmless; [|exact IH]. by apply conflict_spec.
Qed.

Lemma conflicts_of_none (entries : list string) :
  conflicts_of entries [] <-> Forall harmless entries.
Proof.
  split.
  - intros Hc. remember [] as none eqn:Hnone.
    induction Hc as [|file rest cs Hh _ IH|]; [by apply Forall_nil| |done].
    apply Forall_cons; split; [done|]. by apply IH.
  - induction 1 as [|file rest Hh _ IH]; [constructor|].
    by apply conflicts_of_harmless.
Qed.

Lemma conflicts_of_unique (entries : list string) (cs cs' : list string) :
  conflicts_of entries cs -> conflicts_of entries cs' -> cs = cs'.
Proof.
  intros Hc; revert cs'.
  induction Hc as [|file rest cs Hh _ IH|file rest cs Hh _ IH]; intros cs' Hc';
    inversion Hc'; subst; try done; [by apply IH|].
  f_equal. by apply IH.
Qed.

(** X29: [isFolderEmpty] answers [true] exactly when every entry of the
    directory is one of the listed files or ends in [.iml], and then it
    prints nothing.  Otherwise it prints the line that names the
    directory and an empty line, then one line for each conflicting entry,
    in the order of the listing (the entry after two spaces, in blue and
    with a slash when it is a directory), then an empty line, the advice
    and an empty line. *)
Theorem isFolderEmpty_verdict (entries : list string) (name : string) :
  ((isFolderEmpty green blue isDirectory entries name).1 = true <->
   Forall harmless entries) /\
  exists conflicts,
    conflicts_of entries conflicts /\
    match isFolderEmpty green blue isDirectory entries name with
    | (true, printed) => conflicts = [] /\ printed = []
    | (false, printed) =>
        conflicts <> [] /\
        exists lines,
          Forall2 (listed_as blue isDirectory) conflicts lines /\
          printed =
            ([ "The directory " +:+ green name +:+
               " contains files that could conflict:"; "" ] ++
             lines ++
             [ "";
               "Either try using a new directory name, or remove the files listed above.";
               "" ])%list
    end.
Proof.
  pose proof (filter_conflicts_of entries) as Hcs.
  unfold isFolderEmpty.
  destruct (List.filter _ entries) as [|c cs] eqn:Hf; simpl.
  - split; [by rewrite <- conflicts_of_none|]. by exists [].
  - split.
    + split; [done|]. intros Hall%conflicts_of_none.
      by pose proof (conflicts_of_unique _ _ _ Hcs Hall).
    + exists (c :: cs). split; [exact Hcs|]. split; [done|].
      exists (map (fun file =>
                     match isDirectory file with
                     | Some true => "  " +:+ blue file +:+ "/"
                     | _ => "  " +:+ file
                     end) (c :: cs)).
      split; [|reflexivity].
      clear. generalize (c :: cs). intros l.
      induction l as [|file rest IH]; simpl; [by apply Forall2_nil|].
      apply Forall2_cons; split; [|exact IH].
      unfold listed_as. by destruct (isDirectory file) as [[]|].
Qed.

End CreateProjectProps.

(** ** failure.ts: [convertFailuresToErrors] *)

Section ConvertProps.
Import Converter FailureConv FailureCommon Serializer Deserializer Convert SpecMore.
Context `{Platform}.

Lemma optional_error_throws (f : option DeserializedFailure) (x : Exn) :
  optionalFailureToOptionalError f = Err x -> exn_class x = TypeError.
Proof.
  destruct f as [d|]; simpl; [|discriminate].
  pose proof (failureToError_throws d) as Hd.
  destruct (failureToError d) as [e|y]; simpl; [discriminate|]. by intros [= <-].
Qed.

Lemma optional_error_is_some (f : option DeserializedFailure) (e : option JsError) :
  optionalFailureToOptionalError f = Ok e -> is_some e = is_some f.
Proof.
  destruct f as [d|]; simpl; [|by intros [= <-]].
  destruct (failureToError d); simpl; [by intros [= <-] | discriminate].
Qed.

Lemma convert_parent_throws (p : option (FailureParent DeserializedFailure))
    (x : Exn) :
  convert_parent p = Err x -> exn_class x = TypeError.
Proof.
  unfold convert_parent, on_present. destruct p as [[f]|]; simpl; [|discriminate].
  destruct (optionalFailureToOptionalError f) as [e|y] eqn:Hf; simpl;
    [discriminate|].
  intros [= <-]. by apply optional_error_throws in Hf.
Qed.

Lemma convertJob_throws (job : Job JsValue DeserializedFailure) (x : Exn) :
  convertJob job = Err x -> exn_class x = TypeError.
Proof.
  unfold convertJob. intros Hx.
  repeat match type of Hx with
         | bind ?r _ = Err _ =>
             let Hr := fresh "Hr" in
             destruct r eqn:Hr; simpl in Hx;
             [|injection Hx as <-;
               first [ by apply convert_parent_throws in Hr
                     | destruct (resolveSignalExternalWorkflow job);
                       [by apply optional_error_throws in Hr | discriminate Hr] ]]
         end.
  discriminate Hx.
Qed.

Lemma convertJob_converted (job : Job JsValue DeserializedFailure)
    (job' : ConvertedJob) :
  convertJob job = Ok job' -> converted_from job job'.
Proof.
  unfold convertJob. intros Hjob.
  apply bind_ok in Hjob as (af & _ & Hjob).
  apply bind_ok in Hjob as (ac & _ & Hjob).
  apply bind_ok in Hjob as (sc & _ & Hjob).
  apply bind_ok in Hjob as (se & Hse & Hjob).
  apply bind_ok in Hjob as (cf & _ & Hjob).
  apply bind_ok in Hjob as (cc & _ & Hjob).
  apply bind_ok in Hjob as (rr & Hrr%on_present_is_some & Hjob).
  injection Hjob as <-. unfold converted_from. simpl.
  repeat (split; [done|]).
  split; [by destruct (resolveActivity job)|].
  split; [by destruct (resolveChildWorkflowExecution job)|].
  split; [by destruct (resolveChildWorkflowExecutionStart job)|].
  split; [done|].
  destruct (resolveSignalExternalWorkflow job) as [p|]; simpl;
    [by apply optional_error_is_some | by injection Hse as <-].
Qed.

(** X30: [convertFailuresToErrors] throws nothing but a [TypeError].  When
    it returns, every job has kept its sub-objects without failures and
    the presence of those with failures, except one:
    [resolveSignalExternalWorkflow] is replaced by the error made from its
    failure, so a resolution that carries no failure is gone from the job
    afterwards. *)
Theorem convertFailuresToErrors_outcome
    (activation : Activation JsValue DeserializedFailure) :
  match convertFailuresToErrors activation with
  | Ok jobs' => Forall2 converted_from (act_jobs activation) jobs'
  | Err x => exn_class x = TypeError
  end.
Proof.
  unfold convertFailuresToErrors.
  destruct (mapM convertJob (act_jobs activation)) as [jobs'|x] eqn:Hm.
  - apply mapM_Forall2 in Hm. eapply Forall2_impl; [exact Hm|].
    intros job job'. apply convertJob_converted.
  - apply mapM_error_source in Hm as (job & _ & Hjob).
    by apply convertJob_throws in Hjob.
Qed.

End ConvertProps.

(** ** The properties above on concrete inputs *)

Section MoreExamples.
Import Converter FailureConv FailureCommon ClientFailure PayloadConverters.
Import Serializer Scheduler Lifecycle Cancel Spec SpecMore Examples ExamplesMore.
#[local] Existing Instance Reference.platform.
#[local] Existing Instance Reference.attached.

Lemma two_values_give_back : Forall (gives_back defaultDataConverter) two_values.
Proof.
  apply Forall_cons; split; [exists (json_payload "1"); by split|].
  apply Forall_cons; split;
    [exists (json_payload (Reference.quoted "two")); by split|].
  by apply Forall_nil.
Qed.

Lemma reference_protobuf_constants_ok : protobuf_constants_ok.
Proof. repeat split; done. Qed.

Lemma arrayFromPayloads_toPayloads_witness :
  exists r,
    toPayloads defaultDataConverter two_values = Ok r /\
    arrayFromPayloads defaultDataConverter r = Ok two_values.
Proof.
  apply (arrayFromPayloads_toPayloads defaultDataConverter two_values).
  exact two_values_give_back.
Defined.

Lemma fromPayloads_toPayloads_witness :
  exists r,
    toPayloads defaultDataConverter two_values = Ok r /\
    fromPayloads defaultDataConverter 1 r = Ok (VString "two").
Proof.
  apply (fromPayloads_toPayloads defaultDataConverter two_values 1).
  exact two_values_give_back.
Defined.

Lemma mapToPayloads_keys_witness :
  [("headerA", json_payload (Reference.quoted "headerAString"))].*1 = ["headerA"] /\
  Forall2 (fun kv kp => toPayload defaultDataConverter kv.2 = Ok kp.2)
    [("headerA", VString "headerAString")]
    [("headerA", json_payload (Reference.quoted "headerAString"))].
Proof.
  apply (mapToPayloads_keys defaultDataConverter
           [("headerA", VString "headerAString")]
           [("headerA", json_payload (Reference.quoted "headerAString"))]).
  reflexivity.
Defined.

Lemma toPayload_never_unsupported_witness :
  exn_class (Throw TypeError "Do not know how to serialize a BigInt")
    <> UnsupportedTypeError.
Proof.
  apply (toPayload_never_unsupported (default_chain None) (VBigInt 1)).
  reflexivity.
Defined.

Lemma encoded_payload_routes_back_witness :
  exists c,
    c ∈ default_chain None /\
    toPayload (codec c) (VString "two") = Ok (json_payload (Reference.quoted "two")) /\
    fromPayload (as_DataConverter (DefaultDataConverter None))
      (json_payload (Reference.quoted "two")) =
      fromPayload (codec c) (json_payload (Reference.quoted "two")).
Proof.
  apply (encoded_payload_routes_back None (VString "two")
           (json_payload (Reference.quoted "two"))
           reference_constants_ok reference_protobuf_constants_ok).
  reflexivity.
Defined.

Lemma protobuf_message_round_trip_witness :
  (exists p,
     toPayload (codec (ProtobufBinaryDataConverter (Some foo_root)))
       (VMessage "Foo" []) = Ok p /\
     fromPayload (codec (ProtobufBinaryDataConverter (Some foo_root))) p =
       Ok (VMessage "Foo" [])) /\
  (forall s, JSON_stringify (toProto3JSON "Foo" []) = Ok s ->
     exists p,
       toPayload (codec (ProtobufJsonDataConverter (Some foo_root)))
         (VMessage "Foo" []) = Ok p /\
       toPayload (as_DataConverter (DefaultDataConverter (Some foo_root)))
         (VMessage "Foo" []) = Ok p /\
       fromPayload (codec (ProtobufJsonDataConverter (Some foo_root))) p =
         (let* j := JSON_parse (str (u8 s)) in pt_fromJSON Foo_type j)).
Proof.
  apply (protobuf_message_round_trip foo_root Foo_type "Foo" []
           reference_protobuf_constants_ok).
  - reflexivity.
  - reflexivity.
Defined.

Lemma malformed_protobuf_payload_witness :
  exists m,
    fromPayload (codec (ProtobufBinaryDataConverter None)) empty_payload =
      Err (Throw ValueError m) /\
    fromPayload (codec (ProtobufJsonDataConverter None)) empty_payload =
      Err (Throw ValueError m) /\
    fromDataSync None empty_payload = Err (Throw ValueError m).
Proof.
  apply (malformed_protobuf_payload None None empty_payload).
  left. reflexivity.
Defined.

Lemma protobuf_payload_converter_round_trip_witness :
  (exists p,
     toDataSync (ProtobufPayloadConverter (list_byte_of_string "binary/protobuf")
                   (Some foo_classes)) (VMessage "Foo" []) = Ok (Some p) /\
     pc_fromDataSync (ProtobufPayloadConverter (list_byte_of_string "binary/protobuf")
                        (Some foo_classes)) p = Ok (VMessage "Foo" [])) /\
  toDataSync (ProtobufPayloadConverter (list_byte_of_string "binary/protobuf")
                (Some foo_classes)) (VMessage "Bar" []) = Ok None /\
  toDataSync (ProtobufPayloadConverter (list_byte_of_string "binary/protobuf")
                (Some foo_classes)) (VMessage "toString" []) =
    Ok (Some (typed_payload "binary/protobuf" "toString" "")) /\
  pc_fromDataSync (ProtobufPayloadConverter (list_byte_of_string "binary/protobuf")
                     (Some foo_classes))
    (typed_payload "binary/protobuf" "toString" "") =
    Err (Throw TypeError "messageClass.decode is not a function").
Proof.
  pose proof (protobuf_payload_converter_round_trip
                (list_byte_of_string "binary/protobuf") foo_classes Foo_type "Foo" []
                eq_refl eq_refl) as (Hfoo & _ & Hother & Hinherited).
  split; [exact Hfoo|]. split.
  - apply (Hother "Bar" []); [reflexivity|].
    apply (bool_decide_unpack _). by vm_compute.
  - apply (Hinherited "toString" []); [reflexivity| |reflexivity].
    apply (bool_decide_unpack _). by vm_compute.
Defined.

Lemma application_error_not_attached : no_attached application_error.
Proof.
  unfold no_attached. simpl.
  apply Forall_cons; split; [reflexivity|].
  apply Forall_cons; split; [reflexivity|]. by apply Forall_nil.
Qed.

Lemma errorToFailure_chain_witness :
  exists f,
    errorToFailure defaultDataConverter (UError application_error) = Ok f /\
    Forall2 written_for (error_chain application_error) (failure_chain f).
Proof.
  destruct (errorToFailure defaultDataConverter (UError application_error))
    as [f|x] eqn:Hf; [|vm_compute in Hf; discriminate Hf].
  exists f. split; [reflexivity|].
  apply (errorToFailure_chain defaultDataConverter application_error f
           application_error_not_attached Hf).
Defined.

Lemma nested_error_supported :
  no_attached nested_error /\ types_named nested_error /\
  codec_round_trips defaultDataConverter nested_error.
Proof.
  split; [|split].
  - unfold no_attached. simpl.
    repeat (apply Forall_cons; split; [reflexivity|]). by apply Forall_nil.
  - unfold types_named. simpl.
    repeat (apply Forall_cons; split; [done|]). by apply Forall_nil.
  - simpl. split; [|exact I]. exists two_payloads. by split.
Qed.

Lemma common_failure_round_trip_witness :
  exists f d e',
    errorToFailure (H0 := decoded_attached) defaultDataConverter
      (UError nested_error) = Ok f /\
    deserializeFailure f defaultDataConverter = Ok d /\
    optionalProtoFailureToOptionalError (Some f) defaultDataConverter = Ok (Some e') /\
    error_failure e' = Some d /\
    Forall2 comes_back (error_chain nested_error) (error_chain e') /\
    chain_depth e' = chain_depth nested_error.
Proof.
  apply (common_failure_round_trip (ops := decoded_attached) defaultDataConverter
           nested_error
           (proj1 nested_error_supported)
           (proj1 (proj2 nested_error_supported))
           (proj2 (proj2 nested_error_supported))).
Defined.

Lemma client_failureToError_shape_witness :
  exists e,
    FailureConv.failureToError defaultDataConverter child_failure_message = Ok e /\
    error_stack e = Some "trace" /\
    variant e = VarNone /\
    Forall (fun x => variant x <> VarChildWorkflow) (error_chain e) /\
    error_cause e = None.
Proof.
  destruct (FailureConv.failureToError defaultDataConverter child_failure_message)
    as [e|x] eqn:He; [|vm_compute in He; discriminate He].
  exists e.
  destruct (client_failureToError_shape defaultDataConverter child_failure_message e He)
    as (Hstack & _ & Hvariant & Hchain & _ & Hcause).
  repeat split; [exact Hstack | exact Hvariant | exact Hchain |].
  apply Hcause. exact Hvariant.
Defined.

Lemma rejection_is_sticky_witness :
  exists run,
    run_on rejected_workflow reverse_order_activation = Some run /\
    unhandledRejection (workflow run) = UError (PlainError Error_ "unhandled" None) /\
    forall c, returned run = Ok c ->
      exists f,
        errorToFailure defaultDataConverter
          (UError (PlainError Error_ "unhandled" None)) = Ok f /\
        c = FailedCompletion "run-1" f.
Proof.
  destruct (run_on rejected_workflow reverse_order_activation) as [run|] eqn:Hrun;
    [|vm_compute in Hrun; discriminate Hrun].
  exists run. split; [reflexivity|].
  destruct (rejection_is_sticky ex_activate ex_tryUnblockConditions
              ex_concludeActivation ex_deserializeActivation defaultDataConverter
              1 rejected_workflow reverse_order_activation run Hrun)
    as [Hkeep Hfail].
  split; [exact Hkeep|]. exact (Hfail eq_refl).
Defined.

Lemma console_silent_when_replaying_witness :
  exists run,
    run_on ex_workflow replaying_activation = Some run /\
    console_log "main" "wf-1" (workflow run) [VString "hello"] = None.
Proof.
  destruct (run_on ex_workflow replaying_activation) as [run|] eqn:Hrun;
    [|vm_compute in Hrun; discriminate Hrun].
  exists run. split; [reflexivity|].
  apply (proj1 (console_silent_when_replaying ex_activate ex_tryUnblockConditions
                  ex_concludeActivation ex_deserializeActivation defaultDataConverter
                  1 ex_workflow replaying_activation [] run "main" "wf-1"
                  [VString "hello"] eq_refl Hrun)).
  reflexivity.
Defined.

Lemma activate_without_jobs_witness :
  exists run,
    run_on ex_workflow (mkActivation "run-1" None (Some [])) = Some run /\
    applied_batches run = [].
Proof.
  destruct (proj2 (activate_without_jobs ex_activate ex_tryUnblockConditions
                     ex_concludeActivation ex_deserializeActivation
                     defaultDataConverter 1 ex_workflow
                     (mkActivation "run-1" None (Some [])) [] eq_refl) eq_refl)
    as (run & Hrun & Happlied & _).
  exists run. by split.
Defined.

Lemma serializeCompletion_keeps_commands_witness :
  exists c',
    serializeCompletion defaultDataConverter
      (completion_of [complete_success; start_timer]) = Ok c' /\
    runId c' = "run-1" /\
    Forall2 same_command
      (commands_in (completion_of [complete_success; start_timer]))
      (commands_in c').
Proof.
  destruct (serializeCompletion defaultDataConverter
              (completion_of [complete_success; start_timer]))
    as [c'|x] eqn:Hc; [|vm_compute in Hc; discriminate Hc].
  exists c'. split; [reflexivity|].
  destruct (serializeCompletion_keeps_commands defaultDataConverter
              (completion_of [complete_success; start_timer]) c' Hc)
    as (Hrun & Hcommands & _).
  by split.
Defined.

Lemma cancel_swallows_cancellation_witness :
  cancel throwing_requestCancel ex_state 2 "Cancelled" = (ex_state, Ok tt) /\
  forall e, (Ok tt : Result Unknown unit) = Err e -> is_CancellationError e = false.
Proof.
  split; [reflexivity|].
  apply (cancel_swallows_cancellation throwing_requestCancel ex_state ex_state 2
           "Cancelled" (Ok tt) eq_refl).
Defined.

End MoreExamples.
